(** * The Kubernetes executor of the CI runner (executors/kubernetes/kubernetes.go)

    A shallow embedding of the executor's state machine
    (Run, Finish, Cleanup), of its resource manager (pod, credentials secret,
    scripts config-map, proxy services), of the stage driver and of the log
    demultiplexer, followed by the properties the specification states about
    them.

    Conventions.
    - A Go [error] value is an [option error]: [None] is [nil].
    - A pointer field of the executor ([s.pod], [s.configMap],
      [s.credentials]) is an [option]: [None] is [nil].
    - Methods with the pointer receiver [s *executor] are computations in the
      state monad [M] over the executor and the world it talks to (the API
      server, the build log, the job trace).
    - Goroutines are sequentialised: what the environment decides (the
      outcome of an API call, the order in which channels become ready, the
      lines the log processor delivers) is an explicit input. *)

From Stdlib Require Import String Ascii List ZArith Bool Arith Lia.
From Stdlib Require Import DecimalString Permutation.
Import ListNotations.
Open Scope list_scope.
Open Scope string_scope.

Set Implicit Arguments.

(* ------------------------------------------------------------------ *)
(** ** Errors *)
(* ------------------------------------------------------------------ *)

(** api.PodPhase *)
Inductive PodPhase : Type :=
| PodPending | PodRunning | PodSucceeded | PodFailed | PodUnknown.

Definition PodPhase_eqb (a b : PodPhase) : bool :=
  match a, b with
  | PodPending, PodPending | PodRunning, PodRunning
  | PodSucceeded, PodSucceeded | PodFailed, PodFailed
  | PodUnknown, PodUnknown => true
  | _, _ => false
  end.

Definition PodPhase_String (p : PodPhase) : string :=
  match p with
  | PodPending => "Pending" | PodRunning => "Running"
  | PodSucceeded => "Succeeded" | PodFailed => "Failed"
  | PodUnknown => "Unknown"
  end.

(** The concrete error types the executor builds or inspects.
    - [errorString]: [errors.New], [fmt.Errorf] without [%w];
    - [wrapError prefix inner]: [fmt.Errorf("prefix: %w", inner)];
    - [ImagePullError]: [*pull.ImagePullError];
    - [StatusError code kind]: [*kubeerrors.StatusError] with
      [ErrStatus.Code] and [ErrStatus.Details] ([None] is a nil [Details],
      [Some k] has [Details.Kind = k]);
    - [CodeExitError]: [exec.CodeExitError{Err, Code}] of client-go;
    - [commandTerminatedError], [podPhaseError]: declared by the executor;
    - [BuildError]: [*common.BuildError{Inner, ExitCode}]. *)
#[warnings="-register-all"] Inductive error : Type :=
| errorString (msg : string)
| wrapError (prefix : string) (inner : error)
| ImagePullError (image message : string)
| StatusError (code : Z) (details : option string)
| CodeExitError (Err : error) (Code : Z)
| commandTerminatedError (exitCode : Z)
| podPhaseError (name : string) (phase : PodPhase)
| BuildError (Inner : option error) (ExitCode : Z).

Definition Z_String (z : Z) : string :=
  match z with
  | Z0 => "0"
  | Zpos p => NilEmpty.string_of_uint (Pos.to_uint p)
  | Zneg p => "-" ++ NilEmpty.string_of_uint (Pos.to_uint p)
  end.

Definition nat_String (n : nat) : string :=
  match n with
  | O => "0"
  | _ => NilEmpty.string_of_uint (Nat.to_uint n)
  end.

Definition doubleQuote : ascii := ascii_of_nat 34.

Definition quote (s : string) : string := String doubleQuote (s ++ String doubleQuote "").

(** The [Error()] method. *)
Fixpoint Error (e : error) : string :=
  match e with
  | errorString msg => msg
  | wrapError prefix inner => prefix ++ ": " ++ Error inner
  | ImagePullError image message =>
      "pulling image " ++ quote image ++ ": " ++ message
  | StatusError code _ => "status " ++ Z_String code
  | CodeExitError Err _ => Error Err
  | commandTerminatedError exitCode =>
      "command terminated with exit code " ++ Z_String exitCode
  | podPhaseError name phase =>
      "pod " ++ quote name ++ " status is " ++ quote (PodPhase_String phase)
  | BuildError None _ => "error"
  | BuildError (Some inner) _ => Error inner
  end.

(** [Unwrap]: the [%w] verb of [fmt.Errorf] and [BuildError]'s [Inner] are
    the only links of an error chain; [exec.CodeExitError] has no [Unwrap]
    method. *)
Definition Unwrap (e : error) : option error :=
  match e with
  | wrapError _ inner => Some inner
  | BuildError inner _ => inner
  | _ => None
  end.

(** [errors.As(err, &target)]: the first error of the chain that has the
    target's type, [None] when there is none (or [err] is nil). *)
Fixpoint errors_As_chain (hasType : error -> bool) (e : error) : option error :=
  if hasType e then Some e
  else match e with
       | wrapError _ inner => errors_As_chain hasType inner
       | BuildError (Some inner) _ => errors_As_chain hasType inner
       | _ => None
       end.

Definition errors_As (hasType : error -> bool) (err : option error) : option error :=
  match err with
  | None => None
  | Some e => errors_As_chain hasType e
  end.

Definition isImagePullError (e : error) : bool :=
  match e with ImagePullError _ _ => true | _ => false end.
Definition isStatusError (e : error) : bool :=
  match e with StatusError _ _ => true | _ => false end.
Definition isCodeExitError (e : error) : bool :=
  match e with CodeExitError _ _ => true | _ => false end.
Definition isCommandTerminatedError (e : error) : bool :=
  match e with commandTerminatedError _ => true | _ => false end.
Definition isBuildError (e : error) : bool :=
  match e with BuildError _ _ => true | _ => false end.

Definition StatusNotFound : Z := 404.

(** func IsKubernetesPodNotFoundError(err error) bool *)
Definition IsKubernetesPodNotFoundError (err : option error) : bool :=
  match errors_As isStatusError err with
  | Some (StatusError code details) =>
      (code =? StatusNotFound)%Z &&
      match details with
      | Some kind => String.eqb kind "pods"
      | None => false
      end
  | _ => false
  end.

Definition unknownLogProcessorExitCode : Z := 1000.
Definition outputLogFileNotExistsExitCode : Z := 100.

(** func getExitCode(err error) int *)
Definition getExitCode (err : option error) : Z :=
  match errors_As isCodeExitError err with
  | Some (CodeExitError _ Code) => Code
  | _ => unknownLogProcessorExitCode
  end.

(* ------------------------------------------------------------------ *)
(** ** Kubernetes objects

    The fields the executor sets or reads; resource requests, security
    context, volumes and scheduling constraints are carried through
    unchanged by the code and are left out. *)
(* ------------------------------------------------------------------ *)

Module metav1.

Record OwnerReference : Type := {
  APIVersion : string;
  Kind : string;
  RefName : string;   (* OwnerReference.Name *)
  RefUID : string     (* OwnerReference.UID *)
}.

Record ObjectMeta : Type := {
  Name : string;
  GenerateName : string;
  Namespace : string;
  UID : string;
  Labels : list (string * string);
  Annotations : list (string * string);
  OwnerReferences : list OwnerReference
}.

Definition emptyMeta : ObjectMeta :=
  {| Name := ""; GenerateName := ""; Namespace := ""; UID := "";
     Labels := []; Annotations := []; OwnerReferences := [] |}.

(** ObjectMeta.SetOwnerReferences *)
Definition SetOwnerReferences (refs : list OwnerReference) (m : ObjectMeta) : ObjectMeta :=
  {| Name := Name m; GenerateName := GenerateName m; Namespace := Namespace m;
     UID := UID m; Labels := Labels m; Annotations := Annotations m;
     OwnerReferences := refs |}.

Inductive DeletionPropagation : Type :=
| DeletePropagationOrphan
| DeletePropagationBackground
| DeletePropagationForeground.

End metav1.

Module api.

Record Container : Type := {
  Name : string;
  Image : string;
  ImagePullPolicy : string;
  Command : list string;
  Args : list string;
  Ports : list Z;          (* ContainerPort numbers *)
  Stdin : bool
}.

Definition emptyContainer : Container :=
  {| Name := ""; Image := ""; ImagePullPolicy := ""; Command := [];
     Args := []; Ports := []; Stdin := false |}.

Inductive RestartPolicy : Type :=
| RestartPolicyUnset | RestartPolicyAlways | RestartPolicyOnFailure | RestartPolicyNever.

Record PodSpec : Type := {
  ServiceAccountName : string;
  RestartPolicy_ : RestartPolicy;
  InitContainers : list Container;
  Containers : list Container;
  ImagePullSecrets : list string;   (* LocalObjectReference names *)
  HostAliases : list string
}.

Definition emptyPodSpec : PodSpec :=
  {| ServiceAccountName := ""; RestartPolicy_ := RestartPolicyUnset;
     InitContainers := []; Containers := []; ImagePullSecrets := [];
     HostAliases := [] |}.

Record Pod : Type := {
  PodMeta : metav1.ObjectMeta;
  Spec : PodSpec;
  Phase : PodPhase         (* Status.Phase *)
}.

Record Secret : Type := {
  SecretMeta : metav1.ObjectMeta;
  SecretType : string;
  SecretData : list (string * string)
}.

Record ConfigMap : Type := {
  ConfigMapMeta : metav1.ObjectMeta;
  Data : list (string * string)
}.

Record ServicePort : Type := {
  PortName : string;
  Port : Z;
  TargetPort : Z
}.

Record Service : Type := {
  ServiceMeta : metav1.ObjectMeta;
  ServicePorts : list ServicePort;
  Selector : list (string * string);
  ServiceType : string
}.

(** The zero values a typed client hands back next to an error
    ([result = &v1.Pod{}] before the request is made). *)
Definition zeroPod : Pod :=
  {| PodMeta := metav1.emptyMeta; Spec := emptyPodSpec; Phase := PodPending |}.
Definition zeroSecret : Secret :=
  {| SecretMeta := metav1.emptyMeta; SecretType := ""; SecretData := [] |}.
Definition zeroConfigMap : ConfigMap :=
  {| ConfigMapMeta := metav1.emptyMeta; Data := [] |}.
Definition zeroService : Service :=
  {| ServiceMeta := metav1.emptyMeta; ServicePorts := []; Selector := [];
     ServiceType := "" |}.

Definition SecretTypeDockercfg : string := "kubernetes.io/dockercfg".
Definition DockerConfigKey : string := ".dockercfg".
Definition ServiceTypeClusterIP : string := "ClusterIP".

Definition withPodMeta (m : metav1.ObjectMeta) (p : Pod) : Pod :=
  {| PodMeta := m; Spec := Spec p; Phase := Phase p |}.
Definition withPhase (ph : PodPhase) (p : Pod) : Pod :=
  {| PodMeta := PodMeta p; Spec := Spec p; Phase := ph |}.
Definition withSecretMeta (m : metav1.ObjectMeta) (x : Secret) : Secret :=
  {| SecretMeta := m; SecretType := SecretType x; SecretData := SecretData x |}.
Definition withConfigMapMeta (m : metav1.ObjectMeta) (x : ConfigMap) : ConfigMap :=
  {| ConfigMapMeta := m; Data := Data x |}.
Definition withServiceMeta (m : metav1.ObjectMeta) (x : Service) : Service :=
  {| ServiceMeta := m; ServicePorts := ServicePorts x; Selector := Selector x;
     ServiceType := ServiceType x |}.

End api.

(* ------------------------------------------------------------------ *)
(** ** The API server

    The object store behind [s.kubeClient.CoreV1()]: create assigns the
    generated name and the UID, update replaces the stored object, delete
    removes it, and deleting a pod with foreground (or background)
    propagation removes the objects that name the pod as their owner. An
    absent object answers with a 404 status error whose details carry the
    resource kind. *)
(* ------------------------------------------------------------------ *)

Module kube.

Record Cluster : Type := {
  Pods : list api.Pod;
  Secrets : list api.Secret;
  ConfigMaps : list api.ConfigMap;
  Services : list api.Service;
  serial : nat           (* source of generated names and UIDs *)
}.

Definition empty : Cluster :=
  {| Pods := []; Secrets := []; ConfigMaps := []; Services := []; serial := 0 |}.

Definition named (ns name : string) (m : metav1.ObjectMeta) : bool :=
  String.eqb (metav1.Namespace m) ns && String.eqb (metav1.Name m) name.

Definition ownedBy (uid : string) (m : metav1.ObjectMeta) : bool :=
  existsb (fun r => String.eqb (metav1.RefUID r) uid) (metav1.OwnerReferences m).

Definition NewNotFound (kind : string) : error :=
  StatusError StatusNotFound (Some kind).

(** Server-side defaulting on create: namespace of the request, a name
    derived from [GenerateName] when none is given, a fresh UID. *)
Definition enrol (ns : string) (n : nat) (m : metav1.ObjectMeta) : metav1.ObjectMeta :=
  {| metav1.Name :=
       if String.eqb (metav1.Name m) ""
       then metav1.GenerateName m ++ nat_String n
       else metav1.Name m;
     metav1.GenerateName := metav1.GenerateName m;
     metav1.Namespace := ns;
     metav1.UID := "uid-" ++ nat_String n;
     metav1.Labels := metav1.Labels m;
     metav1.Annotations := metav1.Annotations m;
     metav1.OwnerReferences := metav1.OwnerReferences m |}.

Definition createPod (ns : string) (p : api.Pod) (c : Cluster) : (api.Pod * Cluster) + error :=
  let p' := api.withPhase PodPending (api.withPodMeta (enrol ns (serial c) (api.PodMeta p)) p) in
  inl (p', {| Pods := Pods c ++ [p']; Secrets := Secrets c; ConfigMaps := ConfigMaps c;
              Services := Services c; serial := S (serial c) |}).

Definition createSecret (ns : string) (x : api.Secret) (c : Cluster) : (api.Secret * Cluster) + error :=
  let x' := api.withSecretMeta (enrol ns (serial c) (api.SecretMeta x)) x in
  inl (x', {| Pods := Pods c; Secrets := Secrets c ++ [x']; ConfigMaps := ConfigMaps c;
              Services := Services c; serial := S (serial c) |}).

Definition createConfigMap (ns : string) (x : api.ConfigMap) (c : Cluster)
  : (api.ConfigMap * Cluster) + error :=
  let x' := api.withConfigMapMeta (enrol ns (serial c) (api.ConfigMapMeta x)) x in
  inl (x', {| Pods := Pods c; Secrets := Secrets c; ConfigMaps := ConfigMaps c ++ [x'];
              Services := Services c; serial := S (serial c) |}).

Definition createService (ns : string) (x : api.Service) (c : Cluster)
  : (api.Service * Cluster) + error :=
  let x' := api.withServiceMeta (enrol ns (serial c) (api.ServiceMeta x)) x in
  inl (x', {| Pods := Pods c; Secrets := Secrets c; ConfigMaps := ConfigMaps c;
              Services := Services c ++ [x']; serial := S (serial c) |}).

Definition replace {A} (meta : A -> metav1.ObjectMeta) (ns : string) (x : A) (l : list A) : list A :=
  map (fun y => if named ns (metav1.Name (meta x)) (meta y) then x else y) l.

Definition updateSecret (ns : string) (x : api.Secret) (c : Cluster) : (api.Secret * Cluster) + error :=
  if existsb (fun y => named ns (metav1.Name (api.SecretMeta x)) (api.SecretMeta y)) (Secrets c)
  then inl (x, {| Pods := Pods c; Secrets := replace api.SecretMeta ns x (Secrets c);
                  ConfigMaps := ConfigMaps c; Services := Services c; serial := serial c |})
  else inr (NewNotFound "secrets").

Definition updateConfigMap (ns : string) (x : api.ConfigMap) (c : Cluster)
  : (api.ConfigMap * Cluster) + error :=
  if existsb (fun y => named ns (metav1.Name (api.ConfigMapMeta x)) (api.ConfigMapMeta y)) (ConfigMaps c)
  then inl (x, {| Pods := Pods c; Secrets := Secrets c;
                  ConfigMaps := replace api.ConfigMapMeta ns x (ConfigMaps c);
                  Services := Services c; serial := serial c |})
  else inr (NewNotFound "configmaps").

Definition getPod (ns name : string) (c : Cluster) : (api.Pod * Cluster) + error :=
  match find (fun p => named ns name (api.PodMeta p)) (Pods c) with
  | Some p => inl (p, c)
  | None => inr (NewNotFound "pods")
  end.

Definition cascades (policy : option metav1.DeletionPropagation) : bool :=
  match policy with
  | Some metav1.DeletePropagationOrphan => false
  | _ => true
  end.

Definition without {A} (meta : A -> metav1.ObjectMeta) (ns name : string) (l : list A) : list A :=
  filter (fun y => negb (named ns name (meta y))) l.

Definition orphans {A} (meta : A -> metav1.ObjectMeta) (uid : string) (l : list A) : list A :=
  filter (fun y => negb (ownedBy uid (meta y))) l.

Definition deletePod (ns name : string) (policy : option metav1.DeletionPropagation)
           (c : Cluster) : (unit * Cluster) + error :=
  match find (fun p => named ns name (api.PodMeta p)) (Pods c) with
  | None => inr (NewNotFound "pods")
  | Some p =>
      let uid := metav1.UID (api.PodMeta p) in
      let keep {A} (meta : A -> metav1.ObjectMeta) (l : list A) :=
        if cascades policy then orphans meta uid l else l in
      inl (tt, {| Pods := without api.PodMeta ns name (Pods c);
                  Secrets := keep api.SecretMeta (Secrets c);
                  ConfigMaps := keep api.ConfigMapMeta (ConfigMaps c);
                  Services := keep api.ServiceMeta (Services c);
                  serial := serial c |})
  end.

Definition deleteSecret (ns name : string) (c : Cluster) : (unit * Cluster) + error :=
  if existsb (fun y => named ns name (api.SecretMeta y)) (Secrets c)
  then inl (tt, {| Pods := Pods c; Secrets := without api.SecretMeta ns name (Secrets c);
                   ConfigMaps := ConfigMaps c; Services := Services c; serial := serial c |})
  else inr (NewNotFound "secrets").

Definition deleteConfigMap (ns name : string) (c : Cluster) : (unit * Cluster) + error :=
  if existsb (fun y => named ns name (api.ConfigMapMeta y)) (ConfigMaps c)
  then inl (tt, {| Pods := Pods c; Secrets := Secrets c;
                   ConfigMaps := without api.ConfigMapMeta ns name (ConfigMaps c);
                   Services := Services c; serial := serial c |})
  else inr (NewNotFound "configmaps").

(** What other actors do to the job's pod between two calls of the
    executor: the kubelet moves its phase, somebody deletes it. *)
Inductive ExternalAction : Type :=
| SetPodPhase (ns name : string) (phase : PodPhase)
| RemovePod (ns name : string).

Definition act (a : ExternalAction) (c : Cluster) : Cluster :=
  match a with
  | SetPodPhase ns name phase =>
      {| Pods := map (fun p => if named ns name (api.PodMeta p) then api.withPhase phase p else p)
                     (Pods c);
         Secrets := Secrets c; ConfigMaps := ConfigMaps c;
         Services := Services c; serial := serial c |}
  | RemovePod ns name =>
      match deletePod ns name (Some metav1.DeletePropagationBackground) c with
      | inl (_, c') => c'
      | inr _ => c
      end
  end.

(** The requests the executor issues, as the API server sees them. *)
Inductive Request : Type :=
| CreatePod (ns : string) (p : api.Pod)
| GetPod (ns name : string)
| DeletePod (ns name : string) (policy : option metav1.DeletionPropagation)
| CreateSecret (ns : string) (x : api.Secret)
| UpdateSecret (ns : string) (x : api.Secret)
| DeleteSecret (ns name : string)
| CreateConfigMap (ns : string) (x : api.ConfigMap)
| UpdateConfigMap (ns : string) (x : api.ConfigMap)
| DeleteConfigMap (ns name : string)
| CreateService (ns : string) (x : api.Service).

End kube.

(* ------------------------------------------------------------------ *)
(** ** Collaborators outside the executor package *)
(* ------------------------------------------------------------------ *)

Module common.

(** common.Image: the build image and each service definition. *)
Record Port : Type := {
  Number : Z;
  Protocol : string;
  PortName : string
}.

Record Image : Type := {
  Name : string;
  Alias : string;
  Command : list string;
  Entrypoint : list string;
  Ports : list Port
}.

Definition emptyImage : Image :=
  {| Name := ""; Alias := ""; Command := []; Entrypoint := []; Ports := [] |}.

(** common.ExecutorCommand (its Context drives the select of a stage and
    is part of the stage's environment below). *)
Record ExecutorCommand : Type := {
  Script : string;
  Stage : string;
  Predefined : bool
}.

Inductive ExecutorStage : Type :=
| ExecutorStageCreated
| ExecutorStagePrepare
| ExecutorStageRun
| ExecutorStageFinish
| ExecutorStageCleanup.

(** common.VerifyAllowedImageOptions *)
Record VerifyAllowedImageOptions : Type := {
  VImage : string;
  OptionName : string;
  AllowedImages : list string;
  InternalImages : list string
}.

(** What [Shell.GenerateScript] answers for one build stage. *)
Inductive GeneratedScript : Type :=
| Generated (script : string)
| ErrSkipBuildStage
| GenerateFailed (err : error).

Inductive PatchType : Type :=
| PatchTypeJSONPatchType
| PatchTypeMergePatchType
| PatchTypeStrategicMergePatchType
| PatchTypeOther (name : string).

End common.

Module shells.

(** shells.TrapCommandExitStatus: both fields are pointers. *)
Record TrapCommandExitStatus : Type := {
  CommandExitCode : option Z;
  Script : option string
}.

Inductive ShellName : Type :=
| SNBash | SNSh | SNPwsh | SNPowershell | SNOther (name : string).

Definition BashDetectShellScript : string := "#!/bin/sh: detect the shell and exec it".
Definition PwshValidationScript (sh : ShellName) : string := "& { param($Path) & $Path }".

End shells.

Module proxy.

Record Port : Type := {
  Number : Z;
  Protocol : string;
  Name : string
}.

Record Settings : Type := {
  ServiceName : string;
  Ports : list Port
}.

End proxy.

Module helperimage.
Definition OSTypeLinux : string := "linux".
Definition OSTypeWindows : string := "windows".
Definition DockerHubWarningMessage : string :=
  "Pulling GitLab Runner helper image from Docker Hub.".
End helperimage.

(** The pull-policy manager is an interface of package [pull]; it keeps its
    own state, threaded here explicitly. *)
Class Manager (PM : Type) : Type := {
  GetPullPolicyFor : string -> PM -> (string * option error) * PM;
  UpdatePolicyForImage : nat -> error -> PM -> bool * PM
}.

(** Functions of sibling packages the executor calls:
    [shells.TrapCommandExitStatus.TryUnmarshal], [common.VerifyAllowedImage]
    and [dns.MakeRFC1123Compatible]. *)
Class Packages : Type := {
  TryUnmarshal : string -> option shells.TrapCommandExitStatus;
  VerifyAllowedImage : common.VerifyAllowedImageOptions -> option error;
  MakeRFC1123Compatible : string -> string
}.

(* ------------------------------------------------------------------ *)
(** ** The job and the runner configuration

    What [Prepare] leaves in [s.Build], [s.Config], [s.options],
    [s.configurationOverwrites], [s.helperImageInfo] and [s.BuildShell];
    none of it changes afterwards. *)
(* ------------------------------------------------------------------ *)

(** One entry of [Config.Kubernetes.PodSpec]: the patch type, and what
    [PatchToJSON] gives: an error, or a patch document, represented by the
    transformation it denotes on the serialised pod spec. *)
Record PodSpecPatch : Type := {
  GetPatchType : common.PatchType;
  PatchToJSON : (api.PodSpec -> api.PodSpec + error) + error
}.

(** What [featureChecker.IsHostAliasSupported] answers. *)
Inductive HostAliasCheck : Type :=
| HostAliasSupported (supported : bool)
| HostAliasBadVersion (err : error)
| HostAliasCheckFailed (err : error).

Record JobSpec : Type := {
  ProjectUniqueName : string;
  ProjectID : Z;
  JobID : Z;
  Image : common.Image;                    (* s.options.Image *)
  Services : list common.Image;            (* s.options.Services *)
  BuildStages : list (string * common.GeneratedScript);
  DockerAuth : list (string * string) + error;   (* auth.ResolveConfigs *)
  UseLegacyKubernetesExecutionStrategy : bool    (* the feature flag *)
}.

Record RuntimeConfig : Type := {
  namespace : string;                      (* configurationOverwrites.namespace *)
  serviceAccount : string;
  KubernetesImage : string;                (* Config.Kubernetes.Image *)
  AllowedImages : list string;
  AllowedServices : list string;
  ImagePullSecrets : list string;
  PodSpec : list PodSpecPatch;
  PodLabels : list (string * string);
  podAnnotations : list (string * string);
  IsHostAliasSupported : HostAliasCheck;   (* s.featureChecker *)
  createHostAliases : list string + error; (* createHostAliases(services, config) *)
  Shell : shells.ShellName;
  DockerCommand : list string;             (* BuildShell.DockerCommand *)
  HelperImage : string;                    (* Config.Kubernetes.HelperImage *)
  GitLabRegistryHelperImage : bool;        (* the feature flag *)
  HelperImageName : string;                (* helperImageInfo.Name *)
  HelperImageString : string;              (* helperImageInfo.String() *)
  HelperOSType : string;
  HelperCmd : list string;                 (* helperImageInfo.Cmd *)
  RootDir : string
}.

(* ------------------------------------------------------------------ *)
(** ** The executor and the world around it *)
(* ------------------------------------------------------------------ *)

Record executor (PM : Type) : Type := {
  Build : JobSpec;
  Config : RuntimeConfig;
  currentStage : common.ExecutorStage;     (* AbstractExecutor.currentStage *)
  ProxyPool : list (string * proxy.Settings);
  kubeClientClosed : bool;
  pod : option api.Pod;
  configMap : option api.ConfigMap;
  credentials : option api.Secret;
  services : list api.Service;
  pullManager : PM;
  (** the channel between the log demultiplexer and the stage driver: the
      statuses sent and not yet received, oldest first *)
  remoteProcessTerminated : list shells.TrapCommandExitStatus;
  (** the goroutines of [runInContainer] that earlier stages left in their
      receive from that channel *)
  receiving : nat
}.

Arguments Build {PM} _.
Arguments Config {PM} _.
Arguments currentStage {PM} _.
Arguments ProxyPool {PM} _.
Arguments kubeClientClosed {PM} _.
Arguments pod {PM} _.
Arguments configMap {PM} _.
Arguments credentials {PM} _.
Arguments services {PM} _.
Arguments pullManager {PM} _.
Arguments remoteProcessTerminated {PM} _.
Arguments receiving {PM} _.

Inductive LogLevel : Type := LDebug | LInfo | LWarning | LError.

Record World : Type := {
  cluster : kube.Cluster;
  (** injected transport failures: one entry is consumed by each API call,
      [Some e] makes the call fail with [e] before it reaches the store *)
  faults : list (option error);
  (** the requests made so far, each with the error it was answered with,
      oldest first *)
  requests : list (kube.Request * option error);
  buildLog : list (LogLevel * string);     (* s.BuildLogger *)
  trace : list string;                     (* chunks handed to s.Trace.Write *)
  traceFaults : list (option error)        (* what each Write returns *)
}.

(** The state monad. *)
Definition State (S A : Type) : Type := S -> A * S.

Definition ret {S A} (a : A) : State S A := fun st => (a, st).

Definition bind {S A B} (m : State S A) (k : A -> State S B) : State S B :=
  fun st => let (a, st') := m st in k a st'.

Declare Scope go_scope.
Delimit Scope go_scope with go.
Notation "x <- m ;; k" := (bind m (fun x => k))
  (at level 61, m at next level, right associativity) : go_scope.
Notation "m ;; k" := (bind m (fun _ => k))
  (at level 61, right associativity) : go_scope.
Notation "'ifErr' m 'return' f ;; k" :=
  (bind m (fun e => match e with Some err => ret (Some (f err)) | None => k end))
  (at level 61, m at next level, f at next level, right associativity) : go_scope.
Open Scope go_scope.

Definition newline : string := String (ascii_of_nat 10) "".

(** [fmt.Sprintf("%v", err)] *)
Definition fmt_v (err : option error) : string :=
  match err with
  | None => "<nil>"
  | Some e => Error e
  end.

Section Executor.

Context {PM : Type} `{Manager PM} `{Packages}.

Definition St : Type := (executor PM * World)%type.
Definition M (A : Type) : Type := State St A.

(** *** Field updates *)

Definition setPod (p : option api.Pod) (s : executor PM) : executor PM :=
  {| Build := Build s; Config := Config s; currentStage := currentStage s;
     ProxyPool := ProxyPool s; kubeClientClosed := kubeClientClosed s;
     pod := p; configMap := configMap s; credentials := credentials s;
     services := services s; pullManager := pullManager s;
     remoteProcessTerminated := remoteProcessTerminated s;
     receiving := receiving s |}.

Definition setConfigMap (c : option api.ConfigMap) (s : executor PM) : executor PM :=
  {| Build := Build s; Config := Config s; currentStage := currentStage s;
     ProxyPool := ProxyPool s; kubeClientClosed := kubeClientClosed s;
     pod := pod s; configMap := c; credentials := credentials s;
     services := services s; pullManager := pullManager s;
     remoteProcessTerminated := remoteProcessTerminated s;
     receiving := receiving s |}.

Definition setCredentials (c : option api.Secret) (s : executor PM) : executor PM :=
  {| Build := Build s; Config := Config s; currentStage := currentStage s;
     ProxyPool := ProxyPool s; kubeClientClosed := kubeClientClosed s;
     pod := pod s; configMap := configMap s; credentials := c;
     services := services s; pullManager := pullManager s;
     remoteProcessTerminated := remoteProcessTerminated s;
     receiving := receiving s |}.

Definition setServices (l : list api.Service) (s : executor PM) : executor PM :=
  {| Build := Build s; Config := Config s; currentStage := currentStage s;
     ProxyPool := ProxyPool s; kubeClientClosed := kubeClientClosed s;
     pod := pod s; configMap := configMap s; credentials := credentials s;
     services := l; pullManager := pullManager s;
     remoteProcessTerminated := remoteProcessTerminated s;
     receiving := receiving s |}.

Definition setPullManager (m : PM) (s : executor PM) : executor PM :=
  {| Build := Build s; Config := Config s; currentStage := currentStage s;
     ProxyPool := ProxyPool s; kubeClientClosed := kubeClientClosed s;
     pod := pod s; configMap := configMap s; credentials := credentials s;
     services := services s; pullManager := m;
     remoteProcessTerminated := remoteProcessTerminated s;
     receiving := receiving s |}.

Definition setProxyPool (l : list (string * proxy.Settings)) (s : executor PM) : executor PM :=
  {| Build := Build s; Config := Config s; currentStage := currentStage s;
     ProxyPool := l; kubeClientClosed := kubeClientClosed s;
     pod := pod s; configMap := configMap s; credentials := credentials s;
     services := services s; pullManager := pullManager s;
     remoteProcessTerminated := remoteProcessTerminated s;
     receiving := receiving s |}.

Definition setCurrentStage (c : common.ExecutorStage) (s : executor PM) : executor PM :=
  {| Build := Build s; Config := Config s; currentStage := c;
     ProxyPool := ProxyPool s; kubeClientClosed := kubeClientClosed s;
     pod := pod s; configMap := configMap s; credentials := credentials s;
     services := services s; pullManager := pullManager s;
     remoteProcessTerminated := remoteProcessTerminated s;
     receiving := receiving s |}.

Definition setKubeClientClosed (b : bool) (s : executor PM) : executor PM :=
  {| Build := Build s; Config := Config s; currentStage := currentStage s;
     ProxyPool := ProxyPool s; kubeClientClosed := b;
     pod := pod s; configMap := configMap s; credentials := credentials s;
     services := services s; pullManager := pullManager s;
     remoteProcessTerminated := remoteProcessTerminated s;
     receiving := receiving s |}.

Definition setRemoteProcessTerminated (q : list shells.TrapCommandExitStatus)
           (s : executor PM) : executor PM :=
  {| Build := Build s; Config := Config s; currentStage := currentStage s;
     ProxyPool := ProxyPool s; kubeClientClosed := kubeClientClosed s;
     pod := pod s; configMap := configMap s; credentials := credentials s;
     services := services s; pullManager := pullManager s;
     remoteProcessTerminated := q;
     receiving := receiving s |}.

Definition setReceiving (n : nat) (s : executor PM) : executor PM :=
  {| Build := Build s; Config := Config s; currentStage := currentStage s;
     ProxyPool := ProxyPool s; kubeClientClosed := kubeClientClosed s;
     pod := pod s; configMap := configMap s; credentials := credentials s;
     services := services s; pullManager := pullManager s;
     remoteProcessTerminated := remoteProcessTerminated s;
     receiving := n |}.

Definition setCluster (c : kube.Cluster) (w : World) : World :=
  {| cluster := c; faults := faults w; requests := requests w;
     buildLog := buildLog w; trace := trace w; traceFaults := traceFaults w |}.

(** *** Primitive effects *)

Definition getS : M (executor PM) := fun st => (fst st, st).
Definition getW : M World := fun st => (snd st, st).
Definition modifyS (f : executor PM -> executor PM) : M unit :=
  fun st => (tt, (f (fst st), snd st)).
Definition modifyW (f : World -> World) : M unit :=
  fun st => (tt, (fst st, f (snd st))).

Definition logln (lvl : LogLevel) (msg : string) : M unit :=
  modifyW (fun w =>
    {| cluster := cluster w; faults := faults w; requests := requests w;
       buildLog := buildLog w ++ [(lvl, msg)];
       trace := trace w; traceFaults := traceFaults w |}).

Definition Debugln : string -> M unit := logln LDebug.
Definition Println : string -> M unit := logln LInfo.
Definition Warningln : string -> M unit := logln LWarning.
Definition Errorln : string -> M unit := logln LError.

(** [s.Trace.Write(p)] *)
Definition Trace_Write (p : string) : M (option error) :=
  fun st =>
    let w := snd st in
    (match traceFaults w with e :: _ => e | [] => None end,
     (fst st,
      {| cluster := cluster w; faults := faults w; requests := requests w;
         buildLog := buildLog w; trace := trace w ++ [p];
         traceFaults := tl (traceFaults w) |})).

(** One round trip to the API server: one entry of the fault plan is
    consumed, and unless it injects a failure the store serves the request;
    the request is recorded with the error of the answer. Next to an error the typed client returns
    the zero object. *)
Definition apiCall {A} (req : kube.Request) (zero : A)
           (serve : kube.Cluster -> (A * kube.Cluster) + error) : M (A * option error) :=
  fun st =>
    let w := snd st in
    let answer :=
      match faults w with
      | Some e :: _ => (zero, Some e, cluster w)
      | _ => match serve (cluster w) with
             | inl (a, c) => (a, None, c)
             | inr e => (zero, Some e, cluster w)
             end
      end in
    (fst answer,
     (fst st,
      {| cluster := snd answer; faults := tl (faults w);
         requests := requests w ++ [(req, snd (fst answer))];
         buildLog := buildLog w; trace := trace w; traceFaults := traceFaults w |})).

Definition Pods_Create (ns : string) (p : api.Pod) : M (api.Pod * option error) :=
  apiCall (kube.CreatePod ns p) api.zeroPod (kube.createPod ns p).

Definition Pods_Get (ns name : string) : M (api.Pod * option error) :=
  apiCall (kube.GetPod ns name) api.zeroPod (kube.getPod ns name).

Definition Pods_Delete (ns name : string) (policy : option metav1.DeletionPropagation)
  : M (option error) :=
  r <- apiCall (kube.DeletePod ns name policy) tt (kube.deletePod ns name policy) ;;
  ret (snd r).

Definition Secrets_Create (ns : string) (x : api.Secret) : M (api.Secret * option error) :=
  apiCall (kube.CreateSecret ns x) api.zeroSecret (kube.createSecret ns x).

Definition Secrets_Update (ns : string) (x : api.Secret) : M (api.Secret * option error) :=
  apiCall (kube.UpdateSecret ns x) api.zeroSecret (kube.updateSecret ns x).

Definition Secrets_Delete (ns name : string) : M (option error) :=
  r <- apiCall (kube.DeleteSecret ns name) tt (kube.deleteSecret ns name) ;;
  ret (snd r).

Definition ConfigMaps_Create (ns : string) (x : api.ConfigMap) : M (api.ConfigMap * option error) :=
  apiCall (kube.CreateConfigMap ns x) api.zeroConfigMap (kube.createConfigMap ns x).

Definition ConfigMaps_Update (ns : string) (x : api.ConfigMap) : M (api.ConfigMap * option error) :=
  apiCall (kube.UpdateConfigMap ns x) api.zeroConfigMap (kube.updateConfigMap ns x).

Definition ConfigMaps_Delete (ns name : string) : M (option error) :=
  r <- apiCall (kube.DeleteConfigMap ns name) tt (kube.deleteConfigMap ns name) ;;
  ret (snd r).

Definition Services_Create (ns : string) (x : api.Service) : M (api.Service * option error) :=
  apiCall (kube.CreateService ns x) api.zeroService (kube.createService ns x).

(** *** Finish and Cleanup *)

(** var PropagationPolicy = metav1.DeletePropagationForeground *)
Definition PropagationPolicy : metav1.DeletionPropagation :=
  metav1.DeletePropagationForeground.

Definition len {A} (l : list A) : nat := List.length l.

(** func (s *executor) cleanupResources() *)
Definition cleanupResources : M unit :=
  s <- getS ;;
  match pod s with
  | Some p =>
      err <- Pods_Delete (metav1.Namespace (api.PodMeta p)) (metav1.Name (api.PodMeta p))
                         (Some PropagationPolicy) ;;
      match err with
      | Some e => Errorln ("Error cleaning up pod: " ++ Error e)
      | None => ret tt
      end
  | None => ret tt
  end ;;
  match credentials s with
  | Some c =>
      if Nat.eqb (len (metav1.OwnerReferences (api.SecretMeta c))) 0 then
        err <- Secrets_Delete (namespace (Config s)) (metav1.Name (api.SecretMeta c)) ;;
        match err with
        | Some e => Errorln ("Error cleaning up secrets: " ++ Error e)
        | None => ret tt
        end
      else ret tt
  | None => ret tt
  end ;;
  match configMap s with
  | Some c =>
      if Nat.eqb (len (metav1.OwnerReferences (api.ConfigMapMeta c))) 0 then
        err <- ConfigMaps_Delete (namespace (Config s)) (metav1.Name (api.ConfigMapMeta c)) ;;
        match err with
        | Some e => Errorln ("Error cleaning up configmap: " ++ Error e)
        | None => ret tt
        end
      else ret tt
  | None => ret tt
  end.

(** func (e *AbstractExecutor) Finish(err error) *)
Definition AbstractExecutor_Finish (err : option error) : M unit :=
  modifyS (setCurrentStage common.ExecutorStageFinish).

(** func (e *AbstractExecutor) Cleanup() *)
Definition AbstractExecutor_Cleanup : M unit :=
  modifyS (setCurrentStage common.ExecutorStageCleanup).

(** closeKubeClient(s.kubeClient) *)
Definition closeKubeClient : M unit := modifyS (setKubeClientClosed true).

(** func (s *executor) Finish(err error) *)
Definition Finish (err : option error) : M unit :=
  (if IsKubernetesPodNotFoundError err
   then modifyS (setPod None)
   else ret tt) ;;
  AbstractExecutor_Finish err.

(** func (s *executor) Cleanup() *)
Definition Cleanup : M unit :=
  cleanupResources ;;
  closeKubeClient ;;
  AbstractExecutor_Cleanup.

(** *** The log demultiplexer *)

(** What the select of [processLogs] receives. *)
Inductive LogEvent : Type :=
| LogsLine (line : string)          (* line, ok := <-logsCh, ok *)
| LogsClosed                        (* logsCh is closed *)
| ErrsError (err : option error)    (* err, ok := <-errCh, ok *)
| ErrsClosed.                       (* errCh is closed *)

(** s.remoteProcessTerminated <- status *)
Definition send (status : shells.TrapCommandExitStatus) : M unit :=
  modifyS (fun s => setRemoteProcessTerminated (remoteProcessTerminated s ++ [status]) s).

(** func (s *executor) processLogs(ctx context.Context): the loop, over
    the events its select receives; an end of the list leaves the
    goroutine waiting in the select. *)
Fixpoint processLogs (events : list LogEvent) : M unit :=
  match events with
  | [] => ret tt
  | LogsClosed :: _ => ret tt
  | LogsLine line :: rest =>
      match TryUnmarshal line with
      | Some status =>
          send status ;;
          processLogs rest
      | None =>
          err <- Trace_Write (line ++ newline) ;;
          match err with
          | Some e => Warningln ("Error writing log line to trace: " ++ Error e)
          | None => ret tt
          end ;;
          processLogs rest
      end
  | ErrsClosed :: rest => processLogs rest
  | ErrsError err :: rest =>
      let exitCode := getExitCode err in
      Warningln (fmt_v err) ;;
      send {| shells.CommandExitCode := Some exitCode; shells.Script := None |} ;;
      processLogs rest
  end.

(** *** Paths and names *)

Definition buildContainerName : string := "build".
Definition helperContainerName : string := "helper".
Definition detectShellScriptName : string := "detect_shell_script".
Definition parsePwshScriptName : string := "parse_pwsh_script.ps1".
Definition apiVersion : string := "v1".
Definition ownerReferenceKind : string := "Pod".
Definition errIncorrectShellType : error :=
  errorString "kubernetes executor incorrect shell type".

(** A Go map written through [m[k] = v], as an association list. *)
Fixpoint mapSet {V} (k : string) (v : V) (m : list (string * V)) : list (string * V) :=
  match m with
  | [] => [(k, v)]
  | (k', v') :: rest =>
      if String.eqb k' k then (k, v) :: rest else (k', v') :: mapSet k v rest
  end.

Definition logsDir (s : executor PM) : string :=
  "/logs-" ++ Z_String (ProjectID (Build s)) ++ "-" ++ Z_String (JobID (Build s)).

Definition logFile (s : executor PM) : string := logsDir s ++ "/output.log".

Definition scriptsDir (s : executor PM) : string :=
  "/scripts-" ++ Z_String (ProjectID (Build s)) ++ "-" ++ Z_String (JobID (Build s)).

Definition scriptPath (s : executor PM) (stage : string) : string :=
  scriptsDir s ++ "/" ++ stage.

Definition buildRedirectionCmd (s : executor PM) : string :=
  "2>&1 | tee -a " ++ logFile s.

(** func (s *executor) getHelperImage() string *)
Definition getHelperImage : M string :=
  s <- getS ;;
  if negb (Nat.eqb (String.length (HelperImage (Config s))) 0)
  then ret (HelperImage (Config s))
  else
    (if negb (GitLabRegistryHelperImage (Config s))
     then Warningln helperimage.DockerHubWarningMessage
     else ret tt) ;;
    ret (HelperImageString (Config s)).

(** [s.pullManager.GetPullPolicyFor(image)] *)
Definition pullPolicyFor (image : string) : M (string * option error) :=
  s <- getS ;;
  let r := GetPullPolicyFor image (pullManager s) in
  modifyS (setPullManager (snd r)) ;;
  ret (fst r).

(** *** Credentials and scripts *)

Definition dockercfg (auths : list (string * string)) : string :=
  "{" ++ String.concat "," (map (fun a => quote (fst a) ++ ":" ++ snd a) auths) ++ "}".

(** func (s *executor) setupCredentials() error *)
Definition setupCredentials : M (option error) :=
  Debugln "Setting up secrets" ;;
  s <- getS ;;
  match DockerAuth (Build s) with
  | inr err => ret (Some err)
  | inl authConfigs =>
      if Nat.eqb (len authConfigs) 0 then ret None
      else
        let secret :=
          {| api.SecretMeta :=
               {| metav1.Name := ""; metav1.GenerateName := ProjectUniqueName (Build s);
                  metav1.Namespace := namespace (Config s); metav1.UID := "";
                  metav1.Labels := []; metav1.Annotations := [];
                  metav1.OwnerReferences := [] |};
             api.SecretType := api.SecretTypeDockercfg;
             api.SecretData := [(api.DockerConfigKey, dockercfg authConfigs)] |} in
        r <- Secrets_Create (namespace (Config s)) secret ;;
        match snd r with
        | Some err => ret (Some err)
        | None =>
            modifyS (setCredentials (Some (fst r))) ;;
            ret None
        end
  end.

(** func (s *executor) retrieveShell() (common.Shell, error): only whether
    a trap shell exists for the configured shell matters below. *)
Definition retrieveShell (s : executor PM) : option error :=
  match Shell (Config s) with
  | shells.SNBash | shells.SNSh => None
  | shells.SNPwsh | shells.SNPowershell => None
  | shells.SNOther _ => Some errIncorrectShellType
  end.

Fixpoint generateStageScripts (stages : list (string * common.GeneratedScript))
         (scripts : list (string * string)) : list (string * string) * option error :=
  match stages with
  | [] => (scripts, None)
  | (stage, common.Generated script) :: rest =>
      generateStageScripts rest (mapSet stage script scripts)
  | (_, common.ErrSkipBuildStage) :: rest => generateStageScripts rest scripts
  | (_, common.GenerateFailed err) :: _ =>
      ([], Some (wrapError "generating trap shell script" err))
  end.

(** func (s *executor) generateScripts(shell common.Shell) (map[string]string, error) *)
Definition generateScripts (s : executor PM) : list (string * string) * option error :=
  let shellName := Shell (Config s) in
  let scripts :=
    match shellName with
    | shells.SNPwsh | shells.SNPowershell =>
        [(parsePwshScriptName, shells.PwshValidationScript shellName)]
    | _ => [(detectShellScriptName, shells.BashDetectShellScript)]
    end in
  generateStageScripts (BuildStages (Build s)) scripts.

(** func (s *executor) setupScriptsConfigMap() error *)
Definition setupScriptsConfigMap : M (option error) :=
  Debugln "Setting up scripts config map" ;;
  s <- getS ;;
  match retrieveShell s with
  | Some err => ret (Some err)
  | None =>
      match generateScripts s with
      | (_, Some err) => ret (Some err)
      | (scripts, None) =>
          let configMap :=
            {| api.ConfigMapMeta :=
                 {| metav1.Name := "";
                    metav1.GenerateName := ProjectUniqueName (Build s) ++ "-scripts";
                    metav1.Namespace := namespace (Config s); metav1.UID := "";
                    metav1.Labels := []; metav1.Annotations := [];
                    metav1.OwnerReferences := [] |};
               api.Data := scripts |} in
          r <- ConfigMaps_Create (namespace (Config s)) configMap ;;
          modifyS (setConfigMap (Some (fst r))) ;;
          match snd r with
          | Some err => ret (Some (wrapError "generating scripts config map" err))
          | None => ret None
          end
      end
  end.

(** *** Containers *)

(** func (s *executor) buildPermissionsInitContainer(os string) (api.Container, error) *)
Definition buildPermissionsInitContainer (os : string) : M (api.Container * option error) :=
  image <- getHelperImage ;;
  r <- pullPolicyFor image ;;
  match snd r with
  | Some err =>
      ret (api.emptyContainer,
           Some (wrapError "getting pull policy for permissions init container" err))
  | None =>
      image' <- getHelperImage ;;
      s <- getS ;;
      let command :=
        if String.eqb os helperimage.OSTypeWindows then
          let chmod (dir : string) :=
            "icacls $ExecutionContext.SessionState.Path.GetUnresolvedProviderPathFromPSPath("
              ++ quote dir ++ ") /grant 'Everyone:(OI)(CI)F' /t /q | out-null" in
          ["pwsh"; "-c";
           String.concat (";" ++ newline) [chmod (logsDir s); chmod (RootDir (Config s))]]
        else
          ["sh"; "-c";
           "touch " ++ logFile s ++ " && (chmod 777 " ++ logFile s ++ " || exit 0)"] in
      ret ({| api.Name := "init-permissions"; api.Image := image';
              api.ImagePullPolicy := fst r; api.Command := command;
              api.Args := []; api.Ports := []; api.Stdin := false |}, None)
  end.

(** func (s *executor) getCommandAndArgs(imageDefinition common.Image, command ...string) *)
Definition getCommandAndArgs (imageDefinition : common.Image) (command : list string)
  : list string * list string :=
  let command :=
    if Nat.eqb (len command) 0 && negb (Nat.eqb (len (common.Entrypoint imageDefinition)) 0)
    then common.Entrypoint imageDefinition
    else command in
  let args :=
    if negb (Nat.eqb (len (common.Command imageDefinition)) 0)
    then common.Command imageDefinition
    else [] in
  (command, args).

(** func (s *executor) buildContainer(name, image string, imageDefinition
    common.Image, requests, limits api.ResourceList, containerCommand ...string) *)
Definition buildContainer (name image : string) (imageDefinition : common.Image)
           (containerCommand : list string) : M (api.Container * option error) :=
  s <- getS ;;
  let internalImages := [KubernetesImage (Config s); HelperImageName (Config s)] in
  let '(optionName, allowedImages) :=
    if String.prefix "svc-" name then ("services", AllowedServices (Config s))
    else if String.eqb name buildContainerName then ("images", AllowedImages (Config s))
    else ("", []) in
  match VerifyAllowedImage
          {| common.VImage := image; common.OptionName := optionName;
             common.AllowedImages := allowedImages;
             common.InternalImages := internalImages |} with
  | Some err => ret (api.emptyContainer, Some err)
  | None =>
      let proxyPorts :=
        map (fun port => {| proxy.Name := common.PortName port;
                            proxy.Number := common.Number port;
                            proxy.Protocol := common.Protocol port |})
            (common.Ports imageDefinition) in
      let containerPorts := map common.Number (common.Ports imageDefinition) in
      (if negb (Nat.eqb (len proxyPorts) 0) then
         let serviceName :=
           if String.eqb (common.Alias imageDefinition) "" then
             if negb (String.eqb name buildContainerName) then "proxy-" ++ name else name
           else common.Alias imageDefinition in
         modifyS (fun s =>
           setProxyPool
             (mapSet serviceName
                     {| proxy.ServiceName := serviceName; proxy.Ports := proxyPorts |}
                     (ProxyPool s)) s)
       else ret tt) ;;
      r <- pullPolicyFor image ;;
      match snd r with
      | Some err => ret (api.emptyContainer, Some err)
      | None =>
          let (command, args) := getCommandAndArgs imageDefinition containerCommand in
          ret ({| api.Name := name; api.Image := image; api.ImagePullPolicy := fst r;
                  api.Command := command; api.Args := args;
                  api.Ports := containerPorts; api.Stdin := true |}, None)
      end
  end.

(** *** The pod *)

(** func (s *executor) preparePodConfig(labels, annotations, services,
    imagePullSecrets, hostAliases, initContainers) (api.Pod, error) *)
Definition preparePodConfig (labels annotations : list (string * string))
           (services : list api.Container) (imagePullSecrets hostAliases : list string)
           (initContainers : list api.Container) : M (api.Pod * option error) :=
  s <- getS ;;
  b <- buildContainer buildContainerName (common.Name (Image (Build s))) (Image (Build s))
                      (DockerCommand (Config s)) ;;
  match snd b with
  | Some err => ret (api.zeroPod, Some (wrapError "building build container" err))
  | None =>
      helperImage <- getHelperImage ;;
      h <- buildContainer helperContainerName helperImage common.emptyImage
                          (DockerCommand (Config s)) ;;
      match snd h with
      | Some err => ret (api.zeroPod, Some (wrapError "building helper container" err))
      | None =>
          ret ({| api.PodMeta :=
                    {| metav1.Name := "";
                       metav1.GenerateName := ProjectUniqueName (Build s);
                       metav1.Namespace := namespace (Config s);
                       metav1.UID := "";
                       metav1.Labels := labels;
                       metav1.Annotations := annotations;
                       metav1.OwnerReferences := [] |};
                  api.Spec :=
                    {| api.ServiceAccountName := serviceAccount (Config s);
                       api.RestartPolicy_ := api.RestartPolicyNever;
                       api.InitContainers := initContainers;
                       api.Containers := [fst b; fst h] ++ services;
                       api.ImagePullSecrets := imagePullSecrets;
                       api.HostAliases := hostAliases |};
                  api.Phase := PodPending |}, None)
      end
  end.

Fixpoint applyPatches (patches : list PodSpecPatch) (patchedData : api.PodSpec)
  : api.PodSpec * option error :=
  match patches with
  | [] => (patchedData, None)
  | spec :: rest =>
      match PatchToJSON spec with
      | inr err => (api.emptyPodSpec, Some err)
      | inl patch =>
          match GetPatchType spec with
          | common.PatchTypeOther name =>
              (api.emptyPodSpec, Some (errorString ("unsupported patch type " ++ name)))
          | _ =>
              match patch patchedData with
              | inr err => (api.emptyPodSpec, Some err)
              | inl data => applyPatches rest data
              end
          end
      end
  end.

(** func (s *executor) applyPodSpecMerge(podSpec *api.PodSpec) (api.PodSpec, error):
    the spec is serialised, patched in order and read back. *)
Definition applyPodSpecMerge (s : executor PM) (podSpec : api.PodSpec)
  : api.PodSpec * option error :=
  applyPatches (PodSpec (Config s)) podSpec.

(** func (s *executor) buildPodReferences() []metav1.OwnerReference *)
Definition buildPodReferences (p : api.Pod) : list metav1.OwnerReference :=
  [ {| metav1.APIVersion := apiVersion;
       metav1.Kind := ownerReferenceKind;
       metav1.RefName := metav1.Name (api.PodMeta p);
       metav1.RefUID := metav1.UID (api.PodMeta p) |} ].

(** func (s *executor) setOwnerReferencesForResources(ownerReferences) error *)
Definition setOwnerReferencesForResources (ownerReferences : list metav1.OwnerReference)
  : M (option error) :=
  s <- getS ;;
  ifErr
    match credentials s with
    | Some c =>
        let credentials :=
          api.withSecretMeta
            (metav1.SetOwnerReferences ownerReferences (api.SecretMeta c)) c in
        r <- Secrets_Update (namespace (Config s)) credentials ;;
        modifyS (setCredentials (Some (fst r))) ;;
        ret (snd r)
    | None => ret None
    end
  return (fun err => err) ;;
  ifErr
    match configMap s with
    | Some c =>
        let configMap :=
          api.withConfigMapMeta
            (metav1.SetOwnerReferences ownerReferences (api.ConfigMapMeta c)) c in
        r <- ConfigMaps_Update (namespace (Config s)) configMap ;;
        modifyS (setConfigMap (Some (fst r))) ;;
        ret (snd r)
    | None => ret None
    end
  return (fun err => err) ;;
  ret None.

(** func (s *executor) prepareServiceConfig(name, ports, ownerReferences) api.Service *)
Definition prepareServiceConfig (s : executor PM) (name : string)
           (ports : list api.ServicePort)
           (ownerReferences : list metav1.OwnerReference) : api.Service :=
  {| api.ServiceMeta :=
       {| metav1.Name := ""; metav1.GenerateName := name;
          metav1.Namespace := namespace (Config s); metav1.UID := "";
          metav1.Labels := []; metav1.Annotations := [];
          metav1.OwnerReferences := ownerReferences |};
     api.ServicePorts := ports;
     api.Selector := [("pod", ProjectUniqueName (Build s))];
     api.ServiceType := api.ServiceTypeClusterIP |}.

(** func (s *executor) createKubernetesService(service, proxySettings, ch, wg):
    [key] names the pool entry whose settings the goroutine holds. *)
Definition createKubernetesService (p : api.Pod) (service : api.Service) (key : string)
  : M (api.Service * option error) :=
  r <- Services_Create (metav1.Namespace (api.PodMeta p)) service ;;
  match snd r with
  | None =>
      modifyS (fun s =>
        setProxyPool
          (map (fun e =>
                  if String.eqb (fst e) key
                  then (fst e, {| proxy.ServiceName := metav1.Name (api.ServiceMeta (fst r));
                                  proxy.Ports := proxy.Ports (snd e) |})
                  else e)
               (ProxyPool s)) s)
  | Some _ => ret tt
  end ;;
  ret r.

Fixpoint createServices (p : api.Pod) (ownerReferences : list metav1.OwnerReference)
         (pool : list (string * proxy.Settings)) : M (list (api.Service * option error)) :=
  match pool with
  | [] => ret []
  | (key, settings) :: rest =>
      s <- getS ;;
      let serviceName := MakeRFC1123Compatible key in
      let servicePorts :=
        map (fun port =>
               {| api.PortName := serviceName ++ "-" ++ Z_String (proxy.Number port);
                  api.Port := proxy.Number port;
                  api.TargetPort := proxy.Number port |})
            (proxy.Ports settings) in
      let serviceConfig := prepareServiceConfig s serviceName servicePorts ownerReferences in
      r <- createKubernetesService p serviceConfig key ;;
      rs <- createServices p ownerReferences rest ;;
      ret (r :: rs)
  end.

Fixpoint gatherServices (responses : list (api.Service * option error))
         (proxyServices : list api.Service) : M (list api.Service * option error) :=
  match responses with
  | [] => ret (proxyServices, None)
  | (service, Some e) :: _ =>
      let err :=
        wrapError ("error creating the proxy service "
                     ++ quote (metav1.Name (api.ServiceMeta service))) e in
      Errorln (Error err) ;;
      ret ([], Some err)
  | (service, None) :: rest => gatherServices rest (proxyServices ++ [service])
  end.

(** func (s *executor) makePodProxyServices(ownerReferences) ([]api.Service, error):
    one goroutine per pool entry issues its create; the responses are
    gathered in the order of the entries, and the first failure is returned
    while the other creations still take place. *)
Definition makePodProxyServices (p : api.Pod) (ownerReferences : list metav1.OwnerReference)
  : M (list api.Service * option error) :=
  Debugln "Creating pod proxy services" ;;
  s <- getS ;;
  responses <- createServices p ownerReferences (ProxyPool s) ;;
  gatherServices responses [].

(** func (s *executor) getHostAliases() ([]api.HostAlias, error) *)
Definition getHostAliases : M (list string * option error) :=
  s <- getS ;;
  match IsHostAliasSupported (Config s) with
  | HostAliasBadVersion err =>
      Warningln ("Checking for host alias support. Host aliases will be disabled. "
                   ++ Error err) ;;
      ret ([], None)
  | HostAliasCheckFailed err => ret ([], Some err)
  | HostAliasSupported false => ret ([], None)
  | HostAliasSupported true =>
      match createHostAliases (Config s) with
      | inl aliases => ret (aliases, None)
      | inr err => ret ([], Some err)
      end
  end.

Fixpoint buildServices (i : nat) (svcs : list common.Image)
  : M (list api.Container * option error) :=
  match svcs with
  | [] => ret ([], None)
  | service :: rest =>
      c <- buildContainer ("svc-" ++ nat_String i) (common.Name service) service [] ;;
      match snd c with
      | Some err => ret ([], Some err)
      | None =>
          cs <- buildServices (S i) rest ;;
          match snd cs with
          | Some err => ret ([], Some err)
          | None => ret (fst c :: fst cs, None)
          end
      end
  end.

(** func (s *executor) setupBuildPod(initContainers []api.Container) error *)
Definition setupBuildPod (initContainers : list api.Container) : M (option error) :=
  Debugln "Setting up build pod" ;;
  s <- getS ;;
  podServices <- buildServices 0 (Services (Build s)) ;;
  match snd podServices with
  | Some err => ret (Some err)
  | None =>
      let labels :=
        fold_left (fun m kv => mapSet (fst kv) (snd kv) m) (PodLabels (Config s))
                  [("pod", ProjectUniqueName (Build s))] in
      let annotations :=
        fold_left (fun m kv => mapSet (fst kv) (snd kv) m) (podAnnotations (Config s)) [] in
      s <- getS ;;
      let imagePullSecrets :=
        (ImagePullSecrets (Config s) ++
         match credentials s with
         | Some c => [metav1.Name (api.SecretMeta c)]
         | None => []
         end)%list in
      hostAliases <- getHostAliases ;;
      match snd hostAliases with
      | Some err => ret (Some err)
      | None =>
          podConfig <- preparePodConfig labels annotations (fst podServices)
                                        imagePullSecrets (fst hostAliases) initContainers ;;
          match snd podConfig with
          | Some err => ret (Some err)
          | None =>
              match applyPodSpecMerge s (api.Spec (fst podConfig)) with
              | (_, Some err) => ret (Some err)
              | (spec, None) =>
                  let podConfig :=
                    {| api.PodMeta := api.PodMeta (fst podConfig);
                       api.Spec := spec;
                       api.Phase := api.Phase (fst podConfig) |} in
                  Debugln "Creating build pod" ;;
                  created <- Pods_Create (namespace (Config s)) podConfig ;;
                  match snd created with
                  | Some err => ret (Some err)
                  | None =>
                      let pod := fst created in
                      modifyS (setPod (Some pod)) ;;
                      let ownerReferences := buildPodReferences pod in
                      ifErr setOwnerReferencesForResources ownerReferences
                      return (wrapError "error setting ownerReferences") ;;
                      proxied <- makePodProxyServices pod ownerReferences ;;
                      modifyS (setServices (fst proxied)) ;;
                      match snd proxied with
                      | Some err => ret (Some err)
                      | None => ret None
                      end
                  end
              end
          end
      end
  end.

(** *** Stages *)

(** What a function that waits on channels comes to: it returns an error
    value, or it is still waiting when the described environment ends, or
    a goroutine dereferenced nil. *)
Inductive Outcome : Type :=
| Returned (err : option error)
| Blocked
| Panicked.

(** The order in which things happen while [runWithAttach] (or
    [runWithExecLegacy]) sits in its select. *)
Inductive SelectEvent : Type :=
| Tick                  (* the ticker of watchPodStatus fires *)
| Cancel                (* the context of the command is cancelled *)
| WatcherExit           (* the watcher sees ctx.Done() and closes its channel *)
| SelectContainer       (* the select takes the stage driver's channel *)
| SelectPodStatus       (* the select takes podStatusCh *)
| SelectDone            (* the select takes ctx.Done() *)
| External (a : kube.ExternalAction).

(** The environment of one pass through a stage. *)
Record StageEnv : Type := {
  waitForPodRunning : PodPhase * option error;   (* what waitForPodRunning returns *)
  logEvents : list LogEvent;                     (* what the log processor delivers *)
  remote : option error;                         (* what retryable.Run() returns *)
  schedule : list SelectEvent
}.

(** func (s *executor) getContainerInfo(cmd common.ExecutorCommand) (string, []string) *)
Definition getContainerInfo (s : executor PM) (cmd : common.ExecutorCommand)
  : string * list string :=
  match Shell (Config s) with
  | shells.SNPwsh | shells.SNPowershell =>
      if common.Predefined cmd then
        (helperContainerName,
         app ["Get-Content -Path " ++ scriptPath s (common.Stage cmd) ++ " | "]
             (app (HelperCmd (Config s)) [buildRedirectionCmd s]))
      else
        (buildContainerName,
         [scriptPath s parsePwshScriptName; scriptPath s (common.Stage cmd);
          buildRedirectionCmd s])
  | _ =>
      if common.Predefined cmd then
        (helperContainerName,
         app (HelperCmd (Config s))
             ["<<<"; scriptPath s (common.Stage cmd); buildRedirectionCmd s])
      else
        (buildContainerName,
         ["sh"; scriptPath s detectShellScriptName; scriptPath s (common.Stage cmd);
          buildRedirectionCmd s])
  end.

(** Modelled from the spec: [waitForPodRunning(ctx, s.kubeClient, s.pod,
    s.Trace, s.Config.Kubernetes)] is not part of the sources at hand. The
    readiness watcher polls the phase of the pod and reports the phase it
    has come to, Running or one that ends the wait, or an error. The
    environment gives what it returns; a phase it returns is the phase the
    pod then has in the cluster. Its polls are not recorded among the
    requests. *)
Definition awaitPodRunning (env : StageEnv) : M (PodPhase * option error) :=
  s <- getS ;;
  match pod s, snd (waitForPodRunning env) with
  | Some p, None =>
      modifyW (fun w =>
        setCluster (kube.act (kube.SetPodPhase (metav1.Namespace (api.PodMeta p))
                                               (metav1.Name (api.PodMeta p))
                                               (fst (waitForPodRunning env)))
                             (cluster w)) w) ;;
      ret (waitForPodRunning env)
  | _, _ => ret (waitForPodRunning env)
  end.

(** func (s *executor) ensurePodsConfigured(ctx context.Context) error.
    The goroutine started by [go s.processLogs(ctx)] is represented by the
    events it handles, see [runWithAttach]. *)
Definition ensurePodsConfigured (env : StageEnv) : M (option error) :=
  s <- getS ;;
  match pod s with
  | Some _ => ret None
  | None =>
      ifErr setupCredentials return (wrapError "setting up credentials") ;;
      ifErr setupScriptsConfigMap return (wrapError "setting up scripts configMap") ;;
      permissionsInitContainer <- buildPermissionsInitContainer (HelperOSType (Config s)) ;;
      match snd permissionsInitContainer with
      | Some err => ret (Some (wrapError "building permissions init container" err))
      | None =>
          ifErr setupBuildPod [fst permissionsInitContainer]
          return (wrapError "setting up build pod") ;;
          answer <- awaitPodRunning env ;;
          let (status, err) := answer in
          match err with
          | Some err => ret (Some (wrapError "waiting for pod running" err))
          | None =>
              if negb (PodPhase_eqb status PodRunning)
              then ret (Some (errorString ("pod failed to enter running state: "
                                             ++ PodPhase_String status)))
              else ret None
          end
      end
  end.

(** func (s *executor) checkPodStatus() error, for the pod [s.pod] points to. *)
Definition checkPodStatus (p : api.Pod) : M (option error) :=
  r <- Pods_Get (metav1.Namespace (api.PodMeta p)) (metav1.Name (api.PodMeta p)) ;;
  if IsKubernetesPodNotFoundError (snd r) then ret (snd r)
  else
    match snd r with
    | Some err =>
        Warningln ("Getting job pod status " ++ Error err) ;;
        ret None
    | None =>
        if negb (PodPhase_eqb (api.Phase (fst r)) PodRunning)
        then ret (Some (podPhaseError (metav1.Name (api.PodMeta p)) (api.Phase (fst r))))
        else ret None
    end.

(** A status whose [CommandExitCode] is nil. *)
Definition nilExitCode (status : shells.TrapCommandExitStatus) : bool :=
  match shells.CommandExitCode status with
  | None => true
  | Some _ => false
  end.

(** func (s *executor) runInContainer(name string, command []string) <-chan error.
    The goroutine runs the attach, sends its error if there is one and,
    without returning, receives from [s.remoteProcessTerminated], then sends
    what the exit code says. The executor has one such channel for all its
    stages, and it has no buffer: the goroutines that earlier stages left in
    the receive take the statuses first, in the order of their arrival, and
    what they then send reaches nobody. The result lists the values the
    goroutine of this stage sends on its channel, in order; when no status
    is left for it, it stays in the receive. [None]: a status that is
    received has a nil [CommandExitCode]. *)
Definition runInContainer (attachErr : option error) : M (option (list (option error))) :=
  let sent :=
    match attachErr with
    | Some err => [Some err]
    | None => []
    end in
  s <- getS ;;
  let earlier := firstn (receiving s) (remoteProcessTerminated s) in
  let pending := skipn (receiving s) (remoteProcessTerminated s) in
  let left := receiving s - len earlier in
  if existsb nilExitCode earlier then
    modifyS (fun s => setReceiving left (setRemoteProcessTerminated pending s)) ;;
    ret None
  else
    match pending with
    | [] =>
        modifyS (fun s => setReceiving (S left) (setRemoteProcessTerminated [] s)) ;;
        ret (Some sent)
    | exitStatus :: rest =>
        modifyS (fun s => setReceiving left (setRemoteProcessTerminated rest s)) ;;
        match shells.CommandExitCode exitStatus with
        | None => ret None
        | Some code =>
            if (code =? 0)%Z then ret (Some (sent ++ [None])%list)
            else ret (Some (sent ++ [Some (commandTerminatedError code)])%list)
        end
    end.

(** The channel returned by [watchPodStatus]. *)
Inductive PodStatusCh : Type :=
| Watching                    (* the watcher is in its loop, nothing sent *)
| Delivered (err : error)     (* the watcher sent [err] and closed the channel *)
| Closed.                     (* closed on ctx.Done(), nothing sent *)

(** The select of [runWithAttach], with the watcher beside it. An event
    that cannot take place in the current state is skipped. *)
Fixpoint selectAttach (p : api.Pod) (containerName : string)
         (errCh : list (option error)) (podStatusCh : PodStatusCh) (cancelled : bool)
         (schedule : list SelectEvent) : M Outcome :=
  match schedule with
  | [] => ret Blocked
  | ev :: rest =>
      let continue w c := selectAttach p containerName errCh w c rest in
      match ev with
      | External a =>
          modifyW (fun w => setCluster (kube.act a (cluster w)) w) ;;
          continue podStatusCh cancelled
      | Cancel => continue podStatusCh true
      | WatcherExit =>
          match podStatusCh with
          | Watching => if cancelled then continue Closed cancelled
                        else continue podStatusCh cancelled
          | _ => continue podStatusCh cancelled
          end
      | Tick =>
          match podStatusCh with
          | Watching =>
              err <- checkPodStatus p ;;
              match err with
              | Some e => continue (Delivered e) cancelled
              | None => continue Watching cancelled
              end
          | _ => continue podStatusCh cancelled
          end
      | SelectContainer =>
          match errCh with
          | [] => continue podStatusCh cancelled
          | err :: _ =>
              Debugln ("Container " ++ quote containerName ++ " exited with error: "
                         ++ fmt_v err) ;;
              match errors_As isCommandTerminatedError err with
              | Some (commandTerminatedError exitCode) =>
                  ret (Returned (Some (BuildError err exitCode)))
              | _ => ret (Returned err)
              end
          end
      | SelectPodStatus =>
          let received (err : option error) :=
            if IsKubernetesPodNotFoundError err then ret (Returned err)
            else ret (Returned (Some (BuildError err 0))) in
          match podStatusCh with
          | Watching => continue podStatusCh cancelled
          | Delivered e => received (Some e)
          | Closed => received None
          end
      | SelectDone =>
          if cancelled then ret (Returned (Some (errorString "build aborted")))
          else continue podStatusCh cancelled
      end
  end.

Definition startingIn (containerName : string) (containerCommand : list string)
           (script : string) : string :=
  "Starting in container " ++ quote containerName ++ " the command "
    ++ quote (String.concat " " containerCommand) ++ " with script: " ++ script.

(** func (s *executor) runWithAttach(cmd common.ExecutorCommand) error *)
Definition runWithAttach (cmd : common.ExecutorCommand) (env : StageEnv) : M Outcome :=
  err <- ensurePodsConfigured env ;;
  match err with
  | Some e => ret (Returned (Some e))
  | None =>
      s <- getS ;;
      let (containerName, containerCommand) := getContainerInfo s cmd in
      Debugln (startingIn containerName containerCommand (common.Script cmd)) ;;
      processLogs (logEvents env) ;;
      match pod s with
      | None => ret Panicked
      | Some p =>
          errCh <- runInContainer (remote env) ;;
          match errCh with
          | None => ret Panicked
          | Some errCh => selectAttach p containerName errCh Watching false (schedule env)
          end
      end
  end.

(** func (s *executor) runInContainerWithExecLegacy(ctx, name, command, script) <-chan error:
    the one value the goroutine sends. *)
Definition runInContainerWithExecLegacy (env : StageEnv) : M (option error) :=
  answer <- awaitPodRunning env ;;
  let (status, err) := answer in
  match err with
  | Some err => ret (Some err)
  | None =>
      if negb (PodPhase_eqb status PodRunning)
      then ret (Some (errorString ("pod failed to enter running state: "
                                     ++ PodPhase_String status)))
      else ret (remote env)
  end.

(** The select of [runWithExecLegacy]. *)
Fixpoint selectExecLegacy (containerName : string) (err : option error) (cancelled : bool)
         (schedule : list SelectEvent) : M Outcome :=
  match schedule with
  | [] => ret Blocked
  | ev :: rest =>
      match ev with
      | External a =>
          modifyW (fun w => setCluster (kube.act a (cluster w)) w) ;;
          selectExecLegacy containerName err cancelled rest
      | Cancel => selectExecLegacy containerName err true rest
      | SelectContainer =>
          Debugln ("Container " ++ quote containerName ++ " exited with error: "
                     ++ fmt_v err) ;;
          match errors_As isCodeExitError err with
          | Some (CodeExitError _ Code) => ret (Returned (Some (BuildError err Code)))
          | _ => ret (Returned err)
          end
      | SelectDone =>
          if cancelled then ret (Returned (Some (errorString "build aborted")))
          else selectExecLegacy containerName err cancelled rest
      | _ => selectExecLegacy containerName err cancelled rest
      end
  end.

(** func (s *executor) runWithExecLegacy(cmd common.ExecutorCommand) error *)
Definition runWithExecLegacy (cmd : common.ExecutorCommand) (env : StageEnv) : M Outcome :=
  s <- getS ;;
  setup <-
    match pod s with
    | Some _ => ret None
    | None =>
        ifErr setupCredentials return (fun err => err) ;;
        ifErr setupBuildPod [] return (fun err => err) ;;
        ret None
    end ;;
  match setup with
  | Some err => ret (Returned (Some err))
  | None =>
      s <- getS ;;
      let (containerName, containerCommand) :=
        if common.Predefined cmd
        then (helperContainerName, HelperCmd (Config s))
        else (buildContainerName, DockerCommand (Config s)) in
      Debugln (startingIn containerName containerCommand (common.Script cmd)) ;;
      match pod s with
      | None => ret Panicked
      | Some _ =>
          errCh <- runInContainerWithExecLegacy env ;;
          selectExecLegacy containerName errCh false (schedule env)
      end
  end.

(** [s.pullManager.UpdatePolicyForImage(attempt, imagePullErr)] *)
Definition updatePolicyForImage (attempt : nat) (imagePullErr : error) : M bool :=
  s <- getS ;;
  let r := UpdatePolicyForImage attempt imagePullErr (pullManager s) in
  modifyS (setPullManager (snd r)) ;;
  ret (fst r).

(** The first statement of the loop body of [Run]: the stage is run with
    the strategy the feature flag selects. *)
Definition runStage (cmd : common.ExecutorCommand) (env : StageEnv) : M Outcome :=
  s <- getS ;;
  if UseLegacyKubernetesExecutionStrategy (Build s) then
    Debugln "Starting Kubernetes command..." ;;
    runWithExecLegacy cmd env
  else
    Debugln "Starting Kubernetes command with attach..." ;;
    runWithAttach cmd env.

(** func (s *executor) Run(cmd common.ExecutorCommand) error: the loop
    [for attempt := 1; ; attempt++], one [StageEnv] for each pass; when
    they are used up the loop has not returned. *)
Fixpoint RunFrom (attempt : nat) (cmd : common.ExecutorCommand) (envs : list StageEnv)
  : M Outcome :=
  match envs with
  | [] => ret Blocked
  | env :: rest =>
      out <- runStage cmd env ;;
      match out with
      | Returned err =>
          match errors_As isImagePullError err with
          | Some imagePullErr =>
              retry <- updatePolicyForImage attempt imagePullErr ;;
              if retry then
                cleanupResources ;;
                modifyS (setPod None) ;;
                RunFrom (S attempt) cmd rest
              else ret (Returned err)
          | None => ret (Returned err)
          end
      | _ => ret out
      end
  end.

Definition Run (cmd : common.ExecutorCommand) (envs : list StageEnv) : M Outcome :=
  RunFrom 1 cmd envs.

End Executor.

Arguments St : clear implicits.
Arguments M : clear implicits.

(* ------------------------------------------------------------------ *)
(** ** Instances used by the examples *)
(* ------------------------------------------------------------------ *)

Module pull.

(** Modelled from the spec: package [pull] (the pull-policy manager) is
    not part of the sources at hand. Its state is the ordered list of pull
    policies and, for each image, the number of pull failures seen;
    [GetPullPolicyFor] returns the policy at that position,
    [UpdatePolicyForImage] moves the image to the next position and says
    whether a policy is left there. *)
Record manager : Type := {
  pullPolicies : list string;
  failureCount : list (string * nat)
}.

Definition failuresOf (image : string) (m : manager) : nat :=
  match find (fun e => String.eqb (fst e) image) (failureCount m) with
  | Some e => snd e
  | None => 0
  end.

Definition ErrNoMorePullPolicies : error := errorString "pull failed".

Definition policyFor (image : string) (m : manager) : string * option error :=
  match pullPolicies m with
  | [] => ("", None)
  | _ => match nth_error (pullPolicies m) (failuresOf image m) with
         | Some policy => (policy, None)
         | None => ("", Some ErrNoMorePullPolicies)
         end
  end.

Definition markPullFailureFor (image : string) (m : manager) : manager :=
  {| pullPolicies := pullPolicies m;
     failureCount := mapSet image (S (failuresOf image m)) (failureCount m) |}.

Definition imageOf (imagePullErr : error) : string :=
  match imagePullErr with
  | ImagePullError image _ => image
  | _ => ""
  end.

Definition updatePolicy (attempt : nat) (imagePullErr : error) (m : manager) : bool * manager :=
  let m' := markPullFailureFor (imageOf imagePullErr) m in
  match snd (policyFor (imageOf imagePullErr) m') with
  | Some _ => (false, m')
  | None => (true, m')
  end.

Definition NewPullManager (policies : list string) : manager :=
  {| pullPolicies := policies; failureCount := [] |}.

End pull.

#[export] Instance pull_Manager : Manager pull.manager :=
  {| GetPullPolicyFor := fun image m => (pull.policyFor image m, m);
     UpdatePolicyForImage := pull.updatePolicy |}.

Module doubles.

(** A decoder for the one-line JSON object the trap shell prints,
    [{"command_exit_code": <digits>, "script": "<path>"}], standing in for
    [TryUnmarshal] in the examples. *)
Fixpoint readDigits (s : string) (acc : option Z) : option Z * string :=
  match s with
  | String c rest =>
      let n := nat_of_ascii c in
      if (48 <=? n)%nat && (n <=? 57)%nat
      then readDigits rest
             (Some (10 * match acc with Some a => a | None => 0 end
                    + Z.of_nat (n - 48))%Z)
      else (acc, s)
  | EmptyString => (acc, s)
  end.

Fixpoint dropPrefix (p s : string) : option string :=
  match p, s with
  | EmptyString, _ => Some s
  | String a p', String b s' => if Ascii.eqb a b then dropPrefix p' s' else None
  | _, EmptyString => None
  end.

Fixpoint upToQuote (s : string) : option (string * string) :=
  match s with
  | EmptyString => None
  | String c rest =>
      if Ascii.eqb c doubleQuote then Some ("", rest)
      else match upToQuote rest with
           | Some (a, b) => Some (String c a, b)
           | None => None
           end
  end.

Definition tryUnmarshal (line : string) : option shells.TrapCommandExitStatus :=
  match dropPrefix ("{" ++ quote "command_exit_code" ++ ": ") line with
  | None => None
  | Some rest =>
      match readDigits rest None with
      | (None, _) => None
      | (Some code, rest) =>
          match dropPrefix (", " ++ quote "script" ++ ": " ++ String doubleQuote "") rest with
          | None => None
          | Some rest =>
              match upToQuote rest with
              | Some (script, "}") =>
                  Some {| shells.CommandExitCode := Some code;
                          shells.Script := Some script |}
              | _ => None
              end
          end
      end
  end.

Definition sentinel (code : Z) (script : string) : string :=
  "{" ++ quote "command_exit_code" ++ ": " ++ Z_String code ++ ", "
      ++ quote "script" ++ ": " ++ quote script ++ "}".

End doubles.

#[export] Instance doubles_Packages : Packages :=
  {| TryUnmarshal := doubles.tryUnmarshal;
     VerifyAllowedImage := fun _ => None;
     MakeRFC1123Compatible := fun name => name |}.

Module sample.

Definition redis : common.Image :=
  {| common.Name := "redis:7"; common.Alias := "cache"; common.Command := [];
     common.Entrypoint := [];
     common.Ports := [ {| common.Number := 6379; common.Protocol := "TCP";
                          common.PortName := "redis" |} ] |}.

Definition postgres : common.Image :=
  {| common.Name := "postgres:16"; common.Alias := ""; common.Command := [];
     common.Entrypoint := []; common.Ports := [] |}.

Definition job : JobSpec :=
  {| ProjectUniqueName := "runner-x-project-7-concurrent-0";
     ProjectID := 7;
     JobID := 42;
     Image := {| common.Name := "busybox"; common.Alias := ""; common.Command := [];
                 common.Entrypoint := []; common.Ports := [] |};
     Services := [redis; postgres];
     BuildStages := [("step_script", common.Generated "echo hi; exit 0")];
     DockerAuth := inl [("registry.example.com", "{}")];
     UseLegacyKubernetesExecutionStrategy := false |}.

Definition legacyJob : JobSpec :=
  {| ProjectUniqueName := ProjectUniqueName job; ProjectID := 7; JobID := 42;
     Image := Image job; Services := Services job; BuildStages := BuildStages job;
     DockerAuth := DockerAuth job;
     UseLegacyKubernetesExecutionStrategy := true |}.

Definition config : RuntimeConfig :=
  {| namespace := "ci"; serviceAccount := ""; KubernetesImage := "";
     AllowedImages := []; AllowedServices := []; ImagePullSecrets := [];
     PodSpec := []; PodLabels := []; podAnnotations := [];
     IsHostAliasSupported := HostAliasSupported false;
     createHostAliases := inl [];
     Shell := shells.SNBash;
     DockerCommand := ["sh"; "-c"; "detect"];
     HelperImage := "helper:v1"; GitLabRegistryHelperImage := true;
     HelperImageName := "helper"; HelperImageString := "helper:v1";
     HelperOSType := helperimage.OSTypeLinux;
     HelperCmd := ["gitlab-runner-build"];
     RootDir := "/builds" |}.

(** The executor as [Prepare] leaves it. *)
Definition prepared (b : JobSpec) (policies : list string) : executor pull.manager :=
  {| Build := b; Config := config; currentStage := common.ExecutorStagePrepare;
     ProxyPool := []; kubeClientClosed := false;
     pod := None; configMap := None; credentials := None; services := [];
     pullManager := pull.NewPullManager policies;
     remoteProcessTerminated := []; receiving := 0 |}.

Definition quiet : World :=
  {| cluster := kube.empty; faults := []; requests := []; buildLog := [];
     trace := []; traceFaults := [] |}.

Definition failing (plan : list (option error)) : World :=
  {| cluster := kube.empty; faults := plan; requests := []; buildLog := [];
     trace := []; traceFaults := [] |}.

Definition step_script : common.ExecutorCommand :=
  {| common.Script := "echo hi; exit 0"; common.Stage := "step_script";
     common.Predefined := false |}.

(** A stage in which the pod comes up, the script prints [lines] and the
    trap reports [code]. *)
Definition exits (lines : list string) (code : Z) : StageEnv :=
  {| waitForPodRunning := (PodRunning, None);
     logEvents := (map LogsLine lines
                     ++ [LogsLine (doubles.sentinel code "/scripts-7-42/step_script")])%list;
     remote := None;
     schedule := [SelectContainer] |}.

(** A pass in which the image cannot be pulled. *)
Definition pullFails (image : string) : StageEnv :=
  {| waitForPodRunning := (PodUnknown, Some (ImagePullError image "ErrImagePull"));
     logEvents := []; remote := None; schedule := [] |}.

(** A first stage whose attach fails although the script ends with code 0. *)
Definition attachFails : StageEnv :=
  {| waitForPodRunning := (PodRunning, None);
     logEvents := [LogsLine (doubles.sentinel 0 "/scripts-7-42/step_script")];
     remote := Some (errorString "attach: connection reset by peer");
     schedule := [SelectContainer] |}.

(** A stage in which the pod goes from Pending to Failed before the watcher
    polls. *)
Definition podFails : StageEnv :=
  {| waitForPodRunning := (PodRunning, None);
     logEvents := [LogsLine "compiling"];
     remote := None;
     schedule := [External (kube.SetPodPhase "ci" "runner-x-project-7-concurrent-02"
                                             PodFailed);
                  Tick; SelectPodStatus] |}.


(** A later stage in which the log stream breaks with a code exit error. *)
Definition streamBreaks : StageEnv :=
  {| waitForPodRunning := (PodRunning, None);
     logEvents := [LogsLine "compiling";
                   ErrsError (Some (wrapError "reading logs"
                                              (CodeExitError (errorString "exit") 137)))];
     remote := None;
     schedule := [Tick; SelectContainer] |}.

(** A stage of the legacy exec mode. *)
Definition execs : StageEnv :=
  {| waitForPodRunning := (PodRunning, None);
     logEvents := []; remote := None; schedule := [SelectContainer] |}.

(** The executor before its first stage, and after a first stage that
    went well. *)
Definition fresh : St pull.manager := (prepared job ["Always"; "IfNotPresent"], quiet).

Definition configured : St pull.manager :=
  snd (Run step_script [exits ["hi"] 0] fresh).

Definition thePod : api.Pod :=
  match pod (fst configured) with
  | Some p => p
  | None => api.zeroPod
  end.

(** The executor whose third API call (the update of the secret comes
    fourth) is followed by a transport failure. *)
Definition conflicting : St pull.manager :=
  (prepared job ["Always"],
   failing [None; None; None; Some (errorString "conflict")]).


(** A stage in which the pod is running at a first poll and has failed at
    the second. *)
Definition podFailsLater : StageEnv :=
  {| waitForPodRunning := (PodRunning, None);
     logEvents := [LogsLine "compiling"];
     remote := None;
     schedule := [Tick;
                  External (kube.SetPodPhase "ci" "runner-x-project-7-concurrent-02"
                                             PodFailed);
                  Tick; SelectPodStatus] |}.

(** A stage whose attach fails and whose script reports nothing: its
    driver stays in the receive. *)
Definition detached : StageEnv :=
  {| waitForPodRunning := (PodRunning, None);
     logEvents := [];
     remote := Some (errorString "attach: connection reset by peer");
     schedule := [SelectContainer] |}.

(** The log stream breaks as in [streamBreaks], after the attach failed. *)
Definition streamBreaksDetached : StageEnv :=
  {| waitForPodRunning := (PodRunning, None);
     logEvents := logEvents streamBreaks;
     remote := Some (errorString "attach: connection reset by peer");
     schedule := [Tick; SelectContainer] |}.

(** The executor after the stage [detached]. *)
Definition leftReceiving : St pull.manager :=
  snd (runWithAttach step_script detached configured).

(** The configured executor when the next request fails in transport. *)
Definition unreachable : St pull.manager :=
  (fst configured,
   {| cluster := cluster (snd configured);
      faults := [Some (errorString "i/o timeout")];
      requests := requests (snd configured);
      buildLog := buildLog (snd configured);
      trace := trace (snd configured);
      traceFaults := traceFaults (snd configured) |}).

End sample.

(* ------------------------------------------------------------------ *)
(** ** Vocabulary of the properties *)
(* ------------------------------------------------------------------ *)

Section Vocabulary.

Context {PM : Type}.

(** The calls made between two states, with their answers. *)
Definition newCalls (st st' : St PM) : list (kube.Request * option error) :=
  skipn (List.length (requests (snd st))) (requests (snd st')).

(** The build-log entries written between two states. *)
Definition newLog (st st' : St PM) : list (LogLevel * string) :=
  skipn (List.length (buildLog (snd st))) (buildLog (snd st')).

(** The chunks handed to the trace between two states. *)
Definition newTrace (st st' : St PM) : list string :=
  skipn (List.length (trace (snd st))) (trace (snd st')).

Definition isDeletePod (r : kube.Request) : bool :=
  match r with kube.DeletePod _ _ _ => true | _ => false end.

Definition isCreateService (r : kube.Request) : bool :=
  match r with kube.CreateService _ _ => true | _ => false end.

(** The deletions [cleanupResources] is to issue for the handles of [s]. *)
Definition cleanupRequests (s : executor PM) : list kube.Request :=
  (match pod s with
   | Some p =>
       [kube.DeletePod (metav1.Namespace (api.PodMeta p)) (metav1.Name (api.PodMeta p))
                       (Some metav1.DeletePropagationForeground)]
   | None => []
   end ++
   match credentials s with
   | Some c =>
       match metav1.OwnerReferences (api.SecretMeta c) with
       | [] => [kube.DeleteSecret (namespace (Config s)) (metav1.Name (api.SecretMeta c))]
       | _ :: _ => []
       end
   | None => []
   end ++
   match configMap s with
   | Some c =>
       match metav1.OwnerReferences (api.ConfigMapMeta c) with
       | [] => [kube.DeleteConfigMap (namespace (Config s))
                                     (metav1.Name (api.ConfigMapMeta c))]
       | _ :: _ => []
       end
   | None => []
   end)%list.

(** The line a failed deletion leaves in the build log. *)
Definition cleanupFailure (call : kube.Request * option error) : list (LogLevel * string) :=
  match call with
  | (kube.DeletePod _ _ _, Some e) => [(LError, "Error cleaning up pod: " ++ Error e)]
  | (kube.DeleteSecret _ _, Some e) => [(LError, "Error cleaning up secrets: " ++ Error e)]
  | (kube.DeleteConfigMap _ _, Some e) => [(LError, "Error cleaning up configmap: " ++ Error e)]
  | _ => []
  end.

(** The world after a call that was answered with [e] and left the store
    as [c]. *)
Definition answered (req : kube.Request) (e : option error) (c : kube.Cluster)
           (w : World) : World :=
  {| cluster := c; faults := tl (faults w);
     requests := (requests w ++ [(req, e)])%list;
     buildLog := buildLog w; trace := trace w; traceFaults := traceFaults w |}.

Definition logged (lvl : LogLevel) (msg : string) (w : World) : World :=
  {| cluster := cluster w; faults := faults w; requests := requests w;
     buildLog := (buildLog w ++ [(lvl, msg)])%list;
     trace := trace w; traceFaults := traceFaults w |}.

(** The events the loop of [processLogs] handles: those before the log
    channel is closed. *)
Fixpoint handled (events : list LogEvent) : list LogEvent :=
  match events with
  | [] => []
  | LogsClosed :: _ => []
  | ev :: rest => ev :: handled rest
  end.

(** The status an event puts on [remoteProcessTerminated]. *)
Definition statusOf `{Packages} (ev : LogEvent) : list shells.TrapCommandExitStatus :=
  match ev with
  | LogsLine line =>
      match TryUnmarshal line with
      | Some status => [status]
      | None => []
      end
  | ErrsError err =>
      [ {| shells.CommandExitCode := Some (getExitCode err); shells.Script := None |} ]
  | _ => []
  end.

(** The chunk an event puts on the trace. *)
Definition chunkOf `{Packages} (ev : LogEvent) : list string :=
  match ev with
  | LogsLine line =>
      match TryUnmarshal line with
      | Some _ => []
      | None => [line ++ newline]
      end
  | _ => []
  end.

(** What the stage reports for the exit code of the script. *)
Definition exitResult (code : Z) : option error :=
  if (code =? 0)%Z then None
  else Some (BuildError (Some (commandTerminatedError code)) code).

(** The events of a schedule that let the select return. *)
Definition isSelect (ev : SelectEvent) : bool :=
  match ev with
  | SelectContainer | SelectPodStatus | SelectDone => true
  | _ => false
  end.

(** The value the select of [runWithAttach] returns for what it receives
    from the stage driver. *)
Definition containerResult (err : option error) : option error :=
  match errors_As isCommandTerminatedError err with
  | Some (commandTerminatedError exitCode) => Some (BuildError err exitCode)
  | _ => err
  end.

(** The value it returns for what it receives from the watcher. *)
Definition podStatusResult (err : option error) : option error :=
  if IsKubernetesPodNotFoundError err then err else Some (BuildError err 0).

(** How the store serves the deletions of [cleanupRequests]. *)
Definition serveDelete (r : kube.Request) (c : kube.Cluster) : (unit * kube.Cluster) + error :=
  match r with
  | kube.DeletePod ns name policy => kube.deletePod ns name policy c
  | kube.DeleteSecret ns name => kube.deleteSecret ns name c
  | kube.DeleteConfigMap ns name => kube.deleteConfigMap ns name c
  | _ => inr (errorString "not a deletion")
  end.

(** The store after a request, and the error of its answer. *)
Definition settle {A} (r : (A * kube.Cluster) + error) (c : kube.Cluster) : kube.Cluster :=
  match r with
  | inl (_, c') => c'
  | inr _ => c
  end.

Definition errorOf {A} (r : (A * kube.Cluster) + error) : option error :=
  match r with
  | inl _ => None
  | inr e => Some e
  end.

(** A list of deletions served one after the other, without transport
    failures: the store they leave, and their answers. *)
Fixpoint replay (reqs : list kube.Request) (c : kube.Cluster) : kube.Cluster :=
  match reqs with
  | [] => c
  | r :: rs => replay rs (settle (serveDelete r c) c)
  end.

Fixpoint answers (reqs : list kube.Request) (c : kube.Cluster) : list (option error) :=
  match reqs with
  | [] => []
  | r :: rs => errorOf (serveDelete r c) :: answers rs (settle (serveDelete r c) c)
  end.

(** The store has nothing to delete for the request. *)
Definition rejects (r : kube.Request) (c : kube.Cluster) : bool :=
  match serveDelete r c with
  | inr _ => true
  | inl _ => false
  end.

(** A call that deleted a pod. *)
Definition effectivePodDelete (call : kube.Request * option error) : bool :=
  isDeletePod (fst call) && match snd call with None => true | Some _ => false end.

Definition isDeletion (r : kube.Request) : bool :=
  match r with
  | kube.DeletePod _ _ _ | kube.DeleteSecret _ _ | kube.DeleteConfigMap _ _ => true
  | _ => false
  end.

(** What the parts of the setup that make no API call leave alone: the
    record of requests, the store and the fault plan, the three handles,
    the job and the configuration. *)
Definition frame (st : St PM) :=
  (requests (snd st), cluster (snd st), faults (snd st),
   (pod (fst st), configMap (fst st), credentials (fst st)),
   (Build (fst st), Config (fst st))).

(** The owner reference list naming the pod [p]. *)
Definition podReference (p : api.Pod) : metav1.OwnerReference :=
  {| metav1.APIVersion := "v1"; metav1.Kind := "Pod";
     metav1.RefName := metav1.Name (api.PodMeta p);
     metav1.RefUID := metav1.UID (api.PodMeta p) |}.

(** The updates that install [refs] on the handles of [s]. *)
Definition ownerUpdates (s : executor PM) (refs : list metav1.OwnerReference)
  : list kube.Request :=
  (match credentials s with
   | Some c =>
       [kube.UpdateSecret (namespace (Config s))
          (api.withSecretMeta (metav1.SetOwnerReferences refs (api.SecretMeta c)) c)]
   | None => []
   end ++
   match configMap s with
   | Some c =>
       [kube.UpdateConfigMap (namespace (Config s))
          (api.withConfigMapMeta (metav1.SetOwnerReferences refs (api.ConfigMapMeta c)) c)]
   | None => []
   end)%list.

(** The owner references a request carries. *)
Definition ownerReferencesOf (r : kube.Request) : list metav1.OwnerReference :=
  match r with
  | kube.CreatePod _ x => metav1.OwnerReferences (api.PodMeta x)
  | kube.CreateSecret _ x | kube.UpdateSecret _ x => metav1.OwnerReferences (api.SecretMeta x)
  | kube.CreateConfigMap _ x | kube.UpdateConfigMap _ x =>
      metav1.OwnerReferences (api.ConfigMapMeta x)
  | kube.CreateService _ x => metav1.OwnerReferences (api.ServiceMeta x)
  | _ => []
  end.

(** The pods the executor asked the API server to create. *)
Definition createdPods (calls : list (kube.Request * option error)) : list api.Pod :=
  flat_map (fun call => match fst call with
                        | kube.CreatePod _ x => [x]
                        | _ => []
                        end) calls.

(** The names of the main containers of a job with [n] services. *)
Definition containerNames (n : nat) : list string :=
  "build" :: "helper" :: map (fun i => "svc-" ++ nat_String i) (seq 0 n).

(** [m] only adds calls to the record of requests, the calls it adds
    satisfy [P], and it changes neither the job nor the configuration. *)
Definition emits (P : list (kube.Request * option error) -> Prop) {A} (m : M PM A) : Prop :=
  forall st,
    exists l,
      requests (snd (snd (m st))) = (requests (snd st) ++ l)%list
      /\ P l
      /\ Build (fst (snd (m st))) = Build (fst st)
      /\ Config (fst (snd (m st))) = Config (fst st).

Definition noPodCreated (l : list (kube.Request * option error)) : Prop :=
  createdPods l = [].

Definition anyCalls (l : list (kube.Request * option error)) : Prop := True.

(** The shape the specification gives to the pod of a job. *)
Definition podShape (b : JobSpec) (init : list string) (cfg : api.Pod) : Prop :=
  metav1.GenerateName (api.PodMeta cfg) = ProjectUniqueName b
  /\ api.RestartPolicy_ (api.Spec cfg) = api.RestartPolicyNever
  /\ map api.Name (api.InitContainers (api.Spec cfg)) = init
  /\ map api.Name (api.Containers (api.Spec cfg)) = containerNames (List.length (Services b)).

(** The store after what other actors do to it in the course of [events]. *)
Definition clusterAfter (events : list SelectEvent) (c : kube.Cluster) : kube.Cluster :=
  fold_left (fun c ev => match ev with
                         | External a => kube.act a c
                         | _ => c
                         end) events c.

(** The pod that the handle [p] names, as the store has it. *)
Definition podIn (p : api.Pod) (c : kube.Cluster) : option api.Pod :=
  find (fun q => kube.named (metav1.Namespace (api.PodMeta p))
                            (metav1.Name (api.PodMeta p)) (api.PodMeta q))
       (kube.Pods c).

(** The status carries an exit code. *)
Definition hasExitCode (status : shells.TrapCommandExitStatus) : Prop :=
  shells.CommandExitCode status <> None.

(** What the goroutine of [runInContainer] sends for the attach alone. *)
Definition attachSent (attachErr : option error) : list (option error) :=
  match attachErr with
  | Some err => [Some err]
  | None => []
  end.

End Vocabulary.

(* ------------------------------------------------------------------ *)
(** ** Volumes

    [getVolumeMounts], [getVolumes] and the functions they call. They read
    [s.configMap], [s.Build.RootDir], [s.helperImageInfo.OSType] and the
    volumes section of the runner configuration, and they keep the answer
    of [isDefaultBuildsDirVolumeRequired] in the executor. *)
(* ------------------------------------------------------------------ *)

(** The entries of [Config.Kubernetes.Volumes], with the fields the
    executor reads. *)
Module KubernetesHostPath.
Record t : Type := {
  Name : string; MountPath : string; SubPath : string; ReadOnly : bool;
  HostPath : string
}.
End KubernetesHostPath.

Module KubernetesSecret.
Record t : Type := {
  Name : string; MountPath : string; SubPath : string; ReadOnly : bool;
  Items : list (string * string)     (* map[string]string, in iteration order *)
}.
End KubernetesSecret.

Module KubernetesPVC.
Record t : Type := {
  Name : string; MountPath : string; SubPath : string; ReadOnly : bool
}.
End KubernetesPVC.

Module KubernetesConfigMap.
Record t : Type := {
  Name : string; MountPath : string; SubPath : string; ReadOnly : bool;
  Items : list (string * string)     (* map[string]string, in iteration order *)
}.
End KubernetesConfigMap.

Module KubernetesEmptyDir.
Record t : Type := {
  Name : string; MountPath : string; SubPath : string; Medium : string
}.
End KubernetesEmptyDir.

Module KubernetesCSI.
Record t : Type := {
  Name : string; MountPath : string; SubPath : string; ReadOnly : bool;
  Driver : string; FSType : string;
  VolumeAttributes : list (string * string)
}.
End KubernetesCSI.

Record KubernetesVolumes : Type := {
  HostPaths : list KubernetesHostPath.t;
  Secrets : list KubernetesSecret.t;
  PVCs : list KubernetesPVC.t;
  ConfigMaps : list KubernetesConfigMap.t;
  EmptyDirs : list KubernetesEmptyDir.t;
  CSIs : list KubernetesCSI.t
}.

(** api.VolumeMount and api.Volume. Of the pointer fields of
    [api.VolumeSource] the executor sets exactly one. *)
Module vol.

Record VolumeMount : Type := {
  Name : string;
  MountPath : string;
  SubPath : string;
  ReadOnly : bool
}.

Record KeyToPath : Type := {
  Key : string;
  Path : string
}.

Inductive VolumeSource : Type :=
| HostPath (path : string)
| Secret (SecretName : string) (items : list KeyToPath)
| PersistentVolumeClaim (ClaimName : string) (readOnly : bool)
| ConfigMap (name : string) (items : list KeyToPath)
            (DefaultMode : option Z) (Optional : option bool)
| EmptyDir (medium : string)
| CSI (driver : string) (fsType : string) (readOnly : bool)
      (volumeAttributes : list (string * string)).

Record Volume : Type := {
  VolumeName : string;
  Source : VolumeSource
}.

End vol.

Section Volumes.

Context {PM : Type}.

(** The executor, its [Config.Kubernetes.Volumes], and the state these
    functions change: the field [requireDefaultBuildsDirVolume *bool]. *)
Variable s : executor PM.
Variable Volumes : KubernetesVolumes.

Definition VM (A : Type) : Type := State (option bool) A.

(** func (s *executor) getVolumeMountsForConfig() []api.VolumeMount *)
Definition getVolumeMountsForConfig : list vol.VolumeMount :=
  (map (fun mount =>
          {| vol.Name := KubernetesHostPath.Name mount;
             vol.MountPath := KubernetesHostPath.MountPath mount;
             vol.SubPath := KubernetesHostPath.SubPath mount;
             vol.ReadOnly := KubernetesHostPath.ReadOnly mount |})
       (HostPaths Volumes)
   ++ map (fun mount =>
             {| vol.Name := KubernetesSecret.Name mount;
                vol.MountPath := KubernetesSecret.MountPath mount;
                vol.SubPath := KubernetesSecret.SubPath mount;
                vol.ReadOnly := KubernetesSecret.ReadOnly mount |})
          (Secrets Volumes)
   ++ map (fun mount =>
             {| vol.Name := KubernetesPVC.Name mount;
                vol.MountPath := KubernetesPVC.MountPath mount;
                vol.SubPath := KubernetesPVC.SubPath mount;
                vol.ReadOnly := KubernetesPVC.ReadOnly mount |})
          (PVCs Volumes)
   ++ map (fun mount =>
             {| vol.Name := KubernetesConfigMap.Name mount;
                vol.MountPath := KubernetesConfigMap.MountPath mount;
                vol.SubPath := KubernetesConfigMap.SubPath mount;
                vol.ReadOnly := KubernetesConfigMap.ReadOnly mount |})
          (ConfigMaps Volumes)
   ++ map (fun mount =>
             {| vol.Name := KubernetesEmptyDir.Name mount;
                vol.MountPath := KubernetesEmptyDir.MountPath mount;
                vol.SubPath := KubernetesEmptyDir.SubPath mount;
                vol.ReadOnly := false |})
          (EmptyDirs Volumes)
   ++ map (fun mount =>
             {| vol.Name := KubernetesCSI.Name mount;
                vol.MountPath := KubernetesCSI.MountPath mount;
                vol.SubPath := KubernetesCSI.SubPath mount;
                vol.ReadOnly := KubernetesCSI.ReadOnly mount |})
          (CSIs Volumes))%list.

(** func (s *executor) isDefaultBuildsDirVolumeRequired() bool *)
Definition isDefaultBuildsDirVolumeRequired : VM bool :=
  fun cached =>
    match cached with
    | Some required => (required, cached)
    | None =>
        let required :=
          negb (existsb (fun mount => String.eqb (vol.MountPath mount) (RootDir (Config s)))
                        getVolumeMountsForConfig) in
        (required, Some required)
    end.

(** func (s *executor) getVolumeMounts() []api.VolumeMount *)
Definition getVolumeMounts : VM (list vol.VolumeMount) :=
  let mounts :=
    match configMap s with
    | Some _ =>
        [ {| vol.Name := "scripts"; vol.MountPath := scriptsDir s;
             vol.SubPath := ""; vol.ReadOnly := false |};
          {| vol.Name := "logs"; vol.MountPath := logsDir s;
             vol.SubPath := ""; vol.ReadOnly := false |} ]
    | None => []
    end in
  let mounts := (mounts ++ getVolumeMountsForConfig)%list in
  required <- isDefaultBuildsDirVolumeRequired ;;
  if required then
    ret (mounts ++ [ {| vol.Name := "repo"; vol.MountPath := RootDir (Config s);
                        vol.SubPath := ""; vol.ReadOnly := false |} ])%list
  else ret mounts.

Definition keysToPaths (items : list (string * string)) : list vol.KeyToPath :=
  map (fun item => {| vol.Key := fst item; vol.Path := snd item |}) items.

(** func (s *executor) getVolumesForHostPaths() []api.Volume *)
Definition getVolumesForHostPaths : list vol.Volume :=
  map (fun volume =>
         let path :=
           if String.eqb (KubernetesHostPath.HostPath volume) ""
           then KubernetesHostPath.MountPath volume
           else KubernetesHostPath.HostPath volume in
         {| vol.VolumeName := KubernetesHostPath.Name volume;
            vol.Source := vol.HostPath path |})
      (HostPaths Volumes).

(** func (s *executor) getVolumesForSecrets() []api.Volume *)
Definition getVolumesForSecrets : list vol.Volume :=
  map (fun volume =>
         {| vol.VolumeName := KubernetesSecret.Name volume;
            vol.Source := vol.Secret (KubernetesSecret.Name volume)
                                     (keysToPaths (KubernetesSecret.Items volume)) |})
      (Secrets Volumes).

(** func (s *executor) getVolumesForPVCs() []api.Volume *)
Definition getVolumesForPVCs : list vol.Volume :=
  map (fun volume =>
         {| vol.VolumeName := KubernetesPVC.Name volume;
            vol.Source := vol.PersistentVolumeClaim (KubernetesPVC.Name volume)
                                                    (KubernetesPVC.ReadOnly volume) |})
      (PVCs Volumes).

(** func (s *executor) getVolumesForConfigMaps() []api.Volume *)
Definition getVolumesForConfigMaps : list vol.Volume :=
  map (fun volume =>
         {| vol.VolumeName := KubernetesConfigMap.Name volume;
            vol.Source := vol.ConfigMap (KubernetesConfigMap.Name volume)
                                        (keysToPaths (KubernetesConfigMap.Items volume))
                                        None None |})
      (ConfigMaps Volumes).

(** func (s *executor) getVolumesForEmptyDirs() []api.Volume *)
Definition getVolumesForEmptyDirs : list vol.Volume :=
  map (fun volume =>
         {| vol.VolumeName := KubernetesEmptyDir.Name volume;
            vol.Source := vol.EmptyDir (KubernetesEmptyDir.Medium volume) |})
      (EmptyDirs Volumes).

(** func (s *executor) getVolumesForCSIs() []api.Volume *)
Definition getVolumesForCSIs : list vol.Volume :=
  map (fun volume =>
         {| vol.VolumeName := KubernetesCSI.Name volume;
            vol.Source := vol.CSI (KubernetesCSI.Driver volume)
                                  (KubernetesCSI.FSType volume)
                                  (KubernetesCSI.ReadOnly volume)
                                  (KubernetesCSI.VolumeAttributes volume) |})
      (CSIs Volumes).

(** func (s *executor) getVolumesForConfig() []api.Volume *)
Definition getVolumesForConfig : list vol.Volume :=
  (getVolumesForHostPaths ++ getVolumesForSecrets ++ getVolumesForPVCs
   ++ getVolumesForConfigMaps ++ getVolumesForEmptyDirs ++ getVolumesForCSIs)%list.

(** func (s *executor) getVolumes() []api.Volume *)
Definition getVolumes : VM (list vol.Volume) :=
  let volumes := getVolumesForConfig in
  required <- isDefaultBuildsDirVolumeRequired ;;
  let volumes :=
    if required
    then (volumes ++ [ {| vol.VolumeName := "repo"; vol.Source := vol.EmptyDir "" |} ])%list
    else volumes in
  match configMap s with
  | None => ret volumes
  | Some configMap =>
      let mode :=
        if negb (String.eqb (HelperOSType (Config s)) helperimage.OSTypeWindows)
        then Some 511%Z      (* 0777 *)
        else None in
      ret (volumes ++
           [ {| vol.VolumeName := "scripts";
                vol.Source := vol.ConfigMap (metav1.Name (api.ConfigMapMeta configMap)) []
                                            mode (Some false) |};
             {| vol.VolumeName := "logs"; vol.Source := vol.EmptyDir "" |} ])%list
  end.

(** The names of the volumes the executor adds of its own. *)
Definition scriptNames : list string :=
  match configMap s with Some _ => ["scripts"; "logs"] | None => [] end.

Definition repoNames (required : bool) : list string :=
  if required then ["repo"] else [].

End Volumes.

(* ------------------------------------------------------------------ *)
(** ** Defaults

    [checkDefaults], which [Prepare] runs before it builds the client:
    it completes [s.options.Image] and the namespace of
    [s.configurationOverwrites]. *)
(* ------------------------------------------------------------------ *)

Section Defaults.

Context {PM : Type}.

(** s.options.Image = image *)
Definition setImage (image : common.Image) (s : executor PM) : executor PM :=
  {| Build :=
       {| ProjectUniqueName := ProjectUniqueName (Build s);
          ProjectID := ProjectID (Build s);
          JobID := JobID (Build s);
          Image := image;
          Services := Services (Build s);
          BuildStages := BuildStages (Build s);
          DockerAuth := DockerAuth (Build s);
          UseLegacyKubernetesExecutionStrategy :=
            UseLegacyKubernetesExecutionStrategy (Build s) |};
     Config := Config s; currentStage := currentStage s;
     ProxyPool := ProxyPool s; kubeClientClosed := kubeClientClosed s;
     pod := pod s; configMap := configMap s; credentials := credentials s;
     services := services s; pullManager := pullManager s;
     remoteProcessTerminated := remoteProcessTerminated s;
     receiving := receiving s |}.

(** s.configurationOverwrites.namespace = ns *)
Definition setNamespace (ns : string) (s : executor PM) : executor PM :=
  {| Build := Build s;
     Config :=
       {| namespace := ns;
          serviceAccount := serviceAccount (Config s);
          KubernetesImage := KubernetesImage (Config s);
          AllowedImages := AllowedImages (Config s);
          AllowedServices := AllowedServices (Config s);
          ImagePullSecrets := ImagePullSecrets (Config s);
          PodSpec := PodSpec (Config s);
          PodLabels := PodLabels (Config s);
          podAnnotations := podAnnotations (Config s);
          IsHostAliasSupported := IsHostAliasSupported (Config s);
          createHostAliases := createHostAliases (Config s);
          Shell := Shell (Config s);
          DockerCommand := DockerCommand (Config s);
          HelperImage := HelperImage (Config s);
          GitLabRegistryHelperImage := GitLabRegistryHelperImage (Config s);
          HelperImageName := HelperImageName (Config s);
          HelperImageString := HelperImageString (Config s);
          HelperOSType := HelperOSType (Config s);
          HelperCmd := HelperCmd (Config s);
          RootDir := RootDir (Config s) |};
     currentStage := currentStage s;
     ProxyPool := ProxyPool s; kubeClientClosed := kubeClientClosed s;
     pod := pod s; configMap := configMap s; credentials := credentials s;
     services := services s; pullManager := pullManager s;
     remoteProcessTerminated := remoteProcessTerminated s;
     receiving := receiving s |}.

Definition errNoImage : error :=
  errorString "no image specified and no default set in config".

(** func (s *executor) checkDefaults() error *)
Definition checkDefaults : M PM (option error) :=
  s <- getS ;;
  ifErr
    (if String.eqb (common.Name (Image (Build s))) "" then
       if String.eqb (KubernetesImage (Config s)) "" then ret (Some errNoImage)
       else
         modifyS (setImage {| common.Name := KubernetesImage (Config s);
                              common.Alias := ""; common.Command := [];
                              common.Entrypoint := []; common.Ports := [] |}) ;;
         ret None
     else ret None)
  return (fun err => err) ;;
  s <- getS ;;
  (if String.eqb (namespace (Config s)) "" then
     Warningln "Namespace is empty, therefore assuming 'default'." ;;
     modifyS (setNamespace "default")
   else ret tt) ;;
  s <- getS ;;
  Println ("Using Kubernetes namespace: " ++ namespace (Config s)) ;;
  ret None.

End Defaults.

(* ------------------------------------------------------------------ *)
(** ** The abstract executor (executors/executor_abstract.go)

    The part of [executors.AbstractExecutor] that decides where a build
    runs, with the options the Kubernetes executor gives it. *)
(* ------------------------------------------------------------------ *)

Module executors.

(** common.ShellScriptInfo, with the fields the options of the executor
    set. *)
Inductive ShellType : Type := NormalShell | LoginShell.

Record ShellScriptInfo : Type := {
  Shell : shells.ShellName;
  Type_ : ShellType;
  RunnerCommand : string
}.

Record ExecutorOptions : Type := {
  DefaultCustomBuildsDirEnabled : bool;
  DefaultBuildsDir : string;
  DefaultCacheDir : string;
  SharedBuildsDir : bool;
  OptionsShell : ShellScriptInfo;          (* ExecutorOptions.Shell *)
  ShowHostname : bool
}.

(** common.CustomBuildDir *)
Record CustomBuildDir : Type := {
  Enable : bool
}.

(** What the abstract executor reads of [e.Config] (common.RunnerConfig). *)
Record RunnerConfig : Type := {
  BuildsDir : string;
  CacheDir : string;
  ConfigCustomBuildDir : option CustomBuildDir     (* Config.CustomBuildDir, a pointer *)
}.

(** What it reads and writes of [e.Build] (common.Build):
    [CI_PROJECT_DIR] is what [Variables.Get("CI_PROJECT_DIR")] returns, and
    [Started] lists the arguments of the calls of [StartBuild]. *)
Record Build : Type := {
  Hostname : string;
  CI_PROJECT_DIR : string;
  Concurrent : Z;
  Started : list (string * string * bool)
}.

Record AbstractExecutor : Type := {
  Options : ExecutorOptions;               (* the embedded ExecutorOptions *)
  Config : RunnerConfig;
  EBuild : Build
}.

Definition setBuild (b : Build) (e : AbstractExecutor) : AbstractExecutor :=
  {| Options := Options e; Config := Config e; EBuild := b |}.

(** func (e *AbstractExecutor) GetCustomBuildDir() *common.CustomBuildDir *)
Definition GetCustomBuildDir (e : AbstractExecutor) : CustomBuildDir :=
  match ConfigCustomBuildDir (Config e) with
  | Some dir => dir
  | None => {| Enable := DefaultCustomBuildsDirEnabled (Options e) |}
  end.

Definition errCustomBuildDirDisabled : error :=
  errorString
    "Setting custom CI_PROJECT_DIR is not allowed when custom_build_dir disabled in runner configuration".

Definition errCustomBuildDirShared : error :=
  errorString
    "Setting custom CI_PROJECT_DIR is not allowed when running concurrent jobs with shared build directories".

(** func (e *AbstractExecutor) disallowedCustomBuildDir(projectDir string) error *)
Definition disallowedCustomBuildDir (e : AbstractExecutor) (projectDir : string)
  : option error :=
  if String.eqb projectDir "" then None
  else if negb (Enable (GetCustomBuildDir e)) then Some errCustomBuildDirDisabled
  else if (Concurrent (EBuild e) >? 1)%Z && SharedBuildsDir (Options e)
       then Some errCustomBuildDirShared
  else None.

(** func (e *AbstractExecutor) startBuild() error; [osHostname] is what
    [os.Hostname()] gives. *)
Definition startBuild (osHostname : string) : State AbstractExecutor (option error) :=
  fun e =>
    let e :=
      if ShowHostname (Options e) && String.eqb (Hostname (EBuild e)) ""
      then setBuild {| Hostname := osHostname;
                       CI_PROJECT_DIR := CI_PROJECT_DIR (EBuild e);
                       Concurrent := Concurrent (EBuild e);
                       Started := Started (EBuild e) |} e
      else e in
    let rootDir := BuildsDir (Config e) in
    let projectDir := CI_PROJECT_DIR (EBuild e) in
    match disallowedCustomBuildDir e projectDir with
    | Some err => (Some err, e)
    | None =>
        let rootDir := if negb (String.eqb projectDir "") then projectDir else rootDir in
        let rootDir :=
          if String.eqb rootDir "" then DefaultBuildsDir (Options e) else rootDir in
        let cacheDir := CacheDir (Config e) in
        let cacheDir :=
          if String.eqb cacheDir "" then DefaultCacheDir (Options e) else cacheDir in
        (None,
         setBuild {| Hostname := Hostname (EBuild e);
                     CI_PROJECT_DIR := CI_PROJECT_DIR (EBuild e);
                     Concurrent := Concurrent (EBuild e);
                     Started := (Started (EBuild e)
                                   ++ [(rootDir, cacheDir, SharedBuildsDir (Options e))])%list |}
                  e)
    end.

End executors.

(** var executorOptions of the Kubernetes executor *)
Definition executorOptions : executors.ExecutorOptions :=
  {| executors.DefaultCustomBuildsDirEnabled := true;
     executors.DefaultBuildsDir := "/builds";
     executors.DefaultCacheDir := "/cache";
     executors.SharedBuildsDir := true;
     executors.OptionsShell :=
       {| executors.Shell := shells.SNBash;          (* "bash" *)
          executors.Type_ := executors.NormalShell;
          executors.RunnerCommand := "/usr/bin/gitlab-runner-helper" |};
     executors.ShowHostname := true |}.

(** func (s *executor) setupDefaultExecutorOptions(os string), on the
    options of the embedded abstract executor. *)
Definition setupDefaultExecutorOptions (os : string) (o : executors.ExecutorOptions)
  : executors.ExecutorOptions :=
  if String.eqb os helperimage.OSTypeWindows then
    {| executors.DefaultCustomBuildsDirEnabled := executors.DefaultCustomBuildsDirEnabled o;
       executors.DefaultBuildsDir := "C:\builds";
       executors.DefaultCacheDir := "C:\cache";
       executors.SharedBuildsDir := executors.SharedBuildsDir o;
       executors.OptionsShell :=
         {| executors.Shell := shells.SNPowershell;
            executors.Type_ := executors.Type_ (executors.OptionsShell o);
            executors.RunnerCommand := "gitlab-runner-helper" |};
       executors.ShowHostname := executors.ShowHostname o |}
  else o.

(** The first string of a list that is not empty, if there is one. *)
Fixpoint firstNonEmpty (l : list string) : string :=
  match l with
  | [] => ""
  | x :: rest => if String.eqb x "" then firstNonEmpty rest else x
  end.

(** The abstract executor inside the executor [newExecutor] makes, once
    [Prepare] has stored the configuration and the build and has called
    [setupDefaultExecutorOptions] for the operating system of the helper
    image. *)
Definition preparedAbstractExecutor (os : string) (config : executors.RunnerConfig)
           (build : executors.Build) : executors.AbstractExecutor :=
  {| executors.Options := setupDefaultExecutorOptions os executorOptions;
     executors.Config := config;
     executors.EBuild := build |}.

(* ------------------------------------------------------------------ *)
(** ** Vocabulary of the further properties *)
(* ------------------------------------------------------------------ *)


(** The request by which the watcher asks for the status of the pod [p]. *)
Definition statusRequest (p : api.Pod) : kube.Request :=
  kube.GetPod (metav1.Namespace (api.PodMeta p)) (metav1.Name (api.PodMeta p)).

(** The value the select of [runWithExecLegacy] returns for what it
    receives from the goroutine of the exec. *)
Definition execResult (err : option error) : option error :=
  match errors_As isCodeExitError err with
  | Some (CodeExitError _ Code) => Some (BuildError err Code)
  | _ => err
  end.

Definition errBuildAborted : error := errorString "build aborted".

(** The environment [env] with another answer of [waitForPodRunning]. *)
Definition withWaitForPodRunning (answer : PodPhase * option error) (env : StageEnv)
  : StageEnv :=
  {| waitForPodRunning := answer; logEvents := logEvents env;
     remote := remote env; schedule := schedule env |}.

(** What [ensurePodsConfigured] returns for an answer of
    [waitForPodRunning]. *)
Definition waitResult (answer : PodPhase * option error) : option error :=
  match snd answer with
  | Some err => Some (wrapError "waiting for pod running" err)
  | None =>
      if negb (PodPhase_eqb (fst answer) PodRunning)
      then Some (errorString ("pod failed to enter running state: "
                                ++ PodPhase_String (fst answer)))
      else None
  end.

(** The check [buildContainer] makes for a container with this name and
    this image. *)
Definition verifyOptions (config : RuntimeConfig) (name image : string)
  : common.VerifyAllowedImageOptions :=
  let '(optionName, allowedImages) :=
    if String.prefix "svc-" name then ("services", AllowedServices config)
    else if String.eqb name buildContainerName then ("images", AllowedImages config)
    else ("", []) in
  {| common.VImage := image; common.OptionName := optionName;
     common.AllowedImages := allowedImages;
     common.InternalImages := [KubernetesImage config; HelperImageName config] |}.

(** The image of the container [c] passes that check. *)
Definition verified `{Packages} (config : RuntimeConfig) (c : api.Container) : Prop :=
  VerifyAllowedImage (verifyOptions config (api.Name c) (api.Image c)) = None.

(* ------------------------------------------------------------------ *)
(** ** Further inputs of the examples *)
(* ------------------------------------------------------------------ *)

Module scenario.

(** One host path, mounted at /cache. *)
Definition volumes : KubernetesVolumes :=
  {| HostPaths := [ {| KubernetesHostPath.Name := "cache";
                       KubernetesHostPath.MountPath := "/cache";
                       KubernetesHostPath.SubPath := "";
                       KubernetesHostPath.ReadOnly := false;
                       KubernetesHostPath.HostPath := "/var/cache" |} ];
     Secrets := []; PVCs := []; ConfigMaps := []; EmptyDirs := []; CSIs := [] |}.

(** A later stage whose context is cancelled while the exit status of the
    script is on its way. *)
Definition cancelled : StageEnv :=
  {| waitForPodRunning := (PodRunning, None);
     logEvents := [LogsLine "compiling";
                   LogsLine (doubles.sentinel 0 "/scripts-7-42/step_script")];
     remote := None;
     schedule := [Tick; Cancel; SelectDone] |}.

(** The executor of a job in the legacy exec mode, after a first stage. *)
Definition legacyConfigured : St pull.manager :=
  snd (Run sample.step_script [sample.execs]
           (sample.prepared sample.legacyJob ["Always"], sample.quiet)).

Definition legacyPod : api.Pod :=
  match pod (fst legacyConfigured) with
  | Some p => p
  | None => api.zeroPod
  end.

End scenario.

(* ------------------------------------------------------------------ *)
(** ** Properties *)
(* ------------------------------------------------------------------ *)

Lemma PodPhase_eqb_spec a b : reflect (a = b) (PodPhase_eqb a b).
Proof. destruct a, b; constructor; congruence. Qed.

Lemma skipn_length_app {A} (l l' : list A) : skipn (List.length l) (l ++ l')%list = l'.
Proof. induction l; simpl; auto. Qed.

Lemma skipn_length_self {A} (l : list A) : skipn (List.length l) l = [].
Proof. induction l; simpl; auto. Qed.

Section Properties.

Context {PM : Type} `{Manager PM} `{Packages}.

Implicit Types (st : St PM) (s : executor PM) (w : World).

Lemma apiCall_answered {A} req (zero : A) serve st :
  exists a e c,
    apiCall req zero serve st = ((a, e), (fst st, answered req e c (snd st))).
Proof.
  unfold apiCall, answered.
  destruct (faults (snd st)) as [|[e|] fs]; simpl.
  - destruct (serve (cluster (snd st))) as [[a c]|e]; simpl; eauto.
  - eauto.
  - destruct (serve (cluster (snd st))) as [[a c]|e]; simpl; eauto.
Qed.

Lemma apiCall_served {A} req (zero : A) serve st :
  exists a e c,
    apiCall req zero serve st = ((a, e), (fst st, answered req e c (snd st)))
    /\ (e = None -> serve (cluster (snd st)) = inl (a, c)).
Proof.
  unfold apiCall, answered.
  destruct (faults (snd st)) as [|[e|] fs]; simpl.
  - destruct (serve (cluster (snd st))) as [[a c]|e]; simpl; eauto.
    exists zero, (Some e), (cluster (snd st)). split; [reflexivity|discriminate].
  - exists zero, (Some e), (cluster (snd st)). split; [reflexivity|discriminate].
  - destruct (serve (cluster (snd st))) as [[a c]|e]; simpl; eauto.
    exists zero, (Some e), (cluster (snd st)). split; [reflexivity|discriminate].
Qed.

Ltac api_step :=
  match goal with
  | |- context [apiCall ?r ?z ?f ?st] =>
      let a := fresh "a" in
      let e := fresh "e" in
      let c := fresh "c" in
      let E := fresh "E" in
      destruct (apiCall_answered r z f st) as (a & e & c & E);
      rewrite E; clear E; cbn [fst snd]
  end.

Ltac run_monad :=
  cbv beta delta [bind ret getS getW modifyS modifyW Errorln Warningln Debugln Println logln]
      iota zeta;
  cbn [fst snd].

(** What [cleanupResources] does to the world, and that it leaves the
    executor alone. *)
Lemma cleanupResources_spec st :
  let st' := snd (cleanupResources st) in
  map fst (newCalls st st') = cleanupRequests (fst st)
  /\ newLog st st' = flat_map cleanupFailure (newCalls st st')
  /\ fst st' = fst st
  /\ trace (snd st') = trace (snd st).
Proof.
  destruct st as [s w]. unfold cleanupResources, cleanupRequests, newCalls, newLog.
  unfold Pods_Delete, Secrets_Delete, ConfigMaps_Delete, len, PropagationPolicy.
  run_monad.
  destruct (pod s) as [p|]; destruct (credentials s) as [cr|];
    destruct (configMap s) as [cm|]; run_monad;
    try destruct (metav1.OwnerReferences (api.SecretMeta cr));
    try destruct (metav1.OwnerReferences (api.ConfigMapMeta cm));
    cbn [List.length Nat.eqb]; run_monad;
    repeat (api_step; match goal with e : option error |- _ => destruct e end; run_monad);
    cbn [answered logged requests buildLog trace fst snd];
    rewrite <- ?app_assoc, ?skipn_length_app, ?skipn_length_self;
    cbn; auto.
Qed.

Lemma Cleanup_unfold st :
  Cleanup st =
    (tt, (setCurrentStage common.ExecutorStageCleanup
            (setKubeClientClosed true (fst (snd (cleanupResources st)))),
          snd (snd (cleanupResources st)))).
Proof.
  unfold Cleanup, closeKubeClient, AbstractExecutor_Cleanup. run_monad.
  destruct (cleanupResources st) as [u [s' w']]. reflexivity.
Qed.

Lemma Cleanup_requests st :
  map fst (newCalls st (snd (Cleanup st))) = cleanupRequests (fst st).
Proof.
  rewrite Cleanup_unfold. cbn [fst snd].
  destruct (cleanupResources_spec st) as (Hc & _).
  unfold newCalls in *. cbn [fst snd]. exact Hc.
Qed.

(** C5. [Cleanup] issues exactly the deletions of [cleanupRequests], in
    that order: the pod, with foreground propagation, when the pod handle is
    set; the credentials secret and the scripts config-map when their handle
    is set and lists no owner reference. Each deletion that is answered with
    an error leaves its line in the build log, nothing else is logged, and
    [Cleanup], which has no result, only marks the executor as cleaned up. *)
Theorem Cleanup_deletes_and_logs st :
  let st' := snd (Cleanup st) in
  map fst (newCalls st st') = cleanupRequests (fst st)
  /\ newLog st st' = flat_map cleanupFailure (newCalls st st')
  /\ fst st' = setCurrentStage common.ExecutorStageCleanup
                               (setKubeClientClosed true (fst st)).
Proof.
  cbv zeta. rewrite Cleanup_unfold. cbn [fst snd].
  destruct (cleanupResources_spec st) as (Hc & Hl & Hs & _).
  unfold newCalls, newLog in *. cbn [fst snd]. rewrite Hs. auto.
Qed.

Lemma Finish_unfold err st :
  Finish err st =
    (tt, (setCurrentStage common.ExecutorStageFinish
            (if IsKubernetesPodNotFoundError err then setPod None (fst st) else fst st),
          snd st)).
Proof.
  unfold Finish, AbstractExecutor_Finish. run_monad.
  destruct (IsKubernetesPodNotFoundError err), st; reflexivity.
Qed.

Lemma NotFound_pods_wrapped prefixes :
  IsKubernetesPodNotFoundError
    (Some (fold_right wrapError (StatusError 404 (Some "pods")) prefixes)) = true.
Proof.
  unfold IsKubernetesPodNotFoundError, errors_As.
  induction prefixes as [|p ps IH]; simpl; auto.
Qed.

(** C8, as amended. [Finish] clears the pod handle when its argument is a
    pod-not-found error (a 404 status error about pods, wrapped or not) and
    leaves it alone otherwise; in both cases it sets the current stage of the
    embedded abstract executor to [ExecutorStageFinish] and changes no other
    field, nor the world. The [Cleanup] that follows asks for the deletion
    of a pod exactly when the error was no pod-not-found error and the pod
    handle was set. *)
Theorem Finish_clears_pod_on_not_found err st :
  Finish err st =
    (tt, (setCurrentStage common.ExecutorStageFinish
            (if IsKubernetesPodNotFoundError err then setPod None (fst st) else fst st),
          snd st))
  /\ (forall prefixes,
        IsKubernetesPodNotFoundError
          (Some (fold_right wrapError (StatusError 404 (Some "pods")) prefixes)) = true)
  /\ (let st1 := snd (Finish err st) in
      existsb isDeletePod (map fst (newCalls st1 (snd (Cleanup st1))))
      = negb (IsKubernetesPodNotFoundError err)
        && match pod (fst st) with Some _ => true | None => false end).
Proof.
  split; [apply Finish_unfold|]. split; [apply NotFound_pods_wrapped|].
  cbv zeta. rewrite Finish_unfold. cbn [snd].
  rewrite Cleanup_requests. unfold cleanupRequests. destruct st as [s w].
  destruct (IsKubernetesPodNotFoundError err);
    cbn [fst snd setCurrentStage setPod pod credentials configMap Config];
    destruct (pod s); destruct (credentials s) as [c|]; destruct (configMap s) as [m|];
    try destruct (metav1.OwnerReferences (api.SecretMeta c));
    try destruct (metav1.OwnerReferences (api.ConfigMapMeta m)); reflexivity.
Qed.

(** *** The log demultiplexer *)

Lemma processLogs_spec events : forall st,
  let st' := snd (processLogs events st) in
  fst st' = setRemoteProcessTerminated
              (remoteProcessTerminated (fst st) ++ flat_map statusOf (handled events))%list
              (fst st)
  /\ trace (snd st') = (trace (snd st) ++ flat_map chunkOf (handled events))%list
  /\ cluster (snd st') = cluster (snd st)
  /\ faults (snd st') = faults (snd st)
  /\ requests (snd st') = requests (snd st).
Proof.
  induction events as [|ev rest IH]; intros [s w]; cbv zeta.
  - cbn. rewrite !app_nil_r. destruct s; auto.
  - destruct ev as [line| |err|]; cbn [processLogs handled flat_map statusOf chunkOf].
    + destruct (TryUnmarshal line) as [status|].
      * unfold send. run_monad.
        match goal with |- context [processLogs rest ?x] =>
          destruct (IH x) as (E1 & E2 & E3 & E4 & E5) end.
        rewrite E1, E2, E3, E4, E5. cbn. rewrite <- app_assoc. auto.
      * unfold Trace_Write. run_monad.
        destruct (traceFaults w) as [|[e|] tf]; run_monad;
          match goal with |- context [processLogs rest ?x] =>
            destruct (IH x) as (E1 & E2 & E3 & E4 & E5) end;
          rewrite E1, E2, E3, E4, E5; cbn; rewrite <- app_assoc; auto.
    + cbn. rewrite !app_nil_r. destruct s; auto.
    + unfold send. run_monad.
      match goal with |- context [processLogs rest ?x] =>
        destruct (IH x) as (E1 & E2 & E3 & E4 & E5) end.
      rewrite E1, E2, E3, E4, E5. cbn. rewrite <- app_assoc. auto.
    + apply IH.
Qed.

Lemma append_newline_inj a b : a ++ newline = b ++ newline -> a = b.
Proof.
  revert b. induction a as [|c a IH]; intros [|d b] E; cbn in E; auto.
  - destruct b; discriminate.
  - destruct a; discriminate.
  - inversion E; subst. f_equal. auto.
Qed.

Lemma chunks_are_plain_lines events :
  Forall (fun chunk => exists line, chunk = line ++ newline /\ TryUnmarshal line = None)
         (flat_map chunkOf (handled events)).
Proof.
  induction events as [|ev rest IH]; cbn; auto.
  destruct ev as [line| |err|]; cbn; auto.
  destruct (TryUnmarshal line) eqn:E; cbn; auto.
  constructor; eauto.
Qed.

(** C2. Of the lines the log processor delivers, those that parse as an
    exit status are sent to [remoteProcessTerminated], in order, and are
    not written to the trace; every other line is written to the trace with
    a newline appended, in order. So every chunk the demultiplexer writes is
    a line that is no sentinel, and no sentinel line is written. *)
Theorem processLogs_keeps_sentinels_out_of_trace events st :
  let st' := snd (processLogs events st) in
  remoteProcessTerminated (fst st')
  = (remoteProcessTerminated (fst st) ++ flat_map statusOf (handled events))%list
  /\ newTrace st st' = flat_map chunkOf (handled events)
  /\ Forall (fun chunk => exists line, chunk = line ++ newline /\ TryUnmarshal line = None)
            (newTrace st st')
  /\ (forall line status,
         TryUnmarshal line = Some status -> ~ In (line ++ newline) (newTrace st st')).
Proof.
  cbv zeta. destruct (processLogs_spec events st) as (E1 & E2 & _).
  assert (T : newTrace st (snd (processLogs events st)) = flat_map chunkOf (handled events)).
  { unfold newTrace. rewrite E2. apply skipn_length_app. }
  rewrite T, E1. repeat split; auto using chunks_are_plain_lines.
  intros line status E I.
  pose proof (chunks_are_plain_lines events) as F.
  rewrite Forall_forall in F. destruct (F _ I) as (line' & E' & N).
  apply append_newline_inj in E'. subst. congruence.
Qed.

(** *** The stage driver *)

Lemma runWithAttach_unfold cmd env st :
  runWithAttach cmd env st =
    let (err, st1) := ensurePodsConfigured env st in
    match err with
    | Some e => (Returned (Some e), st1)
    | None =>
        let info := getContainerInfo (fst st1) cmd in
        let st2 := (fst st1,
                    logged LDebug (startingIn (fst info) (snd info) (common.Script cmd))
                           (snd st1)) in
        let st3 := snd (processLogs (logEvents env) st2) in
        match pod (fst st1) with
        | None => (Panicked, st3)
        | Some p =>
            let (errCh, st4) := runInContainer (remote env) st3 in
            match errCh with
            | None => (Panicked, st4)
            | Some errCh => selectAttach p (fst info) errCh Watching false (schedule env) st4
            end
        end
    end.
Proof.
  unfold runWithAttach. unfold bind at 1.
  destruct (ensurePodsConfigured env st) as [[e|] [s1 w1]]; [reflexivity|].
  run_monad. destruct (getContainerInfo s1 cmd) as [cn cc]. run_monad.
  unfold logged.
  destruct (processLogs (logEvents env) _) as [u st3]. cbn [fst snd].
  destruct (pod s1); [|reflexivity].
  destruct (runInContainer (remote env) st3) as [[errCh|] st4]; reflexivity.
Qed.

Lemma ensurePodsConfigured_configured env st p :
  pod (fst st) = Some p -> ensurePodsConfigured env st = (None, st).
Proof.
  intros E. unfold ensurePodsConfigured. run_monad. rewrite E. destruct st; reflexivity.
Qed.

Lemma runInContainer_spec attachErr st :
  receiving (fst st) = 0 ->
  runInContainer attachErr st =
    match remoteProcessTerminated (fst st) with
    | [] =>
        (Some (attachSent attachErr),
         (setReceiving 1 (setRemoteProcessTerminated [] (fst st)), snd st))
    | exitStatus :: rest =>
        let st' := (setReceiving 0 (setRemoteProcessTerminated rest (fst st)), snd st) in
        match shells.CommandExitCode exitStatus with
        | None => (None, st')
        | Some code =>
            (Some (attachSent attachErr
                     ++ [if (code =? 0)%Z then None
                         else Some (commandTerminatedError code)])%list, st')
        end
    end.
Proof.
  intros R. unfold runInContainer, attachSent. run_monad.
  destruct st as [s w]. cbn [fst snd] in *.
  rewrite R. cbn [firstn skipn existsb len List.length Nat.sub].
  destruct (remoteProcessTerminated s) as [|ex rest]; [reflexivity|].
  run_monad. destruct (shells.CommandExitCode ex) as [code|]; [|reflexivity].
  destruct (code =? 0)%Z; reflexivity.
Qed.

Lemma existsb_nilExitCode l : Forall hasExitCode l -> existsb nilExitCode l = false.
Proof.
  induction 1 as [|x l Hx _ IH]; [reflexivity|].
  cbn. rewrite IH. unfold nilExitCode, hasExitCode in *.
  destruct (shells.CommandExitCode x); [reflexivity|contradiction].
Qed.

(** The goroutine of [runInContainer] touches the channel only; and it
    dereferences no nil pointer when the statuses carry their code. *)
Lemma runInContainer_world attachErr st :
  snd (snd (runInContainer attachErr st)) = snd st
  /\ pod (fst (snd (runInContainer attachErr st))) = pod (fst st)
  /\ (Forall hasExitCode (remoteProcessTerminated (fst st)) ->
      fst (runInContainer attachErr st) <> None).
Proof.
  unfold runInContainer. run_monad. destruct st as [s w]. cbn [fst snd].
  set (n := receiving s). set (q := remoteProcessTerminated s).
  assert (F : Forall hasExitCode q ->
              existsb nilExitCode (firstn n q) = false
              /\ Forall hasExitCode (skipn n q)).
  { intros F. rewrite <- (firstn_skipn n q) in F. apply Forall_app in F.
    destruct F as [F1 F2]. split; [apply existsb_nilExitCode|]; assumption. }
  destruct (existsb nilExitCode (firstn n q)) eqn:E; run_monad.
  { repeat split. intros Q. destruct (F Q) as [D _]. discriminate D. }
  destruct (skipn n q) as [|ex rest] eqn:K; run_monad.
  { repeat split. discriminate. }
  destruct (shells.CommandExitCode ex) as [code|] eqn:C.
  - destruct (code =? 0)%Z; repeat split; discriminate.
  - repeat split. intros Q. destruct (F Q) as [_ D]. inversion D as [|? ? Hx _]; subst.
    contradiction.
Qed.

Lemma selectAttach_takes_container pre :
  forall p name v errCh watch cancelled rest st,
    forallb (fun ev => negb (isSelect ev)) pre = true ->
    fst (selectAttach p name (v :: errCh) watch cancelled (pre ++ SelectContainer :: rest) st)
    = Returned (containerResult v).
Proof.
  induction pre as [|ev pre IH]; intros p name v errCh watch cancelled rest st Hpre.
  - cbn [app selectAttach]. run_monad. unfold containerResult.
    destruct (errors_As isCommandTerminatedError v) as [[]|]; reflexivity.
  - cbn [forallb] in Hpre. apply andb_prop in Hpre. destruct Hpre as [Hev Hpre].
    destruct ev; try discriminate; cbn [app selectAttach]; run_monad; auto.
    + destruct watch; auto. run_monad.
      destruct (checkPodStatus p st) as [[e|] st']; auto.
    + destruct watch, cancelled; auto.
Qed.

Lemma selectAttach_takes_pod_status pre :
  forall p name errCh e cancelled rest st,
    forallb (fun ev => negb (isSelect ev)) pre = true ->
    fst (selectAttach p name errCh (Delivered e) cancelled (pre ++ SelectPodStatus :: rest) st)
    = Returned (podStatusResult (Some e)).
Proof.
  induction pre as [|ev pre IH]; intros p name errCh e cancelled rest st Hpre.
  - cbn [app selectAttach]. run_monad. unfold podStatusResult.
    destruct (IsKubernetesPodNotFoundError (Some e)); reflexivity.
  - cbn [forallb] in Hpre. apply andb_prop in Hpre. destruct Hpre as [Hev Hpre].
    destruct ev; try discriminate; cbn [app selectAttach]; run_monad; auto.
Qed.

(** A poll that the API server answers: what the watcher gets, and that
    the store stays as it is. *)
Lemma checkPodStatus_served p st :
  faults (snd st) = [] ->
  fst (checkPodStatus p st) =
    match podIn p (cluster (snd st)) with
    | None => Some (kube.NewNotFound "pods")
    | Some q =>
        if PodPhase_eqb (api.Phase q) PodRunning then None
        else Some (podPhaseError (metav1.Name (api.PodMeta p)) (api.Phase q))
    end
  /\ cluster (snd (snd (checkPodStatus p st))) = cluster (snd st)
  /\ faults (snd (snd (checkPodStatus p st))) = [].
Proof.
  intros Hf. unfold checkPodStatus, Pods_Get, apiCall, kube.getPod, podIn. run_monad.
  destruct st as [s w]. cbn [fst snd] in *. rewrite Hf.
  destruct (find _ (kube.Pods (cluster w))) as [q|]; cbn;
    try destruct (PodPhase_eqb (api.Phase q) PodRunning); cbn; auto.
Qed.

Lemma clusterAfter_app l l' c :
  clusterAfter (l ++ l')%list c = clusterAfter l' (clusterAfter l c).
Proof. apply fold_left_app. Qed.

(** While every poll finds the pod running, the watcher sends nothing. *)
Lemma selectAttach_keeps_watching before :
  forall p name errCh cancelled rest st,
    forallb (fun ev => negb (isSelect ev)) before = true ->
    ~ In WatcherExit before ->
    faults (snd st) = [] ->
    (forall b1 b2,
        before = (b1 ++ Tick :: b2)%list ->
        exists q, podIn p (clusterAfter b1 (cluster (snd st))) = Some q
                  /\ api.Phase q = PodRunning) ->
    exists cancelled' st',
      selectAttach p name errCh Watching cancelled (before ++ rest) st
      = selectAttach p name errCh Watching cancelled' rest st'
      /\ cluster (snd st') = clusterAfter before (cluster (snd st))
      /\ faults (snd st') = [].
Proof.
  induction before as [|ev before IH]; intros p name errCh cancelled rest st Hsel Hexit Hf Hrun.
  - exists cancelled, st. auto.
  - cbn [forallb] in Hsel. apply andb_prop in Hsel. destruct Hsel as [Hev Hsel].
    assert (Hexit' : ~ In WatcherExit before) by (intros I; apply Hexit; right; exact I).
    destruct ev; try discriminate; cbn [app selectAttach]; run_monad.
    + (* Tick *)
      destruct (Hrun [] before eq_refl) as (q & Fq & Rq). cbn in Fq.
      destruct (checkPodStatus_served p st Hf) as (K & C & F).
      rewrite Fq, Rq in K.
      change (PodPhase_eqb PodRunning PodRunning) with true in K. cbv iota in K.
      destruct (checkPodStatus p st) as [r st2]. cbn [fst snd] in *. subst r.
      destruct (@IH p name errCh cancelled rest st2 Hsel Hexit' F) as (c' & st' & E & C' & F').
      { intros b1 b2 Hb. rewrite C. apply (Hrun (Tick :: b1) b2). rewrite Hb. reflexivity. }
      exists c', st'. rewrite C' , C. auto.
    + (* Cancel *)
      destruct (@IH p name errCh true rest st Hsel Hexit' Hf) as (c' & st' & E & C' & F').
      { intros b1 b2 Hb. apply (Hrun (Cancel :: b1) b2). rewrite Hb. reflexivity. }
      exists c', st'. auto.
    + (* WatcherExit *)
      exfalso. apply Hexit. left. reflexivity.
    + (* External *)
      destruct st as [s w]. cbn [fst snd] in *.
      destruct (@IH p name errCh cancelled rest (s, setCluster (kube.act a (cluster w)) w)
                   Hsel Hexit' Hf) as (c' & st' & E & C' & F').
      { intros b1 b2 Hb. apply (Hrun (External a :: b1) b2). rewrite Hb. reflexivity. }
      exists c', st'. auto.
Qed.

Lemma handled_lines lines events :
  handled (map LogsLine lines ++ events)%list = (map LogsLine lines ++ handled events)%list.
Proof. induction lines; cbn; congruence. Qed.

Lemma plain_lines_no_status lines :
  (forall line, In line lines -> TryUnmarshal line = None) ->
  flat_map statusOf (map LogsLine lines) = [].
Proof.
  induction lines as [|l ls IH]; cbn; intros Hl; auto.
  rewrite (Hl l) by auto. cbn. auto.
Qed.

(** The stage from the point where the pod is configured: the log events
    are demultiplexed, the driver receives from the channel, the select
    runs. *)
Lemma runWithAttach_after_setup cmd env st st1 p :
  ensurePodsConfigured env st = (None, st1) ->
  pod (fst st1) = Some p ->
  exists st3,
    remoteProcessTerminated (fst st3)
    = (remoteProcessTerminated (fst st1) ++ flat_map statusOf (handled (logEvents env)))%list
    /\ receiving (fst st3) = receiving (fst st1)
    /\ cluster (snd st3) = cluster (snd st1)
    /\ faults (snd st3) = faults (snd st1)
    /\ runWithAttach cmd env st =
         let (errCh, st4) := runInContainer (remote env) st3 in
         match errCh with
         | None => (Panicked, st4)
         | Some errCh =>
             selectAttach p (fst (getContainerInfo (fst st1) cmd)) errCh Watching false
                          (schedule env) st4
         end.
Proof.
  intros Hens Hpod. rewrite runWithAttach_unfold, Hens. cbv zeta. rewrite Hpod.
  match goal with |- context [processLogs ?ev ?x] =>
    exists (snd (processLogs ev x));
    destruct (processLogs_spec ev x) as (E1 & _ & E3 & E4 & _) end.
  rewrite E1, E3, E4. cbn. auto.
Qed.

(** What the stage returns when the select takes the driver's channel
    first and the driver, no goroutine of an earlier stage being left in
    the receive, has received a status. *)
Lemma attach_stage_takes_container cmd env st st1 p status code pre rest :
  ensurePodsConfigured env st = (None, st1) ->
  pod (fst st1) = Some p ->
  receiving (fst st1) = 0 ->
  hd_error (remoteProcessTerminated (fst st1)
              ++ flat_map statusOf (handled (logEvents env)))%list = Some status ->
  shells.CommandExitCode status = Some code ->
  schedule env = (pre ++ SelectContainer :: rest)%list ->
  forallb (fun ev => negb (isSelect ev)) pre = true ->
  fst (runWithAttach cmd env st)
  = Returned (containerResult
                (hd None (attachSent (remote env)
                            ++ [if (code =? 0)%Z then None
                                else Some (commandTerminatedError code)]))).
Proof.
  intros Hens Hpod Hrecv Hhd Hcode Hsched Hpre.
  destruct (runWithAttach_after_setup cmd env st Hens Hpod) as (st3 & Q & V & _ & _ & R).
  rewrite R, runInContainer_spec, Q, Hsched by congruence. cbv zeta.
  destruct (remoteProcessTerminated (fst st1) ++ _)%list as [|x q]; [discriminate|].
  cbn in Hhd. injection Hhd as ->. rewrite Hcode.
  destruct (remote env) as [e|]; cbn [attachSent app hd];
    rewrite selectAttach_takes_container by assumption; reflexivity.
Qed.

Lemma containerResult_code code :
  containerResult (if (code =? 0)%Z then None else Some (commandTerminatedError code))
  = if (code =? 0)%Z then None
    else Some (BuildError (Some (commandTerminatedError code)) code).
Proof. destruct (code =? 0)%Z; reflexivity. Qed.

(** C3, as amended. In attach mode, once the pod is configured, when no
    goroutine of an earlier stage is left in its receive, the stage driver
    receives an exit status that carries a code, and the select takes the
    driver's channel before the pod-status channel or the cancellation: if
    the attach itself returned no error, the stage returns nil for the code
    0 and otherwise a [BuildError] whose [ExitCode] is that code and whose
    inner error is the [commandTerminatedError] of that code; if the attach
    returned an error, the stage returns what the select makes of that
    error, whatever the code: the error itself, unless it wraps a
    [commandTerminatedError]. *)
Theorem attach_stage_reports_exit_code cmd env st st1 p status code pre rest :
  ensurePodsConfigured env st = (None, st1) ->
  pod (fst st1) = Some p ->
  receiving (fst st1) = 0 ->
  hd_error (remoteProcessTerminated (fst st1)
              ++ flat_map statusOf (handled (logEvents env)))%list = Some status ->
  shells.CommandExitCode status = Some code ->
  schedule env = (pre ++ SelectContainer :: rest)%list ->
  forallb (fun ev => negb (isSelect ev)) pre = true ->
  (remote env = None ->
   fst (runWithAttach cmd env st)
   = Returned (if (code =? 0)%Z then None
               else Some (BuildError (Some (commandTerminatedError code)) code)))
  /\ (forall err,
         remote env = Some err ->
         fst (runWithAttach cmd env st) = Returned (containerResult (Some err))
         /\ (errors_As isCommandTerminatedError (Some err) = None ->
             fst (runWithAttach cmd env st) = Returned (Some err))).
Proof.
  intros Hens Hpod Hrecv Hhd Hcode Hsched Hpre.
  pose proof (@attach_stage_takes_container cmd env st st1 p status code pre rest
                Hens Hpod Hrecv Hhd Hcode Hsched Hpre) as R.
  split.
  - intros Hremote. rewrite R, Hremote. cbn [attachSent app hd].
    rewrite containerResult_code. reflexivity.
  - intros err Hremote. rewrite R, Hremote. cbn [attachSent app hd].
    split; [reflexivity|]. intros N. unfold containerResult. rewrite N. reflexivity.
Qed.

(** C4, as amended. In attach mode, with the pod configured, the exit
    statuses carrying their code and the API server answering every request:
    let a poll of the watcher be the first to find the pod in a phase other
    than Running, or to find no pod, every earlier poll of the stage having
    found it running and the watcher not having exited, and let the select
    then take the pod-status channel before the two others. If the pod is
    there in a phase other than Running, the stage returns a [BuildError]
    (exit code 0) around the pod-phase error of that phase, which is the
    type that reports a build failure; if the pod is gone, the stage returns
    the 404 status error about pods itself, which is no [BuildError]. *)
Theorem pod_phase_failure_is_a_BuildError cmd env st st1 p before after rest :
  ensurePodsConfigured env st = (None, st1) ->
  pod (fst st1) = Some p ->
  Forall hasExitCode (remoteProcessTerminated (fst st1)
                        ++ flat_map statusOf (handled (logEvents env)))%list ->
  faults (snd st1) = [] ->
  schedule env = (before ++ Tick :: after ++ SelectPodStatus :: rest)%list ->
  forallb (fun ev => negb (isSelect ev)) before = true ->
  forallb (fun ev => negb (isSelect ev)) after = true ->
  ~ In WatcherExit before ->
  (forall b1 b2,
      before = (b1 ++ Tick :: b2)%list ->
      exists q, podIn p (clusterAfter b1 (cluster (snd st1))) = Some q
                /\ api.Phase q = PodRunning) ->
  let found := podIn p (clusterAfter before (cluster (snd st1))) in
  (forall q,
      found = Some q ->
      api.Phase q <> PodRunning ->
      fst (runWithAttach cmd env st)
      = Returned (Some (BuildError
                          (Some (podPhaseError (metav1.Name (api.PodMeta p)) (api.Phase q)))
                          0)))
  /\ (found = None ->
      fst (runWithAttach cmd env st) = Returned (Some (StatusError 404 (Some "pods")))
      /\ isBuildError (StatusError 404 (Some "pods")) = false).
Proof.
  intros Hens Hpod Hcodes Hf Hsched Hbefore Hafter Hexit Hrun.
  destruct (runWithAttach_after_setup cmd env st Hens Hpod) as (st3 & Q & _ & C & F & R).
  destruct (runInContainer_world (remote env) st3) as (W & _ & N).
  rewrite Q in N. specialize (N Hcodes).
  destruct (runInContainer (remote env) st3) as [[errCh|] st4]; [|contradiction N; reflexivity].
  cbn [fst snd] in *. clear N.
  destruct (@selectAttach_keeps_watching before p (fst (getContainerInfo (fst st1) cmd))
              errCh false (Tick :: after ++ SelectPodStatus :: rest) st4 Hbefore Hexit)
    as (cancelled' & st5 & E & C5 & F5).
  { rewrite W. congruence. }
  { intros b1 b2 Hb. rewrite W, C. apply (Hrun b1 b2 Hb). }
  rewrite W, C in C5.
  assert (R' : forall e, fst (checkPodStatus p st5) = Some e ->
                         fst (runWithAttach cmd env st) = Returned (podStatusResult (Some e))).
  { intros e Ke. rewrite R, Hsched, E. cbn [selectAttach]. unfold bind at 1.
    destruct (checkPodStatus p st5) as [r st6]. cbn [fst] in Ke. subst r.
    apply selectAttach_takes_pod_status. assumption. }
  destruct (checkPodStatus_served p st5 F5) as (K & _). rewrite C5 in K.
  cbv zeta. split.
  - intros q Fq Hph. rewrite Fq in K.
    destruct (PodPhase_eqb_spec (api.Phase q) PodRunning) as [|_]; [contradiction|].
    rewrite (R' _ K). reflexivity.
  - intros Fq. rewrite Fq in K. split; [|reflexivity]. rewrite (R' _ K). reflexivity.
Qed.

Lemma getExitCode_wrapped prefixes Err code :
  getExitCode (Some (fold_right wrapError (CodeExitError Err code) prefixes)) = code.
Proof.
  unfold getExitCode, errors_As. induction prefixes; cbn; auto.
Qed.

(** C10, as amended. When the error channel of the log processor delivers
    an error, [processLogs] sends an exit status made from it: its code is
    the code of the [exec.CodeExitError] the error wraps, and 1000 when it
    wraps none. With nothing else on the channel and no goroutine of an
    earlier stage left in its receive, the receive of the stage driver in
    [runInContainer] gets that status, so the driver goes on and sends,
    after the error of the attach if there is one, the value of that code
    on its channel. When the select then takes the driver's channel first,
    the stage returns that code if the attach returned no error: nil for 0,
    a [BuildError] with that [ExitCode] otherwise; and it returns what the
    select makes of the error of the attach if there is one. *)
Theorem log_processor_error_unblocks_stage cmd env st st1 p lines err more pre rest :
  ensurePodsConfigured env st = (None, st1) ->
  pod (fst st1) = Some p ->
  remoteProcessTerminated (fst st1) = [] ->
  receiving (fst st1) = 0 ->
  logEvents env = (map LogsLine lines ++ ErrsError err :: more)%list ->
  (forall line, In line lines -> TryUnmarshal line = None) ->
  schedule env = (pre ++ SelectContainer :: rest)%list ->
  forallb (fun ev => negb (isSelect ev)) pre = true ->
  let code := getExitCode err in
  let st3 := snd (processLogs (logEvents env) st1) in
  hd_error (remoteProcessTerminated (fst st3))
  = Some {| shells.CommandExitCode := Some code; shells.Script := None |}
  /\ (forall attachErr,
        fst (runInContainer attachErr st3)
        = Some (attachSent attachErr
                  ++ [if (code =? 0)%Z then None
                      else Some (commandTerminatedError code)])%list)
  /\ (remote env = None ->
      fst (runWithAttach cmd env st)
      = Returned (if (code =? 0)%Z then None
                  else Some (BuildError (Some (commandTerminatedError code)) code)))
  /\ (forall attachErr,
        remote env = Some attachErr ->
        fst (runWithAttach cmd env st) = Returned (containerResult (Some attachErr)))
  /\ (forall prefixes Err c,
        getExitCode (Some (fold_right wrapError (CodeExitError Err c) prefixes)) = c)
  /\ (errors_As isCodeExitError err = None -> code = 1000%Z).
Proof.
  intros Hens Hpod Hq Hrecv Hlog Hlines Hsched Hpre code st3.
  assert (S : flat_map statusOf (handled (logEvents env))
              = {| shells.CommandExitCode := Some code; shells.Script := None |}
                  :: flat_map statusOf (handled more)).
  { rewrite Hlog, handled_lines, flat_map_app, plain_lines_no_status by assumption.
    reflexivity. }
  destruct (processLogs_spec (logEvents env) st1) as (E1 & _).
  assert (Q : remoteProcessTerminated (fst st3)
              = {| shells.CommandExitCode := Some code; shells.Script := None |}
                  :: flat_map statusOf (handled more)).
  { subst st3. rewrite E1. cbn. rewrite Hq, S. reflexivity. }
  assert (V : receiving (fst st3) = 0).
  { subst st3. rewrite E1. exact Hrecv. }
  assert (R : fst (runWithAttach cmd env st)
              = Returned (containerResult
                            (hd None (attachSent (remote env)
                                        ++ [if (code =? 0)%Z then None
                                            else Some (commandTerminatedError code)])))).
  { apply attach_stage_takes_container with
      (st1 := st1) (p := p)
      (status := {| shells.CommandExitCode := Some code; shells.Script := None |})
      (pre := pre) (rest := rest); auto.
    rewrite Hq, S. reflexivity. }
  split; [rewrite Q; reflexivity|].
  split.
  { intros attachErr. rewrite runInContainer_spec, Q by exact V. reflexivity. }
  split.
  { intros Hremote. rewrite R, Hremote. cbn [attachSent app hd].
    apply f_equal, containerResult_code. }
  split.
  { intros attachErr Hremote. rewrite R, Hremote. reflexivity. }
  split; [apply getExitCode_wrapped|].
  intros N. subst code. unfold getExitCode. rewrite N. reflexivity.
Qed.

(** *** The retry loop of Run *)




(** *** Cleanup twice *)

Lemma find_filter_none {A} (f g : A -> bool) l :
  find f l = None -> find f (filter g l) = None.
Proof.
  induction l as [|a l IH]; cbn; auto.
  destruct (f a) eqn:Fa; [discriminate|]. intros E.
  destruct (g a); cbn; rewrite ?Fa; auto.
Qed.

Lemma find_filter_negb {A} (f : A -> bool) l :
  find f (filter (fun y => negb (f y)) l) = None.
Proof.
  induction l as [|a l IH]; cbn; auto.
  destruct (f a) eqn:Fa; cbn; rewrite ?Fa; auto.
Qed.

Lemma existsb_filter_false {A} (f g : A -> bool) l :
  existsb f l = false -> existsb f (filter g l) = false.
Proof.
  induction l as [|a l IH]; cbn; auto.
  destruct (f a) eqn:Fa; [discriminate|]. cbn. intros E.
  destruct (g a); cbn; rewrite ?Fa; auto.
Qed.

Lemma existsb_filter_negb {A} (f : A -> bool) l :
  existsb f (filter (fun y => negb (f y)) l) = false.
Proof.
  induction l as [|a l IH]; cbn; auto.
  destruct (f a) eqn:Fa; cbn; rewrite ?Fa; auto.
Qed.

Lemma rejects_after r c : rejects r (settle (serveDelete r c) c) = true.
Proof.
  unfold rejects.
  destruct r; cbn [serveDelete]; try reflexivity.
  - unfold kube.deletePod.
    destruct (find _ (kube.Pods c)) eqn:F; cbn [settle]; [|rewrite F; reflexivity].
    cbn [kube.Pods]. unfold kube.without. rewrite find_filter_negb. reflexivity.
  - unfold kube.deleteSecret.
    destruct (existsb _ (kube.Secrets c)) eqn:F; cbn [settle]; [|rewrite F; reflexivity].
    cbn [kube.Secrets]. unfold kube.without. rewrite existsb_filter_negb. reflexivity.
  - unfold kube.deleteConfigMap.
    destruct (existsb _ (kube.ConfigMaps c)) eqn:F; cbn [settle]; [|rewrite F; reflexivity].
    cbn [kube.ConfigMaps]. unfold kube.without. rewrite existsb_filter_negb. reflexivity.
Qed.

Lemma rejects_settle r r' c :
  rejects r c = true -> rejects r (settle (serveDelete r' c) c) = true.
Proof.
  unfold rejects.
  destruct (serveDelete r' c) as [[u c']|e] eqn:D; cbn [settle]; auto.
  destruct r'; cbn [serveDelete] in D; try discriminate.
  - unfold kube.deletePod in D.
    destruct (find _ (kube.Pods c)) as [q|]; [|discriminate].
    injection D as _ D; subst c'.
    destruct r; cbn [serveDelete]; auto.
    + unfold kube.deletePod. cbn [kube.Pods]. unfold kube.without.
      destruct (find _ (kube.Pods c)) eqn:F; [discriminate|].
      rewrite find_filter_none by assumption. reflexivity.
    + unfold kube.deleteSecret. cbn [kube.Secrets].
      destruct (existsb _ (kube.Secrets c)) eqn:F; [discriminate|].
      destruct (kube.cascades policy); [|rewrite F; reflexivity].
      unfold kube.orphans. rewrite existsb_filter_false by assumption. reflexivity.
    + unfold kube.deleteConfigMap. cbn [kube.ConfigMaps].
      destruct (existsb _ (kube.ConfigMaps c)) eqn:F; [discriminate|].
      destruct (kube.cascades policy); [|rewrite F; reflexivity].
      unfold kube.orphans. rewrite existsb_filter_false by assumption. reflexivity.
  - unfold kube.deleteSecret in D.
    destruct (existsb _ (kube.Secrets c)); [|discriminate].
    injection D as _ D; subst c'.
    destruct r; cbn [serveDelete]; auto.
    + unfold kube.deletePod. cbn [kube.Pods].
      destruct (find _ (kube.Pods c)); [discriminate|reflexivity].
    + unfold kube.deleteSecret. cbn [kube.Secrets]. unfold kube.without.
      destruct (existsb _ (kube.Secrets c)) eqn:F; [discriminate|].
      rewrite existsb_filter_false by assumption. reflexivity.
    + unfold kube.deleteConfigMap. cbn [kube.ConfigMaps].
      destruct (existsb _ (kube.ConfigMaps c)); [discriminate|reflexivity].
  - unfold kube.deleteConfigMap in D.
    destruct (existsb _ (kube.ConfigMaps c)); [|discriminate].
    injection D as _ D; subst c'.
    destruct r; cbn [serveDelete]; auto.
    + unfold kube.deletePod. cbn [kube.Pods].
      destruct (find _ (kube.Pods c)); [discriminate|reflexivity].
    + unfold kube.deleteSecret. cbn [kube.Secrets].
      destruct (existsb _ (kube.Secrets c)); [discriminate|reflexivity].
    + unfold kube.deleteConfigMap. cbn [kube.ConfigMaps]. unfold kube.without.
      destruct (existsb _ (kube.ConfigMaps c)) eqn:F; [discriminate|].
      rewrite existsb_filter_false by assumption. reflexivity.
Qed.

Lemma rejects_replay r reqs : forall c,
  rejects r c = true -> rejects r (replay reqs c) = true.
Proof.
  induction reqs as [|r' rs IH]; cbn; auto using rejects_settle.
Qed.

Lemma replay_rejects reqs : forall c,
  Forall (fun r => rejects r (replay reqs c) = true) reqs.
Proof.
  induction reqs as [|r rs IH]; intros c; cbn; constructor.
  - apply rejects_replay, rejects_after.
  - apply IH.
Qed.

Lemma replay_rejected reqs : forall c,
  Forall (fun r => rejects r c = true) reqs ->
  replay reqs c = c
  /\ Forall (fun a => a <> None) (answers reqs c).
Proof.
  induction reqs as [|r rs IH]; intros c F; cbn; [auto|].
  inversion F as [|? ? R F']; subst. unfold rejects in R.
  destruct (serveDelete r c) as [[u c']|e]; [discriminate|]. cbn [settle errorOf].
  destruct (IH c F') as (E & A). split; auto. constructor; [discriminate|auto].
Qed.

Lemma apiCall_fault_free {A} req (zero : A) serve st :
  faults (snd st) = [] ->
  apiCall req zero serve st =
    ((match serve (cluster (snd st)) with inl (a, _) => a | inr _ => zero end,
      errorOf (serve (cluster (snd st)))),
     (fst st,
      answered req (errorOf (serve (cluster (snd st))))
               (settle (serve (cluster (snd st))) (cluster (snd st))) (snd st))).
Proof.
  intros F. unfold apiCall, answered. rewrite F.
  destruct (serve (cluster (snd st))) as [[a c]|e]; reflexivity.
Qed.

(** Without transport failures [cleanupResources] is the replay of its
    deletions against the store. *)
Lemma cleanupResources_fault_free st :
  faults (snd st) = [] ->
  let st' := snd (cleanupResources st) in
  cluster (snd st') = replay (cleanupRequests (fst st)) (cluster (snd st))
  /\ faults (snd st') = []
  /\ newCalls st st'
     = combine (cleanupRequests (fst st)) (answers (cleanupRequests (fst st)) (cluster (snd st))).
Proof.
  destruct st as [s w]. cbn [fst snd]. intros Hf.
  unfold cleanupResources, cleanupRequests, newCalls.
  unfold Pods_Delete, Secrets_Delete, ConfigMaps_Delete, len, PropagationPolicy.
  run_monad.
  destruct (pod s) as [p|]; destruct (credentials s) as [cr|];
    destruct (configMap s) as [cm|]; run_monad;
    try destruct (metav1.OwnerReferences (api.SecretMeta cr));
    try destruct (metav1.OwnerReferences (api.ConfigMapMeta cm));
    cbn [List.length Nat.eqb app replay answers combine serveDelete]; run_monad;
    repeat (rewrite apiCall_fault_free by (cbn; rewrite ?Hf; reflexivity);
            cbn [fst snd cluster answered];
            match goal with
            | |- context [errorOf ?x] => destruct x as [[? ?]|?]; cbn [errorOf settle]
            end; run_monad);
    cbn [answered cluster faults requests fst snd tl app replay answers combine serveDelete
         settle errorOf];
    rewrite ?Hf, <- ?app_assoc, ?skipn_length_app, ?skipn_length_self;
    repeat match goal with
           | H : _ = _ |- _ => rewrite H
           end;
    cbn; auto.
Qed.

Lemma cleanupRequests_deletions s :
  Forall (fun r => isDeletion r = true) (cleanupRequests s).
Proof.
  unfold cleanupRequests.
  destruct (pod s) as [p|]; destruct (credentials s) as [cr|];
    destruct (configMap s) as [cm|];
    try destruct (metav1.OwnerReferences (api.SecretMeta cr));
    try destruct (metav1.OwnerReferences (api.ConfigMapMeta cm));
    cbn; repeat constructor.
Qed.

Lemma answers_length reqs : forall c, List.length (answers reqs c) = List.length reqs.
Proof. induction reqs; intros; cbn; auto. Qed.

Lemma map_fst_combine_answers reqs c : map fst (combine reqs (answers reqs c)) = reqs.
Proof.
  generalize (answers_length reqs c). generalize (answers reqs c).
  induction reqs as [|r rs IH]; intros [|a l] E; cbn in *; try discriminate; auto.
  f_equal. auto.
Qed.

Lemma answers_rejected reqs : forall c,
  Forall (fun r => rejects r c = true) reqs ->
  answers reqs c = map (fun r => errorOf (serveDelete r c)) reqs.
Proof.
  induction reqs as [|r rs IH]; intros c F; cbn; [auto|].
  inversion F as [|? ? R F']; subst. unfold rejects in R.
  destruct (serveDelete r c) as [[u c']|e] eqn:D; [discriminate|]. cbn [settle errorOf].
  rewrite IH by assumption. reflexivity.
Qed.

Lemma cleanupRequests_not_found s c :
  Forall (fun r => rejects r c = true) (cleanupRequests s) ->
  Forall (fun call => exists kind, snd call = Some (kube.NewNotFound kind))
         (combine (cleanupRequests s) (answers (cleanupRequests s) c)).
Proof.
  intros F. rewrite answers_rejected by assumption.
  revert F. generalize (cleanupRequests_deletions s).
  induction (cleanupRequests s) as [|r rs IH]; intros D F; cbn; constructor.
  - inversion D as [|? ? Dr _]; inversion F as [|? ? Rr _]; subst. cbn [snd].
    unfold rejects in Rr.
    destruct r; try discriminate; cbn [serveDelete] in *.
    + unfold kube.deletePod in *. destruct (find _ (kube.Pods c)); [discriminate|].
      cbn. eauto.
    + unfold kube.deleteSecret in *. destruct (existsb _ (kube.Secrets c)); [discriminate|].
      cbn. eauto.
    + unfold kube.deleteConfigMap in *.
      destruct (existsb _ (kube.ConfigMaps c)); [discriminate|].
      cbn. eauto.
  - inversion D; inversion F; subst. auto.
Qed.

Lemma no_effective_delete calls :
  Forall (fun call : kube.Request * option error =>
            exists kind, snd call = Some (kube.NewNotFound kind)) calls ->
  filter effectivePodDelete calls = [].
Proof.
  induction 1 as [|call calls (kind & E) _ IH]; cbn; auto.
  unfold effectivePodDelete at 1. rewrite E, andb_false_r. assumption.
Qed.

Lemma first_cleanup_effective s c :
  List.length (filter effectivePodDelete
                      (combine (cleanupRequests s) (answers (cleanupRequests s) c)))
  = match pod s with
    | Some p =>
        match find (fun q => kube.named (metav1.Namespace (api.PodMeta p))
                                        (metav1.Name (api.PodMeta p)) (api.PodMeta q))
                   (kube.Pods c) with
        | Some _ => 1
        | None => 0
        end
    | None => 0
    end.
Proof.
  unfold cleanupRequests.
  destruct (pod s) as [p|]; destruct (credentials s) as [cr|];
    destruct (configMap s) as [cm|];
    try destruct (metav1.OwnerReferences (api.SecretMeta cr));
    try destruct (metav1.OwnerReferences (api.ConfigMapMeta cm));
    cbn [app answers combine serveDelete filter effectivePodDelete fst snd isDeletePod
         andb List.length];
    try reflexivity;
    unfold kube.deletePod;
    destruct (find _ (kube.Pods c)); reflexivity.
Qed.

(** C7, as amended. When no request fails in transport, a second
    [Cleanup] leaves the objects of the cluster as the first one left them
    and does not change the executor; it asks for the same deletions, and
    each of them is answered with a 404 and changes nothing. Over the two
    calls the number of deletions that removed a pod is one when the pod
    handle is set and the pod is in the cluster, and zero otherwise. *)
Theorem Cleanup_idempotent st :
  faults (snd st) = [] ->
  let st1 := snd (Cleanup st) in
  let st2 := snd (Cleanup st1) in
  cluster (snd st2) = cluster (snd st1)
  /\ fst st2 = fst st1
  /\ map fst (newCalls st1 st2) = map fst (newCalls st st1)
  /\ Forall (fun call => exists kind, snd call = Some (kube.NewNotFound kind))
            (newCalls st1 st2)
  /\ List.length (filter effectivePodDelete (newCalls st st1 ++ newCalls st1 st2))
     = match pod (fst st) with
       | Some p =>
           match find (fun q => kube.named (metav1.Namespace (api.PodMeta p))
                                           (metav1.Name (api.PodMeta p)) (api.PodMeta q))
                      (kube.Pods (cluster (snd st))) with
           | Some _ => 1
           | None => 0
           end
       | None => 0
       end.
Proof.
  intros Hf. cbv zeta.
  destruct (cleanupResources_fault_free st Hf) as (C1 & F1 & N1).
  destruct (cleanupResources_spec st) as (_ & _ & S1 & _).
  rewrite (Cleanup_unfold st). cbn [fst snd]. rewrite S1.
  set (s1 := setCurrentStage common.ExecutorStageCleanup (setKubeClientClosed true (fst st))).
  set (w1 := snd (snd (cleanupResources st))) in *.
  assert (R : cleanupRequests s1 = cleanupRequests (fst st)) by reflexivity.
  destruct (cleanupResources_fault_free (s1, w1) F1) as (C2 & F2 & N2).
  destruct (cleanupResources_spec (s1, w1)) as (_ & _ & S2 & _).
  rewrite (Cleanup_unfold (s1, w1)). cbn [fst snd] in *. rewrite S2.
  assert (N1' : newCalls st (s1, w1)
                = combine (cleanupRequests (fst st))
                          (answers (cleanupRequests (fst st)) (cluster (snd st))))
    by exact N1.
  assert (N2' : newCalls (s1, w1)
                         (setCurrentStage common.ExecutorStageCleanup
                                          (setKubeClientClosed true s1),
                          snd (snd (cleanupResources (s1, w1))))
                = combine (cleanupRequests s1) (answers (cleanupRequests s1) (cluster w1)))
    by exact N2.
  rewrite N1', N2', R in *. clear N1 N2 N1' N2'.
  pose proof (replay_rejects (cleanupRequests (fst st)) (cluster (snd st))) as J.
  rewrite <- C1 in J.
  destruct (replay_rejected _ J) as (E & _).
  pose proof (cleanupRequests_not_found (fst st) (cluster w1) J) as NF.
  split; [rewrite C2; exact E|].
  split; [destruct (fst st); reflexivity|].
  split.
  { rewrite !map_fst_combine_answers. reflexivity. }
  split; [exact NF|].
  rewrite filter_app, length_app, (no_effective_delete NF), Nat.add_0_r.
  apply first_cleanup_effective.
Qed.

(** *** Building the pod *)

Ltac absurd_premise := let E := fresh in intros E; discriminate E.

Lemma getHelperImage_frame st : frame (snd (getHelperImage st)) = frame st.
Proof.
  destruct st as [s w]. unfold getHelperImage. run_monad.
  destruct (negb (Nat.eqb (String.length (HelperImage (Config s))) 0)); run_monad;
    [reflexivity|].
  destruct (negb (GitLabRegistryHelperImage (Config s))); reflexivity.
Qed.

Lemma pullPolicyFor_frame image st : frame (snd (pullPolicyFor image st)) = frame st.
Proof. destruct st as [s w]. reflexivity. Qed.

Lemma buildContainer_spec name image def command st :
  frame (snd (buildContainer name image def command st)) = frame st
  /\ (snd (fst (buildContainer name image def command st)) = None ->
      api.Name (fst (fst (buildContainer name image def command st))) = name).
Proof.
  destruct st as [s w]. unfold buildContainer, pullPolicyFor. run_monad.
  destruct (if String.prefix "svc-" name then _ else _) as [optionName allowedImages].
  destruct (VerifyAllowedImage _); run_monad;
    [cbn [fst snd]; split; [reflexivity|absurd_premise]|].
  destruct (negb (Nat.eqb (len _) 0)); run_monad;
    match goal with |- context [GetPullPolicyFor ?i ?m] =>
      destruct (GetPullPolicyFor i m) as [[policy [e|]] m'] end;
    cbn [fst snd]; run_monad;
    try (cbn [fst snd]; split; [reflexivity|absurd_premise]);
    destruct (getCommandAndArgs def command); run_monad; cbn [fst snd];
    split; reflexivity.
Qed.

Lemma buildServices_spec svcs : forall i st,
  frame (snd (buildServices i svcs st)) = frame st
  /\ (snd (fst (buildServices i svcs st)) = None ->
      map api.Name (fst (fst (buildServices i svcs st)))
      = map (fun k => "svc-" ++ nat_String k) (seq i (List.length svcs))).
Proof.
  induction svcs as [|svc rest IH]; intros i st.
  - split; reflexivity.
  - cbn [buildServices]. run_monad.
    destruct (buildContainer_spec ("svc-" ++ nat_String i) (common.Name svc) svc [] st)
      as (F1 & N1).
    destruct (buildContainer _ _ _ _ st) as [[c [e|]] st1]; cbn [fst snd] in *;
      run_monad; [split; [assumption|absurd_premise]|].
    destruct (IH (S i) st1) as (F2 & N2).
    destruct (buildServices (S i) rest st1) as [[cs [e|]] st2]; cbn [fst snd] in *;
      run_monad; (split; [congruence|]); [absurd_premise|].
    intros _. cbn. rewrite N1, N2 by reflexivity. reflexivity.
Qed.

Lemma getHostAliases_frame st : frame (snd (getHostAliases st)) = frame st.
Proof.
  destruct st as [s w]. unfold getHostAliases. run_monad.
  destruct (IsHostAliasSupported (Config s)) as [[|]|e|e]; run_monad; try reflexivity.
  destruct (createHostAliases (Config s)); reflexivity.
Qed.

Lemma buildPermissionsInitContainer_spec os st :
  frame (snd (buildPermissionsInitContainer os st)) = frame st
  /\ (snd (fst (buildPermissionsInitContainer os st)) = None ->
      api.Name (fst (fst (buildPermissionsInitContainer os st))) = "init-permissions").
Proof.
  unfold buildPermissionsInitContainer. run_monad.
  pose proof (getHelperImage_frame st) as F1.
  destruct (getHelperImage st) as [image st1]. cbn [snd] in F1.
  run_monad. pose proof (pullPolicyFor_frame image st1) as F2.
  destruct (pullPolicyFor image st1) as [[policy [e|]] st2]; cbn [fst snd] in *;
    run_monad; [split; [congruence|absurd_premise]|].
  pose proof (getHelperImage_frame st2) as F3.
  destruct (getHelperImage st2) as [image' st3]. cbn [fst snd] in *.
  split; [|reflexivity]. destruct st3; cbn in *. congruence.
Qed.

Lemma preparePodConfig_spec labels annotations services secrets aliases init st :
  let r := preparePodConfig labels annotations services secrets aliases init st in
  frame (snd r) = frame st
  /\ (snd (fst r) = None ->
      metav1.GenerateName (api.PodMeta (fst (fst r))) = ProjectUniqueName (Build (fst st))
      /\ metav1.OwnerReferences (api.PodMeta (fst (fst r))) = []
      /\ api.RestartPolicy_ (api.Spec (fst (fst r))) = api.RestartPolicyNever
      /\ api.InitContainers (api.Spec (fst (fst r))) = init
      /\ map api.Name (api.Containers (api.Spec (fst (fst r))))
         = "build" :: "helper" :: map api.Name services).
Proof.
  cbv zeta. unfold preparePodConfig. run_monad.
  destruct (buildContainer_spec buildContainerName (common.Name (Image (Build (fst st))))
                                (Image (Build (fst st))) (DockerCommand (Config (fst st))) st)
    as (F1 & N1).
  destruct (buildContainer _ _ _ _ st) as [[b [e|]] st1]; cbn [fst snd] in *;
    run_monad; [split; [assumption|absurd_premise]|].
  pose proof (getHelperImage_frame st1) as F2.
  destruct (getHelperImage st1) as [helperImage st2]. cbn [fst snd] in *.
  destruct (buildContainer_spec helperContainerName helperImage common.emptyImage
                                (DockerCommand (Config (fst st))) st2) as (F3 & N3).
  destruct (buildContainer _ _ _ _ st2) as [[h [e|]] st3]; cbn [fst snd] in *;
    run_monad; (split; [congruence|]); [absurd_premise|].
  intros _. cbn. rewrite N1, N3 by reflexivity. auto.
Qed.

(** *** Owner references and proxy services *)

Lemma setOwnerReferencesForResources_spec refs st :
  let r := setOwnerReferencesForResources refs st in
  exists updates,
    requests (snd (snd r)) = (requests (snd st) ++ updates)%list
    /\ createdPods updates = []
    /\ (exists k, map fst updates = firstn k (ownerUpdates (fst st) refs))
    /\ (forall req e, In (req, Some e) updates -> fst r = Some e)
    /\ ((forall call, In call updates -> snd call = None) ->
        fst r = None /\ map fst updates = ownerUpdates (fst st) refs)
    /\ pod (fst (snd r)) = pod (fst st)
    /\ Build (fst (snd r)) = Build (fst st)
    /\ Config (fst (snd r)) = Config (fst st)
    /\ ProxyPool (fst (snd r)) = ProxyPool (fst st).
Proof.
  destruct st as [s w]. cbv zeta.
  unfold setOwnerReferencesForResources, ownerUpdates, Secrets_Update, ConfigMaps_Update.
  run_monad.
  destruct (credentials s) as [cr|]; destruct (configMap s) as [cm|]; run_monad;
    repeat (api_step; match goal with e : option error |- _ => destruct e end; run_monad);
    cbn [answered requests fst snd pod Build Config ProxyPool setCredentials setConfigMap];
    eexists; (split; [rewrite <- ?app_assoc; cbn [app]; try reflexivity;
                      symmetry; apply app_nil_r|]);
    (split; [reflexivity|]);
    (split; [first [exists 2; reflexivity | exists 1; reflexivity | exists 0; reflexivity]|]);
    cbn [In]; repeat split; intros;
    repeat match goal with
           | H : _ \/ _ |- _ => destruct H
           | H : False |- _ => destruct H
           | H : (_, _) = (_, _) |- _ => injection H as ? ?; subst
           | H : forall call, _ -> snd call = None |- _ =>
               let K := fresh in
               first [ pose proof (H _ (or_introl eq_refl)) as K; discriminate K
                     | pose proof (H _ (or_intror (or_introl eq_refl))) as K; discriminate K ]
           end;
    try discriminate; try reflexivity.
Qed.

Lemma createServices_spec p refs pool : forall st,
  let r := createServices p refs pool st in
  exists creates,
    requests (snd (snd r)) = (requests (snd st) ++ creates)%list
    /\ Forall (fun call => isCreateService (fst call) = true
                           /\ ownerReferencesOf (fst call) = refs) creates
    /\ pod (fst (snd r)) = pod (fst st)
    /\ Build (fst (snd r)) = Build (fst st)
    /\ Config (fst (snd r)) = Config (fst st).
Proof.
  induction pool as [|[key settings] rest IH]; intros [s w]; cbv zeta.
  - exists []. cbn. rewrite app_nil_r. auto.
  - cbn [createServices]. unfold createKubernetesService, Services_Create. run_monad.
    api_step. destruct e; run_monad;
      match goal with |- context [createServices p refs rest ?x] =>
        destruct (IH x) as (creates & R & F & P & B & C);
        destruct (createServices p refs rest x) as [rs st2] end;
      cbn [fst snd answered requests pod Build Config setProxyPool] in *;
      eexists; (split; [rewrite R, <- app_assoc; reflexivity|]);
      (split; [constructor; [split; reflexivity|assumption]|]); auto.
Qed.

Lemma gatherServices_spec responses : forall acc st,
  requests (snd (snd (gatherServices responses acc st))) = requests (snd st)
  /\ fst (snd (gatherServices responses acc st)) = fst st.
Proof.
  induction responses as [|[service [e|]] rest IH]; intros acc [s w];
    cbn [gatherServices]; run_monad; auto.
Qed.

Lemma createdPods_services creates refs :
  Forall (fun call : kube.Request * option error =>
            isCreateService (fst call) = true /\ ownerReferencesOf (fst call) = refs) creates ->
  createdPods creates = [].
Proof.
  induction 1 as [|[req a] l (S & _) _ IH]; cbn; auto.
  destruct req; try discriminate. assumption.
Qed.

Lemma createdPods_app l l' : createdPods (l ++ l')%list = (createdPods l ++ createdPods l')%list.
Proof. apply flat_map_app. Qed.

Lemma makePodProxyServices_spec p refs st :
  let r := makePodProxyServices p refs st in
  exists creates,
    requests (snd (snd r)) = (requests (snd st) ++ creates)%list
    /\ Forall (fun call => isCreateService (fst call) = true
                           /\ ownerReferencesOf (fst call) = refs) creates
    /\ pod (fst (snd r)) = pod (fst st)
    /\ Build (fst (snd r)) = Build (fst st)
    /\ Config (fst (snd r)) = Config (fst st).
Proof.
  destruct st as [s w]. cbv zeta. unfold makePodProxyServices. run_monad.
  match goal with |- context [createServices p refs ?pool ?x] =>
    destruct (createServices_spec p refs pool x) as (creates & R & F & P & B & C);
    destruct (createServices p refs pool x) as [rs st2] end.
  cbn [fst snd] in *.
  destruct (gatherServices_spec rs [] st2) as (G1 & G2).
  exists creates. rewrite G1, G2. auto.
Qed.

Lemma applyPodSpecMerge_no_patch s spec :
  PodSpec (Config s) = [] -> applyPodSpecMerge s spec = (spec, None).
Proof. unfold applyPodSpecMerge. intros ->. reflexivity. Qed.

Lemma frame_inv (st st' : St PM) :
  frame st' = frame st ->
  requests (snd st') = requests (snd st)
  /\ pod (fst st') = pod (fst st)
  /\ configMap (fst st') = configMap (fst st)
  /\ credentials (fst st') = credentials (fst st)
  /\ Build (fst st') = Build (fst st)
  /\ Config (fst st') = Config (fst st)
  /\ cluster (snd st') = cluster (snd st).
Proof. unfold frame. intros E. injection E. intros. repeat split; congruence. Qed.

(** The calls of [setupBuildPod]: none when it fails before the pod is
    created; otherwise the creation of the pod first, and after a successful
    creation the updates that install the pod as owner, then the creations
    of the proxy services. *)
Lemma setupBuildPod_spec init st :
  let r := setupBuildPod init st in
  (newCalls st (snd r) = [] /\ fst r <> None)
  \/ exists cfg answer post,
       newCalls st (snd r)
       = (kube.CreatePod (namespace (Config (fst st))) cfg, answer) :: post
       /\ createdPods post = []
       /\ (PodSpec (Config (fst st)) = [] ->
           metav1.GenerateName (api.PodMeta cfg) = ProjectUniqueName (Build (fst st))
           /\ api.RestartPolicy_ (api.Spec cfg) = api.RestartPolicyNever
           /\ api.InitContainers (api.Spec cfg) = init
           /\ map api.Name (api.Containers (api.Spec cfg))
              = containerNames (List.length (Services (Build (fst st)))))
       /\ match answer with
          | Some e => post = [] /\ fst r = Some e
          | None =>
              exists p updates creates,
                pod (fst (snd r)) = Some p
                /\ (exists c, kube.createPod (namespace (Config (fst st))) cfg
                                             (cluster (snd st)) = inl (p, c))
                /\ post = (updates ++ creates)%list
                /\ (exists k, map fst updates
                              = firstn k (ownerUpdates (fst st) [podReference p]))
                /\ Forall (fun call => isCreateService (fst call) = true
                                       /\ ownerReferencesOf (fst call) = [podReference p])
                          creates
                /\ (forall req e,
                       In (req, Some e) updates ->
                       creates = []
                       /\ fst r = Some (wrapError "error setting ownerReferences" e))
                /\ ((forall call, In call updates -> snd call = None) ->
                    map fst updates = ownerUpdates (fst st) [podReference p])
          end.
Proof.
  destruct st as [s w]. cbv zeta. unfold setupBuildPod. run_monad.
  match goal with |- context [buildServices 0 ?l ?x] =>
    destruct (buildServices_spec l 0 x) as (F1 & N1);
    destruct (buildServices 0 l x) as [[cs e1] [s1 w1]] end.
  apply frame_inv in F1. cbn [fst snd] in *. destruct F1 as (Q1 & P1 & M1 & K1 & B1 & C1 & X1).
  destruct e1 as [e1|]; run_monad.
  { left. split; [|cbn [fst]; discriminate]. unfold newCalls. cbn [fst snd]. rewrite Q1. cbn. apply skipn_length_self. }
  match goal with |- context [getHostAliases ?x] =>
    pose proof (getHostAliases_frame x) as F2;
    destruct (getHostAliases x) as [[aliases e2] [s2 w2]] end.
  apply frame_inv in F2. cbn [fst snd] in *. destruct F2 as (Q2 & P2 & M2 & K2 & B2 & C2 & X2).
  destruct e2 as [e2|]; run_monad.
  { left. split; [|cbn [fst]; discriminate]. unfold newCalls. cbn [fst snd]. rewrite Q2, Q1. cbn. apply skipn_length_self. }
  match goal with |- context [preparePodConfig ?a ?b ?c ?d ?e ?f ?x] =>
    destruct (preparePodConfig_spec a b c d e f x) as (F3 & N3);
    destruct (preparePodConfig a b c d e f x) as [[podConfig e3] [s3 w3]] end.
  apply frame_inv in F3. cbn [fst snd] in *. destruct F3 as (Q3 & P3 & M3 & K3 & B3 & C3 & X3).
  destruct e3 as [e3|]; run_monad.
  { left. split; [|cbn [fst]; discriminate]. unfold newCalls. cbn [fst snd]. rewrite Q3, Q2, Q1. cbn. apply skipn_length_self. }
  specialize (N3 eq_refl). destruct N3 as (G & O & R & I & N).
  destruct (applyPodSpecMerge s1 (api.Spec podConfig)) as [spec e4] eqn:A.
  destruct e4 as [e4|]; run_monad.
  { left. split; [|cbn [fst]; discriminate]. unfold newCalls. cbn [fst snd]. rewrite Q3, Q2, Q1. cbn. apply skipn_length_self. }
  unfold Pods_Create.
  match goal with |- context [apiCall ?r ?z ?f ?st] =>
    destruct (apiCall_served r z f st) as (a & e & c & E & Served);
    rewrite E; clear E; cbn [fst snd] in * end.
  rewrite X3, X2, X1, C1 in Served. cbn [cluster] in Served.
  assert (Shape : PodSpec (Config s) = [] ->
                  metav1.GenerateName (api.PodMeta podConfig) = ProjectUniqueName (Build s)
                  /\ api.RestartPolicy_ spec = api.RestartPolicyNever
                  /\ api.InitContainers spec = init
                  /\ map api.Name (api.Containers spec)
                     = containerNames (List.length (Services (Build s)))).
  { intros NP. rewrite applyPodSpecMerge_no_patch in A by congruence.
    injection A as <-. unfold containerNames.
    rewrite G, R, I, N, N1, B2, B1 by reflexivity. auto. }
  right. destruct e as [e|]; run_monad.
  { exists {| api.PodMeta := api.PodMeta podConfig; api.Spec := spec;
              api.Phase := api.Phase podConfig |}, (Some e), [].
    unfold newCalls. cbn [fst snd answered requests logged buildLog].
    rewrite Q3, Q2, Q1. cbn [requests]. rewrite skipn_length_app, C1.
    split; [reflexivity|]. split; [reflexivity|]. split; [exact Shape|].
    split; reflexivity. }
  match goal with |- context [setOwnerReferencesForResources ?refs ?x] =>
    destruct (setOwnerReferencesForResources_spec refs x)
      as (updates & RU & CU & KU & EU & AU & PU & BU & CfU & _);
    destruct (setOwnerReferencesForResources refs x) as [e5 [s5 w5]] end.
  cbn [fst snd answered requests logged buildLog pod setPod Build Config] in *.
  assert (OU : ownerUpdates (setPod (Some a) s3) (buildPodReferences a)
               = ownerUpdates s [podReference a]).
  { unfold ownerUpdates. cbn [credentials configMap Config setPod].
    rewrite K3, K2, K1, M3, M2, M1, C3, C2, C1. reflexivity. }
  rewrite OU in *.
  destruct e5 as [e5|]; run_monad.
  { exists {| api.PodMeta := api.PodMeta podConfig; api.Spec := spec;
              api.Phase := api.Phase podConfig |}, None, updates.
    unfold newCalls. cbn [fst snd]. rewrite RU, Q3, Q2, Q1. cbn [requests].
    rewrite <- app_assoc, skipn_length_app, C1. cbn [app].
    split; [reflexivity|]. split; [exact CU|]. split; [exact Shape|].
    exists a, updates, []. rewrite app_nil_r.
    split; [assumption|]. split; [eauto|]. split; [reflexivity|]. split; [exact KU|].
    split; [constructor|]. split.
    - intros req e I'. apply EU in I'. split; [reflexivity|]. congruence.
    - intros AN. apply AU in AN. tauto. }
  match goal with |- context [makePodProxyServices ?q ?refs ?x] =>
    destruct (makePodProxyServices_spec q refs x) as (creates & RC & FC & PC & _);
    destruct (makePodProxyServices q refs x) as [[svcs e6] [s6 w6]] end.
  cbn [fst snd] in *.
  exists {| api.PodMeta := api.PodMeta podConfig; api.Spec := spec;
            api.Phase := api.Phase podConfig |}, None, (updates ++ creates)%list.
  assert (NCeq : forall sx : executor PM,
             newCalls (s, w) (sx, w6)
             = (kube.CreatePod (namespace (Config s))
                  {| api.PodMeta := api.PodMeta podConfig; api.Spec := spec;
                     api.Phase := api.Phase podConfig |}, None) :: (updates ++ creates)%list).
  { intros sx. unfold newCalls. cbn [fst snd]. rewrite RC, RU, Q3, Q2, Q1. cbn [requests].
    rewrite <- !app_assoc, skipn_length_app, C1. reflexivity. }
  assert (NoFail : forall req e, In (req, Some e) updates -> False).
  { intros req e I'. apply EU in I'. discriminate I'. }
  destruct e6 as [e6|]; run_monad; cbn [fst snd pod setServices];
    (split; [apply NCeq|]);
    (split; [rewrite createdPods_app, CU, (createdPods_services FC); reflexivity|]);
    (split; [exact Shape|]);
    exists a, updates, creates;
    (split; [congruence|]);
    (split; [eauto|]);
    (split; [reflexivity|]);
    (split; [exact KU|]);
    (split; [exact FC|]);
    (split; [intros req e I'; destruct (NoFail _ _ I')|]);
    intros AN; apply AU in AN; tauto.
Qed.

(** *** Calls only accumulate *)

Section Emits.

Variable P : list (kube.Request * option error) -> Prop.
Hypothesis P_nil : P [].
Hypothesis P_app : forall l l', P l -> P l' -> P (l ++ l')%list.

Lemma emits_ret {A} (a : A) : emits P (ret (S := St PM) a).
Proof. intros st. exists []. cbn. rewrite app_nil_r. auto. Qed.

Lemma emits_bind {A B} (m : M PM A) (k : A -> M PM B) :
  emits P m -> (forall a, emits P (k a)) -> emits P (bind m k).
Proof.
  intros Hm Hk st. unfold bind.
  destruct (Hm st) as (l1 & R1 & P1 & B1 & C1).
  destruct (m st) as [a st1]. cbn [fst snd] in *.
  destruct (Hk a st1) as (l2 & R2 & P2 & B2 & C2).
  exists (l1 ++ l2)%list. rewrite R2, R1, app_assoc. repeat split; auto; congruence.
Qed.

Lemma emits_getS : emits P (getS (PM := PM)).
Proof. intros st. exists []. cbn. rewrite app_nil_r. auto. Qed.

Lemma emits_logln lvl msg : emits P (logln (PM := PM) lvl msg).
Proof. intros st. exists []. cbn. rewrite app_nil_r. auto. Qed.

Lemma emits_modifyS (f : executor PM -> executor PM) :
  (forall s, Build (f s) = Build s /\ Config (f s) = Config s) ->
  emits P (modifyS f).
Proof.
  intros Hf st. exists []. cbn. rewrite app_nil_r. destruct (Hf (fst st)). auto.
Qed.

Lemma emits_apiCall {A} req (zero : A) serve :
  (forall e, P [(req, e)]) -> emits P (apiCall (PM := PM) req zero serve).
Proof.
  intros Hreq st. destruct (apiCall_answered req zero serve st) as (a & e & c & E).
  rewrite E. exists [(req, e)]. cbn. auto.
Qed.

Lemma emits_frame {A} (m : M PM A) :
  (forall st, frame (snd (m st)) = frame st) -> emits P m.
Proof.
  intros Hm st. destruct (frame_inv (Hm st)) as (R & _ & _ & _ & B & C & _).
  exists []. rewrite app_nil_r. auto.
Qed.

End Emits.

Lemma noPodCreated_app l l' : noPodCreated l -> noPodCreated l' -> noPodCreated (l ++ l')%list.
Proof. unfold noPodCreated. intros E E'. rewrite createdPods_app, E, E'. reflexivity. Qed.

Ltac emits_step :=
  first
    [ apply emits_ret; reflexivity
    | apply emits_getS; reflexivity
    | apply emits_logln; reflexivity
    | apply emits_modifyS; [reflexivity | intros; split; reflexivity]
    | apply emits_apiCall; intros; reflexivity
    | apply emits_bind; [apply noPodCreated_app | | intros ] ].

Lemma setupCredentials_calm : emits (PM := PM) noPodCreated setupCredentials.
Proof.
  unfold setupCredentials, Debugln, Secrets_Create.
  emits_step; [emits_step|]. emits_step; [emits_step|].
  match goal with s : executor PM |- _ =>
    destruct (DockerAuth (Build s)) as [auths|e]; [|emits_step] end.
  destruct (Nat.eqb (len auths) 0); [emits_step|].
  emits_step; [emits_step|].
  match goal with r : (api.Secret * option error)%type |- _ =>
    destruct (snd r); repeat emits_step end.
Qed.

Lemma setupScriptsConfigMap_calm : emits (PM := PM) noPodCreated setupScriptsConfigMap.
Proof.
  unfold setupScriptsConfigMap, Debugln, ConfigMaps_Create.
  emits_step; [emits_step|]. emits_step; [emits_step|].
  match goal with s : executor PM |- _ =>
    destruct (retrieveShell s); [emits_step|];
    destruct (generateScripts s) as [scripts [e|]]; [emits_step|] end.
  emits_step; [emits_step|]. emits_step; [emits_step|].
  match goal with r : (api.ConfigMap * option error)%type |- _ =>
    destruct (snd r); repeat emits_step end.
Qed.

Ltac extends_step :=
  first
    [ apply emits_ret; exact I
    | apply emits_getS; exact I
    | apply emits_logln; exact I
    | apply emits_modifyS; [exact I | intros; split; reflexivity]
    | apply emits_apiCall; intros; exact I
    | apply emits_bind; [intros; exact I | | intros ] ].

Lemma setOwnerReferencesForResources_extends refs :
  emits (PM := PM) anyCalls (setOwnerReferencesForResources refs).
Proof.
  intros st.
  destruct (setOwnerReferencesForResources_spec refs st)
    as (updates & R & _ & _ & _ & _ & _ & B & C & _).
  exists updates. unfold anyCalls. auto.
Qed.

Lemma makePodProxyServices_extends p refs :
  emits (PM := PM) anyCalls (makePodProxyServices p refs).
Proof.
  intros st.
  destruct (makePodProxyServices_spec p refs st) as (creates & R & _ & _ & B & C).
  exists creates. unfold anyCalls. auto.
Qed.

Lemma setupBuildPod_extends init : emits (PM := PM) anyCalls (setupBuildPod init).
Proof.
  unfold setupBuildPod, Debugln, Pods_Create.
  extends_step; [extends_step|]. extends_step; [extends_step|].
  extends_step; [apply emits_frame; [exact I | intros; apply buildServices_spec]|].
  match goal with r : (list api.Container * option error)%type |- _ =>
    destruct (snd r); [extends_step|] end.
  extends_step; [extends_step|].
  extends_step; [apply emits_frame; [exact I | intros; apply getHostAliases_frame]|].
  match goal with r : (list string * option error)%type |- _ =>
    destruct (snd r); [extends_step|] end.
  extends_step; [apply emits_frame; [exact I | intros; apply preparePodConfig_spec]|].
  match goal with r : (api.Pod * option error)%type |- _ =>
    destruct (snd r); [extends_step|] end.
  match goal with |- context [applyPodSpecMerge ?x ?y] =>
    destruct (applyPodSpecMerge x y) as [spec [e|]]; [extends_step|] end.
  extends_step; [extends_step|]. extends_step; [extends_step|].
  match goal with r : (api.Pod * option error)%type |- emits _ (match snd ?x with _ => _ end) =>
    destruct (snd x); [extends_step|] end.
  extends_step; [extends_step|].
  extends_step; [apply setOwnerReferencesForResources_extends|].
  match goal with e : option error |- _ => destruct e; [extends_step|] end.
  extends_step; [apply makePodProxyServices_extends|].
  extends_step; [extends_step|].
  match goal with |- emits _ (match snd ?x with _ => _ end) =>
    destruct (snd x); extends_step end.
Qed.

Lemma newCalls_extended {st st' : St PM} {l} :
  requests (snd st') = (requests (snd st) ++ l)%list -> newCalls st st' = l.
Proof. unfold newCalls. intros ->. apply skipn_length_app. Qed.

Lemma selectExecLegacy_requests name err schedule : forall cancelled st,
  requests (snd (snd (selectExecLegacy name err cancelled schedule st)))
  = requests (snd st).
Proof.
  induction schedule as [|ev rest IH]; intros cancelled [s w]; [reflexivity|].
  destruct ev; cbn [selectExecLegacy]; run_monad;
    try solve [apply IH | rewrite IH; reflexivity].
  - destruct (errors_As isCodeExitError err) as [[]|]; reflexivity.
  - destruct cancelled; [reflexivity|apply IH].
Qed.

(** The pods [ensurePodsConfigured] asks for. *)
Lemma ensurePodsConfigured_pods env st :
  PodSpec (Config (fst st)) = [] ->
  Forall (podShape (Build (fst st)) ["init-permissions"])
         (createdPods (newCalls st (snd (ensurePodsConfigured env st)))).
Proof.
  intros NP. destruct st as [s w]. unfold ensurePodsConfigured. run_monad.
  destruct (pod s).
  { unfold newCalls. cbn [fst snd]. rewrite skipn_length_self. constructor. }
  run_monad.
  destruct (setupCredentials_calm (s, w)) as (l1 & R1 & P1 & B1 & C1).
  destruct (setupCredentials (s, w)) as [e1 st1]. cbn [fst snd] in *.
  destruct e1 as [e1|]; run_monad.
  { rewrite (newCalls_extended (st := (s, w)) R1), P1. constructor. }
  destruct (setupScriptsConfigMap_calm st1) as (l2 & R2 & P2 & B2 & C2).
  destruct (setupScriptsConfigMap st1) as [e2 st2]. cbn [fst snd] in *.
  assert (R2' : requests (snd st2) = (requests w ++ (l1 ++ l2))%list)
    by (rewrite R2, R1, <- ?app_assoc; reflexivity).
  destruct e2 as [e2|]; run_monad.
  { rewrite (newCalls_extended (st := (s, w)) R2'), createdPods_app, P1, P2. constructor. }
  destruct (buildPermissionsInitContainer_spec (HelperOSType (Config s)) st2) as (F3 & N3).
  destruct (buildPermissionsInitContainer (HelperOSType (Config s)) st2) as [[c e3] st3].
  apply frame_inv in F3. cbn [fst snd] in *.
  destruct F3 as (R3 & _ & _ & _ & B3 & C3 & _).
  destruct e3 as [e3|]; run_monad.
  { rewrite (newCalls_extended (st := (s, w)) (st' := st3) (l := (l1 ++ l2)%list))
      by (cbn [snd]; congruence).
    rewrite createdPods_app, P1, P2. constructor. }
  destruct (setupBuildPod_extends [c] st3) as (l4 & R4 & _ & _ & _).
  pose proof (setupBuildPod_spec [c] st3) as S4. cbv zeta in S4.
  rewrite (newCalls_extended (st := st3) R4) in S4.
  assert (Final : Forall (podShape (Build s) ["init-permissions"])
                         (createdPods ((l1 ++ l2) ++ l4)%list)).
  { rewrite !createdPods_app, P1, P2. cbn [app].
    destruct S4 as [[-> _]|(cfg & answer & post & -> & CP & Shape & _)]; [constructor|].
    unfold createdPods in *. cbn [flat_map fst app]. rewrite CP. constructor; [|constructor].
    destruct Shape as (G & Rp & I & N); [congruence|].
    unfold podShape. rewrite G, Rp, I, N, B3, B2, B1. cbn [map].
    rewrite N3 by reflexivity. auto. }
  destruct (setupBuildPod [c] st3) as [e4 st4]. cbn [fst snd] in *.
  assert (R4' : requests (snd st4) = (requests w ++ ((l1 ++ l2) ++ l4))%list)
    by (rewrite R4, R3, R2', <- ?app_assoc; reflexivity).
  rewrite <- (newCalls_extended (st := (s, w)) R4') in Final.
  destruct e4 as [e4|]; run_monad; [exact Final|].
  unfold awaitPodRunning. run_monad. destruct st4 as [s4 w4]. cbn [fst snd] in *.
  destruct (waitForPodRunning env) as [status [e5|]]; destruct (pod s4);
    run_monad; cbn [fst snd];
    try destruct (negb (PodPhase_eqb status PodRunning)); exact Final.
Qed.

Lemma awaitPodRunning_requests env st :
  fst (awaitPodRunning env st) = waitForPodRunning env
  /\ requests (snd (snd (awaitPodRunning env st))) = requests (snd st)
  /\ fst (snd (awaitPodRunning env st)) = fst st.
Proof.
  destruct st as [s w]. unfold awaitPodRunning. run_monad.
  destruct (pod s), (snd (waitForPodRunning env)); auto.
Qed.

Lemma runInContainerWithExecLegacy_requests env st :
  requests (snd (snd (runInContainerWithExecLegacy env st))) = requests (snd st).
Proof.
  unfold runInContainerWithExecLegacy. unfold bind.
  destruct (awaitPodRunning_requests env st) as (A & R & _).
  destruct (awaitPodRunning env st) as [[status [e|]] st1]; cbn [fst snd] in *;
    [exact R|].
  destruct (negb (PodPhase_eqb status PodRunning)); exact R.
Qed.

(** The pods [runWithExecLegacy] asks for. *)
Lemma runWithExecLegacy_pods cmd env st :
  PodSpec (Config (fst st)) = [] ->
  Forall (podShape (Build (fst st)) [])
         (createdPods (newCalls st (snd (runWithExecLegacy cmd env st)))).
Proof.
  intros NP. destruct st as [s w]. unfold runWithExecLegacy. run_monad.
  destruct (pod s) eqn:Hp; run_monad.
  { rewrite Hp.
    destruct (if common.Predefined cmd then _ else _) as [cn cc]. run_monad.
    match goal with |- context [runInContainerWithExecLegacy env ?x] =>
      pose proof (runInContainerWithExecLegacy_requests env x) as RL;
      destruct (runInContainerWithExecLegacy env x) as [errCh stL] end.
    cbn [fst snd] in *. unfold newCalls.
    rewrite selectExecLegacy_requests, RL. cbn [fst snd requests].
    rewrite skipn_length_self. constructor. }
  destruct (setupCredentials_calm (s, w)) as (l1 & R1 & P1 & B1 & C1).
  destruct (setupCredentials (s, w)) as [e1 st1]. cbn [fst snd] in *.
  destruct e1 as [e1|]; run_monad.
  { rewrite (newCalls_extended (st := (s, w)) R1), P1. constructor. }
  destruct (setupBuildPod_extends [] st1) as (l4 & R4 & _ & _ & _).
  pose proof (setupBuildPod_spec [] st1) as S4. cbv zeta in S4.
  rewrite (newCalls_extended (st := st1) R4) in S4.
  assert (Final : Forall (podShape (Build s) []) (createdPods (l1 ++ l4)%list)).
  { rewrite !createdPods_app, P1. cbn [app].
    destruct S4 as [[-> _]|(cfg & answer & post & -> & CP & Shape & _)]; [constructor|].
    unfold createdPods in *. cbn [flat_map fst app]. rewrite CP. constructor; [|constructor].
    destruct Shape as (G & Rp & I & N); [congruence|].
    unfold podShape. rewrite G, Rp, I, N, B1. auto. }
  destruct (setupBuildPod [] st1) as [e4 [s4 w4]]. cbn [fst snd] in *.
  assert (R4' : requests w4 = (requests w ++ (l1 ++ l4))%list)
    by (rewrite R4, R1, <- ?app_assoc; reflexivity).
  destruct e4 as [e4|]; run_monad.
  { rewrite (newCalls_extended (st := (s, w)) (st' := (s4, w4)) R4'). exact Final. }
  destruct (if common.Predefined cmd then _ else _) as [cn cc]. run_monad.
  destruct (pod s4);
    [|rewrite (newCalls_extended (st := (s, w)) (l := (l1 ++ l4)%list)) by exact R4';
      exact Final].
  match goal with |- context [runInContainerWithExecLegacy env ?x] =>
    pose proof (runInContainerWithExecLegacy_requests env x) as RL;
    destruct (runInContainerWithExecLegacy env x) as [errCh stL] end.
  cbn [fst snd] in *. unfold newCalls.
  rewrite selectExecLegacy_requests, RL. cbn [fst snd requests].
  rewrite R4', skipn_length_app. exact Final.
Qed.





(** C9, as amended. With no pod-spec patch configured, every pod the
    executor asks the API server to create carries the job's project-unique
    name as its generateName, has restart policy Never and has main
    containers named, in order, build, helper, svc-0 ... svc-(n-1) for the
    n services of the job; its init containers are those handed to
    [setupBuildPod]: one, named init-permissions, in attach mode, and none
    in the legacy exec mode. *)
Theorem created_pods_have_the_job_shape init cmd env st :
  PodSpec (Config (fst st)) = [] ->
  Forall (podShape (Build (fst st)) (map api.Name init))
         (createdPods (newCalls st (snd (setupBuildPod init st))))
  /\ Forall (podShape (Build (fst st)) ["init-permissions"])
            (createdPods (newCalls st (snd (ensurePodsConfigured env st))))
  /\ Forall (podShape (Build (fst st)) [])
            (createdPods (newCalls st (snd (runWithExecLegacy cmd env st)))).
Proof.
  intros NP.
  split; [|split; [apply ensurePodsConfigured_pods | apply runWithExecLegacy_pods]; exact NP].
  destruct (setupBuildPod_spec init st) as [[-> _]|(cfg & answer & post & -> & CP & Shape & _)];
    [constructor|].
  unfold createdPods in *. cbn [flat_map fst app]. rewrite CP.
  constructor; [|constructor].
  destruct (Shape NP) as (G & R & I & N). unfold podShape. rewrite G, R, I, N. auto.
Qed.

End Properties.

(* ------------------------------------------------------------------ *)
(** ** The properties at work on a sample job *)
(* ------------------------------------------------------------------ *)

(** The happy path of the specification: the pod is created after the
    secret and the config-map, adopts them, gets its proxy service, and the
    stage ends with the code of the trap. *)
Example happy_path :
  fst (Run sample.step_script [sample.exits ["hi"] 0] sample.fresh) = Returned None
  /\ map (fun call => (isCreateService (fst call), List.length (ownerReferencesOf (fst call))))
         (requests (snd sample.configured))
     = [(false, 0); (false, 0); (false, 0); (false, 1); (false, 1); (true, 1)]
  /\ trace (snd sample.configured) = ["hi" ++ newline].
Proof. vm_compute. repeat split. Qed.

(** An image-pull failure with no policy left, and with one left: the
    first pod is deleted and a second one is made with the next policy. *)
Example image_pull_failover :
  fst (Run sample.step_script [sample.pullFails "busybox"; sample.exits ["hi"] 7]
           (sample.prepared sample.job ["Always"], sample.quiet))
  = Returned (Some (wrapError "waiting for pod running"
                              (ImagePullError "busybox" "ErrImagePull")))
  /\ map (fun cfg => map api.ImagePullPolicy (firstn 1 (api.Containers (api.Spec cfg))))
         (createdPods (requests (snd (snd
            (Run sample.step_script [sample.pullFails "busybox"; sample.exits ["hi"] 7]
                 sample.fresh)))))
     = [["Always"]; ["IfNotPresent"]]
  /\ List.length (filter (fun call => isDeletePod (fst call))
                         (requests (snd (snd
            (Run sample.step_script [sample.pullFails "busybox"; sample.exits ["hi"] 7]
                 sample.fresh))))) = 1.
Proof. vm_compute. repeat split. Qed.


(** C2, at work. *)
Lemma processLogs_keeps_sentinels_out_of_trace_witness :
  ~ In (doubles.sentinel 0 "/scripts-7-42/step_script" ++ newline)
       (newTrace sample.fresh
                 (snd (processLogs (logEvents (sample.exits ["hi"] 0)) sample.fresh))).
Proof.
  refine (proj2 (proj2 (proj2
            (@processLogs_keeps_sentinels_out_of_trace _ _
               (logEvents (sample.exits ["hi"] 0)) sample.fresh)))
            (doubles.sentinel 0 "/scripts-7-42/step_script")
            {| shells.CommandExitCode := Some 0%Z;
               shells.Script := Some "/scripts-7-42/step_script" |} _).
  vm_compute. reflexivity.
Defined.

(** C3, the claim as stated fails: the script ended with code 0, its
    sentinel was delivered, and the stage returns the error of the attach. *)
Lemma attach_error_outranks_exit_code_zero :
  flat_map statusOf (handled (logEvents sample.attachFails))
  = [{| shells.CommandExitCode := Some 0%Z;
        shells.Script := Some "/scripts-7-42/step_script" |}]
  /\ fst (runWithAttach sample.step_script sample.attachFails sample.fresh)
     = Returned (Some (errorString "attach: connection reset by peer"))
  /\ fst (runWithAttach sample.step_script sample.attachFails sample.fresh)
     <> Returned None.
Proof. vm_compute. repeat split. discriminate. Qed.

(** C3 as amended, at work: a script that ends with code 7, and a script
    that ends with code 0 after the attach failed. *)
Lemma attach_stage_reports_exit_code_witness :
  fst (runWithAttach sample.step_script (sample.exits ["hi"] 7) sample.fresh)
  = Returned (Some (BuildError (Some (commandTerminatedError 7)) 7))
  /\ fst (runWithAttach sample.step_script sample.attachFails sample.fresh)
     = Returned (Some (errorString "attach: connection reset by peer")).
Proof.
  split.
  - refine (proj1 (@attach_stage_reports_exit_code _ _ _
                     sample.step_script (sample.exits ["hi"] 7) sample.fresh
                     (snd (ensurePodsConfigured (sample.exits ["hi"] 7) sample.fresh))
                     sample.thePod
                     {| shells.CommandExitCode := Some 7%Z;
                        shells.Script := Some "/scripts-7-42/step_script" |}
                     7%Z [] [] _ _ _ _ _ _ _) _);
      vm_compute; reflexivity.
  - refine (proj2 (proj2 (@attach_stage_reports_exit_code _ _ _
                            sample.step_script sample.attachFails sample.fresh
                            (snd (ensurePodsConfigured sample.attachFails sample.fresh))
                            sample.thePod
                            {| shells.CommandExitCode := Some 0%Z;
                               shells.Script := Some "/scripts-7-42/step_script" |}
                            0%Z [] [] _ _ _ _ _ _ _)
                         (errorString "attach: connection reset by peer") _) _);
      vm_compute; reflexivity.
Defined.

(** C4, the claim as stated fails: the pod goes from Pending to Failed, the
    watcher sees it, and the stage returns a build error. *)
Lemma pod_failure_returns_a_build_error :
  fst (runWithAttach sample.step_script sample.podFails sample.fresh)
  = Returned (Some (BuildError
                      (Some (podPhaseError "runner-x-project-7-concurrent-02" PodFailed)) 0))
  /\ isBuildError (BuildError
                     (Some (podPhaseError "runner-x-project-7-concurrent-02" PodFailed)) 0)
     = true.
Proof. vm_compute. split; reflexivity. Qed.

(** C4 as amended, at work: the pod fails after a poll that found it
    running, and the pod fails before the first poll. *)
Lemma pod_phase_failure_is_a_BuildError_witness :
  fst (runWithAttach sample.step_script sample.podFailsLater sample.fresh)
  = Returned (Some (BuildError
                      (Some (podPhaseError "runner-x-project-7-concurrent-02" PodFailed))
                      0))
  /\ fst (runWithAttach sample.step_script sample.podFails sample.fresh)
     = Returned (Some (BuildError
                         (Some (podPhaseError "runner-x-project-7-concurrent-02" PodFailed))
                         0)).
Proof.
  split.
  - refine (proj1 (@pod_phase_failure_is_a_BuildError _ _ _
                     sample.step_script sample.podFailsLater sample.fresh
                     (snd (ensurePodsConfigured sample.podFailsLater sample.fresh))
                     sample.thePod
                     [Tick; External (kube.SetPodPhase "ci" "runner-x-project-7-concurrent-02"
                                                       PodFailed)]
                     [] [] _ _ _ _ _ _ _ _ _)
                  (api.withPhase PodFailed sample.thePod) _ _);
      try (vm_compute; reflexivity).
    + vm_compute. constructor.
    + intros [E|[E|[]]]; discriminate E.
    + intros b1 b2 E. destruct b1 as [|x [|y b1]].
      * exists (api.withPhase PodRunning sample.thePod). split; vm_compute; reflexivity.
      * discriminate E.
      * destruct b1; discriminate E.
    + vm_compute. discriminate.
  - refine (proj1 (@pod_phase_failure_is_a_BuildError _ _ _
                     sample.step_script sample.podFails sample.fresh
                     (snd (ensurePodsConfigured sample.podFails sample.fresh))
                     sample.thePod
                     [External (kube.SetPodPhase "ci" "runner-x-project-7-concurrent-02"
                                                 PodFailed)]
                     [] [] _ _ _ _ _ _ _ _ _)
                  (api.withPhase PodFailed sample.thePod) _ _);
      try (vm_compute; reflexivity).
    + vm_compute. constructor.
    + intros [E|[]]. discriminate E.
    + intros b1 b2 E. destruct b1 as [|x b1]; [discriminate E|].
      destruct b1; discriminate E.
    + vm_compute. discriminate.
Defined.


(** C7, the claim as stated fails: the first delete of the pod fails in
    transport and is only logged, so the pod is still there after one
    [Cleanup] and gone after two. *)
Lemma Cleanup_twice_after_a_failed_delete :
  let st1 := snd (Cleanup sample.unreachable) in
  let st2 := snd (Cleanup st1) in
  List.length (kube.Pods (cluster (snd sample.unreachable))) = 1
  /\ List.length (kube.Pods (cluster (snd st1))) = 1
  /\ List.length (kube.Pods (cluster (snd st2))) = 0
  /\ cluster (snd st2) <> cluster (snd st1).
Proof.
  cbv zeta. split; [vm_compute; reflexivity|]. split; [vm_compute; reflexivity|].
  split; [vm_compute; reflexivity|].
  intros E. apply (f_equal (fun c => List.length (kube.Pods c))) in E.
  vm_compute in E. discriminate E.
Qed.

(** C7 as amended, at work. *)
Lemma Cleanup_idempotent_witness :
  faults (snd sample.configured) = []
  /\ cluster (snd (snd (Cleanup (snd (Cleanup sample.configured)))))
     = cluster (snd (snd (Cleanup sample.configured))).
Proof.
  split; [vm_compute; reflexivity|].
  refine (proj1 (@Cleanup_idempotent _ sample.configured _)).
  vm_compute. reflexivity.
Defined.

(** C8, the claim as stated fails: for an error that is no pod-not-found
    error [Finish] still changes a field of the executor, the current stage
    of the embedded abstract executor. *)
Lemma Finish_sets_the_current_stage :
  IsKubernetesPodNotFoundError (Some (errorString "script failed")) = false
  /\ currentStage (fst sample.configured) = common.ExecutorStagePrepare
  /\ currentStage (fst (snd (Finish (Some (errorString "script failed")) sample.configured)))
     = common.ExecutorStageFinish
  /\ fst (snd (Finish (Some (errorString "script failed")) sample.configured))
     <> fst sample.configured.
Proof.
  split; [reflexivity|]. split; [vm_compute; reflexivity|].
  split; [vm_compute; reflexivity|].
  intros E. apply (f_equal currentStage) in E. vm_compute in E. discriminate E.
Qed.

(** C9, the claim as stated fails: the pod of the legacy exec mode has no
    init container. *)
Lemma legacy_pod_has_no_init_container :
  map (fun cfg => map api.Name (api.InitContainers (api.Spec cfg)))
      (createdPods
         (requests (snd (snd
            (Run sample.step_script [sample.execs]
                 (sample.prepared sample.legacyJob ["Always"], sample.quiet))))))
  = [[]].
Proof. vm_compute. reflexivity. Qed.

(** C9 as amended, at work. *)
Lemma created_pods_have_the_job_shape_witness :
  Forall (podShape sample.job ["init-permissions"])
         (createdPods
            (newCalls sample.fresh
                      (snd (ensurePodsConfigured (sample.exits ["hi"] 0) sample.fresh)))).
Proof.
  refine (proj1 (proj2 (@created_pods_have_the_job_shape _ _ _ []
                          sample.step_script (sample.exits ["hi"] 0) sample.fresh _))).
  reflexivity.
Defined.

(** C10, the claim as stated fails. The log stream breaks with an error
    that wraps a code exit error of 137. After an attach that failed, the
    stage returns the error of the attach and not that code; and when the
    goroutine of an earlier stage is still in its receive, it takes the
    status, and the driver of the stage has nothing to send: the select
    finds its channel empty. *)
Lemma fabricated_status_is_not_always_reported :
  fst (runWithAttach sample.step_script sample.streamBreaksDetached sample.configured)
  = Returned (Some (errorString "attach: connection reset by peer"))
  /\ receiving (fst sample.leftReceiving) = 1
  /\ fst (runInContainer None
            (snd (processLogs (logEvents sample.streamBreaks) sample.leftReceiving)))
     = Some []
  /\ fst (runWithAttach sample.step_script sample.streamBreaks sample.leftReceiving)
     = Blocked.
Proof. vm_compute. repeat split. Qed.

(** C10 as amended, at work. *)
Lemma log_processor_error_unblocks_stage_witness :
  fst (runWithAttach sample.step_script sample.streamBreaks sample.configured)
  = Returned (Some (BuildError (Some (commandTerminatedError 137)) 137)).
Proof.
  assert (W := @log_processor_error_unblocks_stage _ _ _
                 sample.step_script sample.streamBreaks sample.configured
                 sample.configured sample.thePod ["compiling"]
                 (Some (wrapError "reading logs" (CodeExitError (errorString "exit") 137)))
                 [] [Tick] []).
  cbv zeta in W.
  refine (proj1 (proj2 (proj2 (W _ _ _ _ _ _ _ _))) _); try (vm_compute; reflexivity).
  intros line [<-|[]]. vm_compute. reflexivity.
Defined.

(* ------------------------------------------------------------------ *)
(** ** Further properties: volumes *)
(* ------------------------------------------------------------------ *)

Section VolumeProperties.

Context {PM : Type}.
Variable s : executor PM.
Variable Volumes : KubernetesVolumes.

Lemma configured_names_agree :
  map vol.Name (getVolumeMountsForConfig Volumes)
  = map vol.VolumeName (getVolumesForConfig Volumes).
Proof.
  unfold getVolumeMountsForConfig, getVolumesForConfig, getVolumesForHostPaths,
    getVolumesForSecrets, getVolumesForPVCs, getVolumesForConfigMaps,
    getVolumesForEmptyDirs, getVolumesForCSIs.
  rewrite !map_app, !map_map. reflexivity.
Qed.

Lemma getVolumeMounts_names cached :
  let required := fst (isDefaultBuildsDirVolumeRequired s Volumes cached) in
  map vol.Name (fst (getVolumeMounts s Volumes cached))
  = (scriptNames s ++ map vol.Name (getVolumeMountsForConfig Volumes) ++ repoNames required)%list
  /\ snd (getVolumeMounts s Volumes cached) = Some required.
Proof.
  unfold getVolumeMounts, scriptNames, repoNames, bind, ret.
  destruct cached as [[|]|]; cbn [isDefaultBuildsDirVolumeRequired fst snd].
  1,2: destruct (configMap s); cbn [fst snd]; rewrite ?map_app, ?app_nil_r; auto.
  destruct (negb _), (configMap s); cbn [fst snd]; rewrite ?map_app, ?app_nil_r; auto.
Qed.

Lemma getVolumes_names cached :
  let required := fst (isDefaultBuildsDirVolumeRequired s Volumes cached) in
  map vol.VolumeName (fst (getVolumes s Volumes cached))
  = ((map vol.VolumeName (getVolumesForConfig Volumes) ++ repoNames required)
       ++ scriptNames s)%list
  /\ snd (getVolumes s Volumes cached) = Some required.
Proof.
  unfold getVolumes, scriptNames, repoNames, bind, ret.
  destruct cached as [[|]|]; cbn [isDefaultBuildsDirVolumeRequired fst snd].
  1,2: destruct (configMap s); cbn [fst snd]; rewrite ?map_app, ?app_nil_r; auto.
  destruct (negb _), (configMap s); cbn [fst snd]; rewrite ?map_app, ?app_nil_r; auto.
Qed.

(** X1. The containers mount exactly the volumes the pod declares: for the
    mounts [getVolumeMounts] gives the containers and the volumes
    [getVolumes] then gives the pod, whatever decision on the default builds
    directory is cached when they are called, the names of the mounts are
    the names of the volumes, up to their order. The same holds when
    [getVolumes] is called first. *)
Theorem volume_mounts_name_the_volumes cached :
  let mounts := getVolumeMounts s Volumes cached in
  let volumes := getVolumes s Volumes (snd mounts) in
  Permutation (map vol.Name (fst mounts)) (map vol.VolumeName (fst volumes))
  /\ Permutation (map vol.VolumeName (fst (getVolumes s Volumes cached)))
                 (map vol.Name
                      (fst (getVolumeMounts s Volumes (snd (getVolumes s Volumes cached))))).
Proof.
  cbv zeta.
  destruct (getVolumeMounts_names cached) as (M1 & C1).
  destruct (getVolumes_names cached) as (V1 & C2).
  rewrite C1, C2.
  destruct (getVolumeMounts_names
              (Some (fst (isDefaultBuildsDirVolumeRequired s Volumes cached)))) as (M2 & _).
  destruct (getVolumes_names
              (Some (fst (isDefaultBuildsDirVolumeRequired s Volumes cached)))) as (V2 & _).
  cbn [isDefaultBuildsDirVolumeRequired fst] in M2, V2.
  rewrite M1, V1, M2, V2, configured_names_agree.
  split; [|symmetry]; apply Permutation_app_comm.
Qed.

(** X2. When nothing is cached yet, the builds directory of the job is on
    a volume: one of the mounts [getVolumeMounts] returns has
    [s.Build.RootDir] as its path (a configured one, or else the mount of the
    default volume repo), the volumes [getVolumes] then returns declare the
    volume it names, and a second call returns the same mounts. *)
Theorem builds_dir_is_mounted :
  let mounts := getVolumeMounts s Volumes None in
  (exists mount,
      In mount (fst mounts)
      /\ vol.MountPath mount = RootDir (Config s)
      /\ In (vol.Name mount)
            (map vol.VolumeName (fst (getVolumes s Volumes (snd mounts)))))
  /\ getVolumeMounts s Volumes (snd mounts) = mounts.
Proof.
  cbv zeta.
  assert (E : exists mount,
             In mount (fst (getVolumeMounts s Volumes None))
             /\ vol.MountPath mount = RootDir (Config s)).
  { unfold getVolumeMounts, bind, ret. cbn [isDefaultBuildsDirVolumeRequired].
    destruct (existsb _ (getVolumeMountsForConfig Volumes)) eqn:X; cbn [negb fst].
    - apply existsb_exists in X. destruct X as (mount & I & P).
      apply String.eqb_eq in P. exists mount. split; [|assumption].
      apply in_or_app. right. assumption.
    - eexists. split; [apply in_or_app; right; left; reflexivity|]. reflexivity. }
  destruct E as (mount & I & P). split.
  - exists mount. split; [assumption|]. split; [assumption|].
    destruct (getVolumeMounts_names None) as (M1 & C1).
    destruct (getVolumes_names (snd (getVolumeMounts s Volumes None))) as (V1 & _).
    rewrite V1, C1, <- configured_names_agree. cbn [isDefaultBuildsDirVolumeRequired fst].
    apply (in_map vol.Name) in I. rewrite M1 in I.
    apply in_app_or in I. apply in_or_app. destruct I; [right|left]; assumption.
  - destruct (getVolumeMounts_names None) as (_ & C). rewrite C.
    unfold getVolumeMounts, bind, ret. cbn [isDefaultBuildsDirVolumeRequired fst snd].
    reflexivity.
Qed.

End VolumeProperties.

(* ------------------------------------------------------------------ *)
(** ** Further properties: defaults and the build directory *)
(* ------------------------------------------------------------------ *)

Section DefaultsProperties.

Context {PM : Type}.

Implicit Types (st : St PM).

(** X3. [checkDefaults] fails exactly when neither the job nor the runner
    configuration names an image, and then it changes nothing. When it
    succeeds, the image has a name and the namespace is not empty: an image
    named by the job is kept, otherwise the image of the configuration is
    taken; a namespace that is set is kept, otherwise it becomes default
    and a warning says so. *)
Theorem checkDefaults_completes_image_and_namespace st :
  let r := checkDefaults st in
  let before := fst st in
  let after := fst (snd r) in
  (fst r <> None <->
   common.Name (Image (Build before)) = "" /\ KubernetesImage (Config before) = "")
  /\ (fst r <> None -> fst r = Some errNoImage /\ snd r = st)
  /\ (fst r = None ->
      common.Name (Image (Build after)) <> ""
      /\ namespace (Config after) <> ""
      /\ (common.Name (Image (Build before)) <> "" ->
          Image (Build after) = Image (Build before))
      /\ (common.Name (Image (Build before)) = "" ->
          common.Name (Image (Build after)) = KubernetesImage (Config before))
      /\ (namespace (Config before) <> "" ->
          namespace (Config after) = namespace (Config before))
      /\ (namespace (Config before) = "" ->
          namespace (Config after) = "default"
          /\ In (LWarning, "Namespace is empty, therefore assuming 'default'.")
                (buildLog (snd (snd r))))).
Proof.
  destruct st as [s w]. cbv zeta.
  unfold checkDefaults.
  cbv beta delta [bind ret getS modifyS modifyW Warningln Println logln] iota zeta.
  cbn [fst snd].
  destruct (String.eqb_spec (common.Name (Image (Build s))) "") as [I|I];
    [destruct (String.eqb_spec (KubernetesImage (Config s)) "") as [K|K]|];
    cbn [fst snd setImage Build Config Image common.Name];
    try (destruct (String.eqb_spec (namespace (Config s)) "") as [N|N];
         cbn [fst snd setNamespace Build Config Image common.Name namespace buildLog]).
  all: repeat split; try tauto; try congruence; try discriminate;
    try (intros; exfalso; tauto).
  all: try (intros [E _]; congruence).
  all: try (intros; apply in_or_app; left; apply in_or_app; right; left; reflexivity).
  all: try (intros E; exfalso; apply E; reflexivity).
Qed.

End DefaultsProperties.

Section BuildDirectory.

Import executors.

Lemma disallowedCustomBuildDir_setBuild e b dir :
  Concurrent b = Concurrent (EBuild e) ->
  disallowedCustomBuildDir (setBuild b e) dir = disallowedCustomBuildDir e dir.
Proof.
  intros C. unfold disallowedCustomBuildDir, GetCustomBuildDir. cbn. rewrite C. reflexivity.
Qed.

Lemma startBuild_unfold osHostname e :
  startBuild osHostname e =
    let hostname :=
      if ShowHostname (Options e) && String.eqb (Hostname (EBuild e)) ""
      then osHostname else Hostname (EBuild e) in
    let named :=
      setBuild {| Hostname := hostname; CI_PROJECT_DIR := CI_PROJECT_DIR (EBuild e);
                  Concurrent := Concurrent (EBuild e); Started := Started (EBuild e) |} e in
    match disallowedCustomBuildDir e (CI_PROJECT_DIR (EBuild e)) with
    | Some err => (Some err, named)
    | None =>
        (None,
         setBuild {| Hostname := hostname; CI_PROJECT_DIR := CI_PROJECT_DIR (EBuild e);
                     Concurrent := Concurrent (EBuild e);
                     Started :=
                       (Started (EBuild e)
                          ++ [(firstNonEmpty [CI_PROJECT_DIR (EBuild e);
                                              BuildsDir (Config e);
                                              DefaultBuildsDir (Options e)],
                               firstNonEmpty [CacheDir (Config e);
                                              DefaultCacheDir (Options e)],
                               SharedBuildsDir (Options e))])%list |} e)
    end.
Proof.
  unfold startBuild. cbv zeta. destruct e as [o c b]. destruct b as [h d n started].
  cbn [Options Config EBuild Hostname CI_PROJECT_DIR Concurrent Started setBuild].
  destruct (ShowHostname o && String.eqb h "");
    cbn [Options Config EBuild Hostname CI_PROJECT_DIR Concurrent Started setBuild];
    (rewrite ?(@disallowedCustomBuildDir_setBuild
                 {| Options := o; Config := c;
                    EBuild := {| Hostname := h; CI_PROJECT_DIR := d; Concurrent := n;
                                 Started := started |} |}
                 {| Hostname := osHostname; CI_PROJECT_DIR := d; Concurrent := n;
                    Started := started |} d eq_refl));
    unfold setBuild; cbn [Options Config EBuild];
    match goal with |- context [disallowedCustomBuildDir ?x ?y] =>
      destruct (disallowedCustomBuildDir x y) end; try reflexivity;
    cbn [firstNonEmpty];
    destruct (String.eqb_spec d "") as [E1|E1]; cbn [negb];
    destruct (String.eqb_spec (BuildsDir c) "") as [E2|E2]; cbn [negb]; rewrite ?E2;
    destruct (String.eqb_spec (DefaultBuildsDir o) "") as [E3|E3]; rewrite ?E3;
    destruct (String.eqb_spec (CacheDir c) "") as [E4|E4]; rewrite ?E4;
    destruct (String.eqb_spec (DefaultCacheDir o) "") as [E5|E5]; rewrite ?E5;
    cbn; rewrite ?E3; try reflexivity;
    destruct (String.eqb_spec d "") as [E6|E6]; try contradiction; reflexivity.
Qed.

(** X4. [startBuild] starts the build at most once, and only when the
    custom build directory is acceptable: when it returns an error
    [StartBuild] has not been called; when it returns nil [StartBuild] has
    been called once, with, as root directory, the first that is set of
    CI_PROJECT_DIR, the builds_dir of the configuration and the default of
    the executor, as cache directory the cache_dir of the configuration or
    else the default of the executor, and the executor's shared flag. *)
Theorem startBuild_chooses_the_directories osHostname e :
  let r := startBuild osHostname e in
  match fst r with
  | Some err =>
      Started (EBuild (snd r)) = Started (EBuild e)
      /\ disallowedCustomBuildDir e (CI_PROJECT_DIR (EBuild e)) = Some err
  | None =>
      Started (EBuild (snd r))
      = (Started (EBuild e)
           ++ [(firstNonEmpty [CI_PROJECT_DIR (EBuild e); BuildsDir (Config e);
                               DefaultBuildsDir (Options e)],
                firstNonEmpty [CacheDir (Config e); DefaultCacheDir (Options e)],
                SharedBuildsDir (Options e))])%list
      /\ disallowedCustomBuildDir e (CI_PROJECT_DIR (EBuild e)) = None
  end.
Proof.
  cbv zeta. rewrite startBuild_unfold. cbv zeta.
  destruct (disallowedCustomBuildDir e (CI_PROJECT_DIR (EBuild e))); cbn; auto.
Qed.

Lemma firstNonEmpty_default l d : d <> "" -> firstNonEmpty (l ++ [d]) <> "".
Proof.
  intros D. induction l as [|x l IH]; cbn.
  - destruct (String.eqb_spec d ""); congruence.
  - destruct (String.eqb_spec x ""); congruence.
Qed.

(** X5. On the Kubernetes executor, for either operating system of the
    helper image: a build that sets CI_PROJECT_DIR is refused exactly when
    the configuration disables custom build directories or the build runs
    with a concurrency above 1 (the builds directory is shared); every
    other build is started, in a root directory and with a cache directory
    that are not empty, and as sharing its builds directory. *)
Theorem kubernetes_build_directory osHostname os config build :
  let e := preparedAbstractExecutor os config build in
  let r := startBuild osHostname e in
  (fst r <> None <->
   CI_PROJECT_DIR build <> ""
   /\ (ConfigCustomBuildDir config = Some {| Enable := false |}
       \/ (Concurrent build > 1)%Z))
  /\ (fst r = None ->
      exists rootDir cacheDir,
        Started (EBuild (snd r)) = (Started build ++ [(rootDir, cacheDir, true)])%list
        /\ rootDir <> "" /\ cacheDir <> "").
Proof.
  cbv zeta.
  pose proof (startBuild_unfold osHostname (preparedAbstractExecutor os config build)) as U.
  cbv zeta in U. rewrite U. clear U.
  assert (O : SharedBuildsDir (setupDefaultExecutorOptions os executorOptions) = true
              /\ DefaultCustomBuildsDirEnabled (setupDefaultExecutorOptions os executorOptions)
                 = true
              /\ DefaultBuildsDir (setupDefaultExecutorOptions os executorOptions) <> ""
              /\ DefaultCacheDir (setupDefaultExecutorOptions os executorOptions) <> "").
  { unfold setupDefaultExecutorOptions.
    destruct (String.eqb os helperimage.OSTypeWindows); cbn; repeat split; discriminate. }
  destruct O as (Sh & En & Db & Dc).
  unfold disallowedCustomBuildDir, GetCustomBuildDir, preparedAbstractExecutor.
  cbn [Options Config EBuild]. rewrite Sh, En, andb_true_r.
  destruct (String.eqb_spec (CI_PROJECT_DIR build) "") as [D|D].
  - cbn [fst snd]. split; [split; [congruence | tauto]|]. intros _.
    do 2 eexists. split; [reflexivity|]. split.
    + apply (firstNonEmpty_default [CI_PROJECT_DIR build; BuildsDir config]). assumption.
    + apply (firstNonEmpty_default [CacheDir config]). assumption.
  - assert (Started_ok :
      forall (x : AbstractExecutor) rootDir cacheDir,
        rootDir <> "" -> cacheDir <> "" ->
        Started (EBuild x) = (Started build ++ [(rootDir, cacheDir, true)])%list ->
        exists r c, Started (EBuild x) = (Started build ++ [(r, c, true)])%list
                    /\ r <> "" /\ c <> "") by (intros; eauto).
    assert (R : firstNonEmpty [CI_PROJECT_DIR build; BuildsDir config;
                               DefaultBuildsDir (setupDefaultExecutorOptions os executorOptions)]
                <> "")
      by (apply (firstNonEmpty_default [CI_PROJECT_DIR build; BuildsDir config]); assumption).
    assert (C : firstNonEmpty [CacheDir config;
                               DefaultCacheDir (setupDefaultExecutorOptions os executorOptions)]
                <> "")
      by (apply (firstNonEmpty_default [CacheDir config]); assumption).
    destruct (ConfigCustomBuildDir config) as [[en]|]; cbn [Enable];
      [destruct en|]; cbn [negb].
    + destruct (Z.gtb_spec (Concurrent build) 1) as [G|G]; cbn [fst snd].
      * split; [split; [intros _; split; [assumption | right; lia] | discriminate]|].
        intros A; discriminate A.
      * split; [split; [intros A; contradiction A; reflexivity|]|].
        -- intros (_ & [A|A]); [discriminate A | lia].
        -- intros _. eapply Started_ok; [exact R | exact C | reflexivity].
    + cbn [fst snd].
      split; [split; [intros _; split; [assumption | left; reflexivity] | discriminate]|].
      intros A; discriminate A.
    + destruct (Z.gtb_spec (Concurrent build) 1) as [G|G]; cbn [fst snd].
      * split; [split; [intros _; split; [assumption | right; lia] | discriminate]|].
        intros A; discriminate A.
      * split; [split; [intros A; contradiction A; reflexivity|]|].
        -- intros (_ & [A|A]); [discriminate A | lia].
        -- intros _. eapply Started_ok; [exact R | exact C | reflexivity].
Qed.

End BuildDirectory.

(* ------------------------------------------------------------------ *)
(** ** Further properties: stages *)
(* ------------------------------------------------------------------ *)

Section StageProperties.

Context {PM : Type} `{Manager PM} `{Packages}.

Implicit Types (st : St PM) (s : executor PM) (w : World).

Ltac run_monad :=
  cbv beta delta [bind ret getS getW modifyS modifyW Errorln Warningln Debugln Println logln]
      iota zeta;
  cbn [fst snd].

Ltac api_step :=
  match goal with
  | |- context [apiCall ?r ?z ?f ?st] =>
      let a := fresh "a" in
      let e := fresh "e" in
      let c := fresh "c" in
      let E := fresh "E" in
      destruct (apiCall_answered r z f st) as (a & e & c & E);
      rewrite E; clear E; cbn [fst snd]
  end.



Lemma runInContainer_requests attachErr st :
  requests (snd (snd (runInContainer attachErr st))) = requests (snd st)
  /\ pod (fst (snd (runInContainer attachErr st))) = pod (fst st).
Proof.
  destruct (runInContainer_world attachErr st) as (W & P & _).
  rewrite W. auto.
Qed.

(** The state in which the select of an attach stage starts, when the pod
    is configured already. *)
Lemma configured_stage_unfold cmd env st p :
  pod (fst st) = Some p ->
  exists st4 errCh,
    requests (snd st4) = requests (snd st)
    /\ pod (fst st4) = Some p
    /\ runInContainer (remote env)
         (snd (processLogs (logEvents env)
                 (fst st,
                  logged LDebug
                         (startingIn (fst (getContainerInfo (fst st) cmd))
                                     (snd (getContainerInfo (fst st) cmd))
                                     (common.Script cmd)) (snd st))))
       = (errCh, st4)
    /\ runWithAttach cmd env st =
         match errCh with
         | None => (Panicked, st4)
         | Some errCh =>
             selectAttach p (fst (getContainerInfo (fst st) cmd)) errCh Watching false
                          (schedule env) st4
         end.
Proof.
  intros P. rewrite runWithAttach_unfold, (ensurePodsConfigured_configured env st P).
  cbv zeta. rewrite P.
  match goal with |- context [processLogs ?ev ?x] =>
    destruct (processLogs_spec ev x) as (F & _ & _ & _ & R) end.
  cbv zeta in F, R.
  match goal with |- context [runInContainer ?a ?x] =>
    destruct (runInContainer_requests a x) as (R4 & P4);
    destruct (runInContainer a x) as [errCh st4] end.
  cbn [fst snd] in *. exists st4, errCh.
  split; [rewrite R4, R; reflexivity|].
  split; [rewrite P4, F; exact P|]. split; reflexivity.
Qed.


Lemma selectAttach_takes_done pre :
  forall p name errCh watch cancelled rest st,
    forallb (fun ev => negb (isSelect ev)) pre = true ->
    cancelled = true \/ In Cancel pre ->
    fst (selectAttach p name errCh watch cancelled (pre ++ SelectDone :: rest) st)
    = Returned (Some errBuildAborted).
Proof.
  induction pre as [|ev pre IH]; intros p name errCh watch cancelled rest st Hpre Hc.
  - destruct Hc as [->|[]]. reflexivity.
  - cbn [forallb] in Hpre. apply andb_true_iff in Hpre. destruct Hpre as (Hev & Hpre).
    assert (Later : forall (c' : bool) (later : cancelled = true \/ In Cancel (ev :: pre)),
               ev <> Cancel -> cancelled = true \/ In Cancel pre).
    { intros _ [A|[A|A]] N; [left; assumption | contradiction | right; assumption]. }
    destruct ev; try discriminate Hev; cbn [app selectAttach].
    + destruct watch; try (apply IH; [assumption | apply (Later true Hc); discriminate]).
      unfold bind. destruct (checkPodStatus p st) as [[e|] st'];
        apply IH; try assumption; apply (Later true Hc); discriminate.
    + apply IH; [assumption | left; reflexivity].
    + destruct watch; [destruct cancelled| |];
        apply IH; try assumption; try (left; reflexivity);
        apply (Later true Hc); discriminate.
    + run_monad. apply IH; [assumption | apply (Later true Hc); discriminate].
Qed.

(** X7. A cancelled stage is aborted. With the pod configured, and the
    statuses on their way to the stage drivers carrying an exit code, if the
    context of the command is cancelled and the select then takes its Done
    branch before any of the two others, [runWithAttach] returns the error
    build aborted. *)
Theorem cancelled_attach_stage_is_aborted cmd env st p pre rest :
  pod (fst st) = Some p ->
  Forall hasExitCode (remoteProcessTerminated (fst st)
                        ++ flat_map statusOf (handled (logEvents env)))%list ->
  schedule env = (pre ++ SelectDone :: rest)%list ->
  forallb (fun ev => negb (isSelect ev)) pre = true ->
  In Cancel pre ->
  fst (runWithAttach cmd env st) = Returned (Some errBuildAborted).
Proof.
  intros P D S Hpre Hc.
  destruct (configured_stage_unfold cmd env st P) as (st4 & errCh & _ & _ & E & ->).
  match type of E with runInContainer ?a ?x = _ =>
    destruct (runInContainer_world a x) as (_ & _ & N) end.
  match type of E with runInContainer ?a (snd (processLogs ?ev ?x)) = _ =>
    destruct (processLogs_spec ev x) as (F & _) end.
  cbv zeta in F. rewrite F in N. cbn [remoteProcessTerminated setRemoteProcessTerminated fst] in N.
  specialize (N D). rewrite E in N. cbn [fst] in N.
  destruct errCh as [errCh|]; [|contradiction N; reflexivity].
  rewrite S. apply selectAttach_takes_done; auto.
Qed.

Lemma selectExecLegacy_takes_container pre :
  forall name err cancelled rest st,
    forallb (fun ev => negb (isSelect ev)) pre = true ->
    fst (selectExecLegacy name err cancelled (pre ++ SelectContainer :: rest) st)
    = Returned (execResult err).
Proof.
  induction pre as [|ev pre IH]; intros name err cancelled rest st Hpre.
  - cbn [app selectExecLegacy]. run_monad. unfold execResult.
    destruct (errors_As isCodeExitError err) as [[]|]; reflexivity.
  - cbn [forallb] in Hpre. apply andb_true_iff in Hpre. destruct Hpre as (Hev & Hpre).
    destruct ev; try discriminate Hev; cbn [app selectExecLegacy]; run_monad;
      apply IH; assumption.
Qed.

Lemma selectExecLegacy_takes_done pre :
  forall name err cancelled rest st,
    forallb (fun ev => negb (isSelect ev)) pre = true ->
    cancelled = true \/ In Cancel pre ->
    fst (selectExecLegacy name err cancelled (pre ++ SelectDone :: rest) st)
    = Returned (Some errBuildAborted).
Proof.
  induction pre as [|ev pre IH]; intros name err cancelled rest st Hpre Hc.
  - destruct Hc as [->|[]]. reflexivity.
  - cbn [forallb] in Hpre. apply andb_true_iff in Hpre. destruct Hpre as (Hev & Hpre).
    destruct ev; try discriminate Hev; cbn [app selectExecLegacy]; run_monad;
      apply IH; try assumption;
      try (left; reflexivity);
      (destruct Hc as [A|[A|A]]; [left; assumption | discriminate A | right; assumption]).
Qed.

Lemma runInContainerWithExecLegacy_sends env st :
  fst (runInContainerWithExecLegacy env st)
  = match waitForPodRunning env with
    | (_, Some err) => Some err
    | (status, None) =>
        if negb (PodPhase_eqb status PodRunning)
        then Some (errorString ("pod failed to enter running state: "
                                  ++ PodPhase_String status))
        else remote env
    end.
Proof.
  unfold runInContainerWithExecLegacy. unfold bind.
  destruct (awaitPodRunning_requests env st) as (A & _).
  destruct (awaitPodRunning env st) as [answer st1]. cbn [fst] in A. subst answer.
  destruct (waitForPodRunning env) as [status [e|]]; [reflexivity|].
  destruct (negb (PodPhase_eqb status PodRunning)); reflexivity.
Qed.

Lemma runWithExecLegacy_configured cmd env st p :
  pod (fst st) = Some p ->
  exists name st0 st',
    runWithExecLegacy cmd env st
    = selectExecLegacy name (fst (runInContainerWithExecLegacy env st0)) false
                       (schedule env) st'.
Proof.
  intros P. destruct st as [s w]. cbn [fst] in P.
  unfold runWithExecLegacy. run_monad. rewrite P. run_monad. rewrite P.
  destruct (common.Predefined cmd); run_monad;
    match goal with |- context [runInContainerWithExecLegacy env ?x] =>
      destruct (runInContainerWithExecLegacy env x) as [errCh st'] eqn:E;
      eexists _, x, st'; rewrite E; reflexivity
    end.
Qed.

Lemma errors_As_wrapped hasType e prefixes :
  hasType e = true ->
  (forall msg inner, hasType (wrapError msg inner) = false) ->
  errors_As hasType (Some (fold_right wrapError e prefixes)) = Some e.
Proof.
  intros T W. unfold errors_As.
  induction prefixes as [|msg prefixes IH]; cbn [fold_right].
  - destruct e; cbn [errors_As_chain]; rewrite ?T; try reflexivity;
      cbn in T; discriminate T.
  - cbn [errors_As_chain]. rewrite W. cbn [Unwrap]. exact IH.
Qed.

(** X8. A stage in the legacy exec mode, the pod being configured. When
    the select takes the result of the exec before anything else: if the
    wait for the pod reports it running, the stage returns nil when the exec
    returned nil, a [BuildError] around the error of the exec, with the code
    of the [exec.CodeExitError] as its exit code, when that error wraps one,
    and the error of the exec itself when it wraps none; if the wait reports
    another phase, the stage returns an error that says so; if the wait
    fails, the stage returns what the select makes of its error. When
    instead the context is cancelled and the select takes its Done branch
    first, the stage returns the error build aborted. *)
Theorem legacy_stage_result cmd env st p pre rest :
  pod (fst st) = Some p ->
  forallb (fun ev => negb (isSelect ev)) pre = true ->
  (schedule env = (pre ++ SelectContainer :: rest)%list ->
   (waitForPodRunning env = (PodRunning, None) ->
    (remote env = None -> fst (runWithExecLegacy cmd env st) = Returned None)
    /\ (forall prefixes Err code,
           remote env = Some (fold_right wrapError (CodeExitError Err code) prefixes) ->
           fst (runWithExecLegacy cmd env st)
           = Returned (Some (BuildError (remote env) code)))
    /\ (forall err,
           remote env = Some err ->
           errors_As isCodeExitError (Some err) = None ->
           fst (runWithExecLegacy cmd env st) = Returned (Some err)))
   /\ (forall phase,
          waitForPodRunning env = (phase, None) ->
          phase <> PodRunning ->
          fst (runWithExecLegacy cmd env st)
          = Returned (Some (errorString ("pod failed to enter running state: "
                                           ++ PodPhase_String phase))))
   /\ (forall phase err,
          waitForPodRunning env = (phase, Some err) ->
          fst (runWithExecLegacy cmd env st) = Returned (execResult (Some err))))
  /\ (schedule env = (pre ++ SelectDone :: rest)%list ->
      In Cancel pre ->
      fst (runWithExecLegacy cmd env st) = Returned (Some errBuildAborted)).
Proof.
  intros P Hpre.
  destruct (runWithExecLegacy_configured cmd env st P) as (name & st0 & st' & ->).
  rewrite runInContainerWithExecLegacy_sends.
  split.
  - intros S. rewrite S, selectExecLegacy_takes_container by assumption.
    split; [|split].
    + intros ->. cbn [PodPhase_eqb negb]. split; [|split].
      * intros ->. reflexivity.
      * intros prefixes Err code E. rewrite E. unfold execResult.
        rewrite errors_As_wrapped by reflexivity. reflexivity.
      * intros err -> N. unfold execResult. rewrite N. reflexivity.
    + intros phase -> N.
      destruct (PodPhase_eqb_spec phase PodRunning) as [|_]; [contradiction|].
      reflexivity.
    + intros phase err ->. reflexivity.
  - intros S C. rewrite S. apply selectExecLegacy_takes_done; auto.
Qed.

(** X9. The watcher tolerates a failing status request. When the request
    for the status of the pod fails with an error that is no pod-not-found
    error, [checkPodStatus] returns nil: it leaves a warning in the build
    log and the store untouched. So the watcher goes on watching and sends
    nothing, and the select of [runWithAttach] cannot take the pod-status
    branch on account of that request. *)
Theorem watcher_tolerates_request_failures p name errCh cancelled rest st e plan :
  faults (snd st) = Some e :: plan ->
  IsKubernetesPodNotFoundError (Some e) = false ->
  let st' :=
    (fst st,
     logged LWarning ("Getting job pod status " ++ Error e)
            (answered (statusRequest p) (Some e) (cluster (snd st)) (snd st))) in
  checkPodStatus p st = (None, st')
  /\ selectAttach p name errCh Watching cancelled (Tick :: rest) st
     = selectAttach p name errCh Watching cancelled rest st'
  /\ selectAttach p name errCh Watching cancelled (Tick :: SelectPodStatus :: rest) st
     = selectAttach p name errCh Watching cancelled rest st'.
Proof.
  intros F N. cbv zeta.
  assert (C : checkPodStatus p st
              = (None,
                 (fst st,
                  logged LWarning ("Getting job pod status " ++ Error e)
                         (answered (statusRequest p) (Some e) (cluster (snd st)) (snd st))))).
  { destruct st as [s w]. cbn [fst snd] in *.
    unfold checkPodStatus, Pods_Get, apiCall. run_monad. rewrite F. cbn [fst snd].
    rewrite N. run_monad. unfold logged, answered, statusRequest. cbn. rewrite ?F.
    reflexivity. }
  split; [exact C|].
  split; cbn [selectAttach]; unfold bind; rewrite C; reflexivity.
Qed.

(** X10. [setupCredentials] makes at most one request. When the
    credentials of the job cannot be resolved it returns that error, and
    when there are none it returns nil, in both cases without a request and
    without touching the executor. Otherwise it asks once for a secret of
    type dockercfg, with the project-unique name of the build as its
    generated-name prefix, in the namespace of the job, holding the one key
    .dockercfg and no owner reference; it returns the error of that request
    unchanged, leaving the credentials handle alone, and on success the
    handle is the secret the API server stored. *)
Theorem setupCredentials_creates_one_secret st :
  let r := setupCredentials st in
  match DockerAuth (Build (fst st)) with
  | inr err => fst r = Some err /\ newCalls st (snd r) = [] /\ fst (snd r) = fst st
  | inl [] => fst r = None /\ newCalls st (snd r) = [] /\ fst (snd r) = fst st
  | inl (_ :: _) =>
      exists secret answer,
        newCalls st (snd r) = [(kube.CreateSecret (namespace (Config (fst st))) secret, answer)]
        /\ api.SecretType secret = api.SecretTypeDockercfg
        /\ metav1.GenerateName (api.SecretMeta secret) = ProjectUniqueName (Build (fst st))
        /\ metav1.Namespace (api.SecretMeta secret) = namespace (Config (fst st))
        /\ metav1.OwnerReferences (api.SecretMeta secret) = []
        /\ map fst (api.SecretData secret) = [api.DockerConfigKey]
        /\ fst r = answer
        /\ match answer with
           | Some _ => fst (snd r) = fst st
           | None =>
               exists created,
                 fst (snd r) = setCredentials (Some created) (fst st)
                 /\ kube.createSecret (namespace (Config (fst st))) secret
                                      (cluster (snd st))
                    = inl (created, cluster (snd (snd r)))
                 /\ In created (kube.Secrets (cluster (snd (snd r))))
           end
  end.
Proof.
  destruct st as [s w]. cbv zeta. unfold setupCredentials. run_monad.
  destruct (DockerAuth (Build s)) as [[|auth auths]|err]; run_monad;
    unfold len; cbn [List.length Nat.eqb]; cbn [fst snd].
  - unfold newCalls. cbn [fst snd requests]. rewrite skipn_length_self. auto.
  - unfold Secrets_Create.
    match goal with |- context [apiCall ?r ?z ?f ?x] =>
      destruct (apiCall_served r z f x) as (a & e & c & E & Served);
      rewrite E; clear E; cbn [fst snd] in * end.
    do 2 eexists.
    split; [destruct e; run_monad; unfold newCalls;
            cbn [fst snd requests answered]; rewrite skipn_length_app; reflexivity|].
    do 5 (split; [reflexivity|]).
    destruct e as [e|]; run_monad; [split; reflexivity|].
    split; [reflexivity|]. exists a. split; [reflexivity|].
    specialize (Served eq_refl). cbn [cluster answered]. split; [exact Served|].
    unfold kube.createSecret in Served. injection Served as <- <-.
    cbn [kube.Secrets]. apply in_or_app. right. left. reflexivity.
  - unfold newCalls. cbn [fst snd requests]. rewrite skipn_length_self. auto.
Qed.

Lemma mapSet_keys {V} k (v : V) m key :
  In key (map fst (mapSet k v m)) <-> key = k \/ In key (map fst m).
Proof.
  induction m as [|[k' v'] m IH]; cbn [mapSet map fst In].
  - intuition congruence.
  - destruct (String.eqb_spec k' k) as [->|N]; cbn [map fst In]; intuition congruence.
Qed.

Lemma mapSet_NoDup {V} k (v : V) m : NoDup (map fst m) -> NoDup (map fst (mapSet k v m)).
Proof.
  induction m as [|[k' v'] m IH]; cbn [mapSet map fst]; intros N.
  - constructor; [intros []|constructor].
  - inversion N as [|x l Nin N']; subst.
    destruct (String.eqb_spec k' k) as [->|D]; cbn [map fst].
    + constructor; assumption.
    + constructor; [|apply IH; assumption].
      intros I. apply mapSet_keys in I. destruct I as [->|I]; [congruence | contradiction].
Qed.

Lemma generateStageScripts_spec stages : forall scripts,
  NoDup (map fst scripts) ->
  let r := generateStageScripts stages scripts in
  (snd r = None ->
   NoDup (map fst (fst r))
   /\ forall key,
        In key (map fst (fst r))
        <-> In key (map fst scripts)
            \/ exists script, In (key, common.Generated script) stages)
  /\ (snd r <> None <-> exists stage err, In (stage, common.GenerateFailed err) stages)
  /\ (forall err,
         snd r = Some err ->
         fst r = []
         /\ exists stage inner,
              err = wrapError "generating trap shell script" inner
              /\ In (stage, common.GenerateFailed inner) stages).
Proof.
  induction stages as [|[stage g] stages IH]; intros scripts N; cbv zeta.
  - cbn [generateStageScripts fst snd]. split; [|split].
    + intros _. split; [assumption|]. intros key. split; [auto|].
      intros [I|(script & [])]. assumption.
    + split; [intros A; contradiction A; reflexivity | intros (_ & _ & [])].
    + intros err E. discriminate E.
  - destruct g as [script| |failure]; cbn [generateStageScripts].
    + destruct (IH (mapSet stage script scripts) (mapSet_NoDup stage script scripts N))
        as (K & F & E). split; [|split].
      * intros S. destruct (K S) as (ND & Keys). split; [assumption|].
        intros key. rewrite Keys, mapSet_keys. split.
        -- intros [[->|I]|(sc & I)]; [right; exists script; left; reflexivity
                                     | left; assumption
                                     | right; exists sc; right; assumption].
        -- intros [I|(sc & [Q|I])];
             [left; right; assumption
             | injection Q as -> ->; left; left; reflexivity
             | right; exists sc; assumption].
      * rewrite F. split.
        -- intros (st & err & I). exists st, err. right. assumption.
        -- intros (st & err & [Q|I]); [discriminate Q | exists st, err; assumption].
      * intros err S. destruct (E err S) as (Z & st & inner & -> & I).
        split; [assumption|]. exists st, inner. split; [reflexivity | right; assumption].
    + destruct (IH scripts N) as (K & F & E). split; [|split].
      * intros S. destruct (K S) as (ND & Keys). split; [assumption|].
        intros key. rewrite Keys. split.
        -- intros [I|(sc & I)]; [left; assumption | right; exists sc; right; assumption].
        -- intros [I|(sc & [Q|I])];
             [left; assumption | discriminate Q | right; exists sc; assumption].
      * rewrite F. split.
        -- intros (st & err & I). exists st, err. right. assumption.
        -- intros (st & err & [Q|I]); [discriminate Q | exists st, err; assumption].
      * intros err S. destruct (E err S) as (Z & st & inner & -> & I).
        split; [assumption|]. exists st, inner. split; [reflexivity | right; assumption].
    + cbn [fst snd]. split; [|split].
      * intros S. discriminate S.
      * split; [intros _; exists stage, failure; left; reflexivity | discriminate].
      * intros err S. injection S as <-. split; [reflexivity|].
        exists stage, failure. split; [reflexivity | left; reflexivity].
Qed.

Lemma generateScripts_core s :
  snd (generateScripts s) = None ->
  NoDup (map fst (fst (generateScripts s)))
  /\ forall key,
       In key (map fst (fst (generateScripts s)))
       <-> In key (map fst
                     (match Shell (Config s) with
                      | shells.SNPwsh | shells.SNPowershell =>
                          [(parsePwshScriptName, shells.PwshValidationScript (Shell (Config s)))]
                      | _ => [(detectShellScriptName, shells.BashDetectShellScript)]
                      end))
           \/ exists script, In (key, common.Generated script) (BuildStages (Build s)).
Proof.
  unfold generateScripts. cbv zeta.
  match goal with |- context [generateStageScripts ?stages ?scripts] =>
    assert (N : NoDup (map fst scripts))
      by (destruct (Shell (Config s)); cbn; (constructor; [intros []|constructor]));
    destruct (generateStageScripts_spec stages scripts N) as (K & _) end.
  exact K.
Qed.

(** X11. The scripts [generateScripts] hands to the config map. It fails
    exactly when the shell fails to generate the script of some build stage,
    and then returns no script and that failure, wrapped. Otherwise no key
    occurs twice, and the keys are the script that fits the shell (the shell
    detection script, or the PowerShell parser) and the stages for which
    the shell generated a script: a skipped stage gets no entry of its own. *)
Theorem generateScripts_keys s :
  let r := generateScripts s in
  let shellScript :=
    match Shell (Config s) with
    | shells.SNPwsh | shells.SNPowershell => parsePwshScriptName
    | _ => detectShellScriptName
    end in
  (snd r <> None <->
   exists stage err, In (stage, common.GenerateFailed err) (BuildStages (Build s)))
  /\ (forall err,
         snd r = Some err ->
         fst r = []
         /\ exists stage inner,
              err = wrapError "generating trap shell script" inner
              /\ In (stage, common.GenerateFailed inner) (BuildStages (Build s)))
  /\ (snd r = None ->
      NoDup (map fst (fst r))
      /\ forall key,
           In key (map fst (fst r))
           <-> key = shellScript
               \/ exists script, In (key, common.Generated script) (BuildStages (Build s))).
Proof.
  cbv zeta. unfold generateScripts.
  match goal with |- context [generateStageScripts ?stages ?scripts] =>
    assert (N : NoDup (map fst scripts))
      by (destruct (Shell (Config s)); cbn; (constructor; [intros []|constructor]));
    destruct (generateStageScripts_spec stages scripts N) as (K & F & E) end.
  split; [exact F|]. split; [exact E|].
  intros S. destruct (K S) as (ND & Keys). split; [exact ND|].
  intros key. rewrite Keys.
  destruct (Shell (Config s)); cbn [map fst In]; intuition congruence.
Qed.

(** X12. The script of a stage is where the stage command looks for it.
    When [setupScriptsConfigMap] succeeds, the config-map handle is the
    object the API server stored, whose data are the generated scripts, with
    an entry under the name of every stage the shell generated a script
    for. The volume scripts of the pod has that config map as its source and
    is mounted at the scripts directory, and the command [getContainerInfo]
    gives for a stage names the file with the name of the stage in that
    directory (for PowerShell: when the stage is not predefined). *)
Theorem stage_scripts_reach_the_container st cmd Volumes cached :
  let r := setupScriptsConfigMap st in
  fst r = None ->
  exists cm,
    let s' := fst (snd r) in
    configMap s' = Some cm
    /\ In cm (kube.ConfigMaps (cluster (snd (snd r))))
    /\ api.Data cm = fst (generateScripts (fst st))
    /\ (forall stage script,
           In (stage, common.Generated script) (BuildStages (Build (fst st))) ->
           In stage (map fst (api.Data cm)))
    /\ In {| vol.Name := "scripts"; vol.MountPath := scriptsDir s';
             vol.SubPath := ""; vol.ReadOnly := false |}
          (fst (getVolumeMounts s' Volumes cached))
    /\ (exists mode,
           In {| vol.VolumeName := "scripts";
                 vol.Source := vol.ConfigMap (metav1.Name (api.ConfigMapMeta cm)) []
                                             mode (Some false) |}
              (fst (getVolumes s' Volumes cached)))
    /\ (match Shell (Config s') with
        | shells.SNPwsh | shells.SNPowershell => common.Predefined cmd = false
        | _ => True
        end ->
        In (scriptsDir s' ++ "/" ++ common.Stage cmd) (snd (getContainerInfo s' cmd))).
Proof.
  destruct st as [s w]. cbv zeta. unfold setupScriptsConfigMap. run_monad.
  destruct (retrieveShell s); run_monad; [discriminate|].
  pose proof (generateScripts_core s) as G.
  destruct (generateScripts s) as [scripts [e|]] eqn:GS; run_monad; [discriminate|].
  unfold ConfigMaps_Create.
  match goal with |- context [apiCall ?r ?z ?f ?x] =>
    destruct (apiCall_served r z f x) as (a & e & c & E & Served);
    rewrite E; clear E; cbn [fst snd] in * end.
  destruct e as [e|]; run_monad; [discriminate|]. intros _.
  specialize (Served eq_refl). unfold kube.createConfigMap in Served.
  injection Served as <- <-.
  eexists. cbn [configMap setConfigMap Build Config cluster answered api.Data
                api.withConfigMapMeta kube.ConfigMaps].
  split; [reflexivity|].
  split; [apply in_or_app; right; left; reflexivity|].
  split; [reflexivity|].
  split.
  { intros stage script I. destruct (G eq_refl) as (_ & Keys).
    apply Keys. right. exists script. assumption. }
  split.
  { unfold getVolumeMounts, bind, ret. cbn [configMap setConfigMap].
    destruct (isDefaultBuildsDirVolumeRequired _ Volumes cached) as [[|] c'];
      cbn [fst]; rewrite <- ?app_assoc; left; reflexivity. }
  split.
  { unfold getVolumes, bind, ret. cbn [configMap setConfigMap].
    destruct (isDefaultBuildsDirVolumeRequired _ Volumes cached) as [[|] c'];
      cbn [fst]; eexists; apply in_or_app; right; left; reflexivity. }
  unfold getContainerInfo, scriptPath.
  cbn [Config setConfigMap].
  destruct (Shell (Config s)), (common.Predefined cmd); cbn [snd];
    intros A; try discriminate A;
    try (apply in_or_app; right); cbn [In]; auto.
Qed.

Lemma setupBuildPod_sets_pod init st :
  fst (setupBuildPod init st) = None ->
  exists p, pod (fst (snd (setupBuildPod init st))) = Some p.
Proof.
  destruct st as [s w]. unfold setupBuildPod. run_monad.
  match goal with |- context [buildServices 0 ?l ?x] =>
    destruct (buildServices 0 l x) as [[cs e1] [s1 w1]] end.
  cbn [fst snd]. destruct e1 as [e1|]; run_monad; [discriminate|].
  match goal with |- context [getHostAliases ?x] =>
    destruct (getHostAliases x) as [[aliases e2] [s2 w2]] end.
  cbn [fst snd]. destruct e2 as [e2|]; run_monad; [discriminate|].
  match goal with |- context [preparePodConfig ?a ?b ?c ?d ?e ?f ?x] =>
    destruct (preparePodConfig a b c d e f x) as [[podConfig e3] [s3 w3]] end.
  cbn [fst snd]. destruct e3 as [e3|]; run_monad; [discriminate|].
  destruct (applyPodSpecMerge s1 (api.Spec podConfig)) as [spec [e4|]];
    run_monad; [discriminate|].
  unfold Pods_Create. api_step.
  destruct e as [e|]; run_monad; [discriminate|].
  match goal with |- context [setOwnerReferencesForResources ?refs ?x] =>
    destruct (setOwnerReferencesForResources_spec refs x)
      as (updates & _ & _ & _ & _ & _ & PU & _);
    destruct (setOwnerReferencesForResources refs x) as [e5 [s5 w5]] end.
  cbn [fst snd pod setPod] in *.
  destruct e5 as [e5|]; run_monad; [discriminate|].
  match goal with |- context [makePodProxyServices ?q ?refs ?x] =>
    destruct (makePodProxyServices_spec q refs x) as (creates & _ & _ & PC & _);
    destruct (makePodProxyServices q refs x) as [[svcs e6] [s6 w6]] end.
  cbn [fst snd] in *.
  destruct e6 as [e6|]; run_monad; [discriminate|].
  intros _. exists a. cbn [pod setServices]. congruence.
Qed.

Lemma ensurePodsConfigured_wait env st :
  pod (fst st) = None ->
  exists setup st4,
    (setup = None -> exists p, pod (fst st4) = Some p)
    /\ forall answer,
         let r := ensurePodsConfigured (withWaitForPodRunning answer env) st in
         match setup with
         | Some e => fst r = Some e
         | None =>
             fst r = waitResult answer
             /\ fst (snd r) = fst st4
             /\ requests (snd (snd r)) = requests (snd st4)
         end.
Proof.
  intros P. destruct st as [s w]. cbn [fst] in P.
  unfold ensurePodsConfigured. run_monad. rewrite P. run_monad.
  destruct (setupCredentials (s, w)) as [[e1|] st1]; run_monad.
  { exists (Some (wrapError "setting up credentials" e1)), (s, w).
    split; [discriminate|reflexivity]. }
  destruct (setupScriptsConfigMap st1) as [[e2|] st2]; run_monad.
  { exists (Some (wrapError "setting up scripts configMap" e2)), (s, w).
    split; [discriminate|reflexivity]. }
  destruct (buildPermissionsInitContainer (HelperOSType (Config s)) st2)
    as [[c [e3|]] st3]; run_monad.
  { exists (Some (wrapError "building permissions init container" e3)), (s, w).
    split; [discriminate|reflexivity]. }
  pose proof (setupBuildPod_sets_pod [c] st3) as SP.
  destruct (setupBuildPod [c] st3) as [[e4|] st4]; run_monad.
  { exists (Some (wrapError "setting up build pod" e4)), (s, w).
    split; [discriminate|reflexivity]. }
  exists None, st4. split; [intros _; apply SP; reflexivity|].
  intros answer.
  destruct (awaitPodRunning_requests (withWaitForPodRunning answer env) st4) as (A & R & F).
  destruct (awaitPodRunning (withWaitForPodRunning answer env) st4) as [a st5].
  cbn [fst snd withWaitForPodRunning waitForPodRunning] in *. subst a.
  unfold waitResult. destruct answer as [status [e5|]]; cbn [fst snd]; run_monad;
    [auto|].
  destruct (negb (PodPhase_eqb status PodRunning)); cbn [fst snd]; auto.
Qed.

Lemma errors_As_waitResult answer :
  errors_As isImagePullError (waitResult answer) = errors_As isImagePullError (snd answer).
Proof.
  unfold waitResult. destruct answer as [status [e|]]; cbn [fst snd].
  - reflexivity.
  - destruct (negb (PodPhase_eqb status PodRunning)); reflexivity.
Qed.

(** X13. What [ensurePodsConfigured] sets up does not depend on the
    answer of [waitForPodRunning]. If, from a state without pod, it succeeds
    when the pod comes up, then for any other answer it leaves the executor
    and the record of requests as in that case and returns: the error of the
    wait, wrapped; or that the pod failed to enter the running state, when
    the wait gives no error but another phase; or nil. The pod handle is
    then set, so that [cleanupResources] asks for the pod to be deleted, and
    [errors.As] finds an image-pull error in what is returned exactly when
    it finds one in the error of the wait. *)
Theorem ensurePodsConfigured_after_the_wait env st :
  pod (fst st) = None ->
  let calm := ensurePodsConfigured (withWaitForPodRunning (PodRunning, None) env) st in
  let r := ensurePodsConfigured env st in
  fst calm = None ->
  fst r = waitResult (waitForPodRunning env)
  /\ fst (snd r) = fst (snd calm)
  /\ requests (snd (snd r)) = requests (snd (snd calm))
  /\ (exists p,
         pod (fst (snd r)) = Some p
         /\ In (kube.DeletePod (metav1.Namespace (api.PodMeta p))
                               (metav1.Name (api.PodMeta p))
                               (Some metav1.DeletePropagationForeground))
               (cleanupRequests (fst (snd r))))
  /\ errors_As isImagePullError (waitResult (waitForPodRunning env))
     = errors_As isImagePullError (snd (waitForPodRunning env)).
Proof.
  intros P. cbv zeta. intros Calm.
  destruct (ensurePodsConfigured_wait env st P) as (setup & st4 & S & E).
  pose proof (E (PodRunning, None)) as E0. pose proof (E (waitForPodRunning env)) as E1.
  cbv zeta in E0, E1.
  replace (withWaitForPodRunning (waitForPodRunning env) env) with env in E1
    by (destruct env; reflexivity).
  destruct setup as [e|]; [congruence|].
  destruct E0 as (_ & F0 & R0). destruct E1 as (V1 & F1 & R1).
  split; [exact V1|]. split; [congruence|]. split; [congruence|].
  split; [|apply errors_As_waitResult].
  destruct (S eq_refl) as (p & Pp). exists p. rewrite F1. split; [assumption|].
  unfold cleanupRequests. rewrite Pp. left. reflexivity.
Qed.

Lemma buildContainer_verified name image def command st c st' :
  buildContainer name image def command st = (c, None, st') ->
  verified (Config (fst st)) c /\ Config (fst st') = Config (fst st).
Proof.
  intros E.
  pose proof (buildContainer_spec name image def command st) as (F & _).
  rewrite E in F. apply frame_inv in F. cbn [fst snd] in F.
  split; [|tauto]. clear F. revert E.
  destruct st as [s w]. unfold buildContainer, pullPolicyFor, verified, verifyOptions.
  run_monad.
  destruct (String.prefix "svc-" name) eqn:Px;
    [|destruct (String.eqb name buildContainerName) eqn:Bn];
    (destruct (VerifyAllowedImage _) eqn:V;
     [intros A; cbv beta in A; discriminate A|]);
    (match goal with |- context [negb ?x] => destruct (negb x) end);
    cbn [fst snd];
    (match goal with |- context [GetPullPolicyFor ?i ?m] =>
       destruct (GetPullPolicyFor i m) as [[pol [e|]] m'] end);
    cbn [fst snd];
    try (intros A; discriminate A);
    destruct (getCommandAndArgs def command);
    intros A; inversion A; cbn [api.Name api.Image];
    rewrite Px, ?Bn; exact V.
Qed.

Lemma buildServices_verified svcs : forall i st,
  snd (fst (buildServices i svcs st)) = None ->
  Forall (verified (Config (fst st))) (fst (fst (buildServices i svcs st))).
Proof.
  induction svcs as [|svc rest IH]; intros i st.
  - intros _. constructor.
  - cbn [buildServices]. run_monad.
    pose proof (buildContainer_verified ("svc-" ++ nat_String i) (common.Name svc) svc [] st)
      as V.
    destruct (buildContainer _ _ _ _ st) as [[c [e|]] st1]; cbn [fst snd] in *;
      run_monad; [intros A; discriminate A|].
    destruct (V c st1 eq_refl) as (Vc & C1).
    specialize (IH (S i) st1).
    destruct (buildServices (S i) rest st1) as [[cs [e|]] st2]; cbn [fst snd] in *;
      run_monad; [intros A; discriminate A|].
    intros _. constructor; [assumption|]. rewrite <- C1. apply IH. reflexivity.
Qed.

Lemma preparePodConfig_verified labels annotations services secrets aliases init st :
  let r := preparePodConfig labels annotations services secrets aliases init st in
  snd (fst r) = None ->
  exists b h,
    api.Containers (api.Spec (fst (fst r))) = b :: h :: services
    /\ verified (Config (fst st)) b /\ verified (Config (fst st)) h.
Proof.
  cbv zeta. unfold preparePodConfig. run_monad.
  pose proof (buildContainer_verified buildContainerName
                (common.Name (Image (Build (fst st)))) (Image (Build (fst st)))
                (DockerCommand (Config (fst st))) st) as V1.
  destruct (buildContainer _ _ _ _ st) as [[b [e|]] st1]; cbn [fst snd] in *;
    run_monad; [intros A; discriminate A|].
  destruct (V1 b st1 eq_refl) as (Vb & C1).
  pose proof (getHelperImage_frame st1) as F2. apply frame_inv in F2.
  destruct (getHelperImage st1) as [helperImage st2]. cbn [fst snd] in *.
  pose proof (buildContainer_verified helperContainerName helperImage common.emptyImage
                (DockerCommand (Config (fst st))) st2) as V3.
  destruct (buildContainer _ _ _ _ st2) as [[h [e|]] st3]; cbn [fst snd] in *;
    run_monad; [intros A; discriminate A|].
  destruct (V3 h st3 eq_refl) as (Vh & C3).
  intros _. exists b, h. split; [reflexivity|]. split; [assumption|].
  replace (Config (fst st)) with (Config (fst st2)); [assumption|].
  destruct F2 as (_ & _ & _ & _ & _ & C2 & _). congruence.
Qed.

Lemma setupBuildPod_first_call init st :
  let r := setupBuildPod init st in
  PodSpec (Config (fst st)) = [] ->
  newCalls st (snd r) = []
  \/ exists cfg answer post,
       newCalls st (snd r)
       = (kube.CreatePod (namespace (Config (fst st))) cfg, answer) :: post
       /\ Forall (verified (Config (fst st))) (api.Containers (api.Spec cfg)).
Proof.
  destruct st as [s w]. cbv zeta. cbn [fst snd]. intros NP. unfold setupBuildPod. run_monad.
  match goal with |- context [buildServices 0 ?l ?x] =>
    pose proof (buildServices_verified l 0 x) as VS;
    destruct (buildServices_spec l 0 x) as (F1 & _);
    destruct (buildServices 0 l x) as [[cs e1] [s1 w1]] end.
  apply frame_inv in F1. cbn [fst snd] in *. destruct F1 as (Q1 & P1 & M1 & K1 & B1 & C1 & X1).
  destruct e1 as [e1|]; run_monad.
  { left. unfold newCalls. cbn [fst snd]. rewrite Q1. cbn. apply skipn_length_self. }
  specialize (VS eq_refl).
  match goal with |- context [getHostAliases ?x] =>
    pose proof (getHostAliases_frame x) as F2;
    destruct (getHostAliases x) as [[aliases e2] [s2 w2]] end.
  apply frame_inv in F2. cbn [fst snd] in *. destruct F2 as (Q2 & P2 & M2 & K2 & B2 & C2 & X2).
  destruct e2 as [e2|]; run_monad.
  { left. unfold newCalls. cbn [fst snd]. rewrite Q2, Q1. cbn. apply skipn_length_self. }
  match goal with |- context [preparePodConfig ?a ?b ?c ?d ?e ?f ?x] =>
    pose proof (preparePodConfig_verified a b c d e f x) as VP;
    destruct (preparePodConfig_spec a b c d e f x) as (F3 & _);
    destruct (preparePodConfig a b c d e f x) as [[podConfig e3] [s3 w3]] end.
  apply frame_inv in F3. cbn [fst snd] in *. destruct F3 as (Q3 & P3 & M3 & K3 & B3 & C3 & X3).
  destruct e3 as [e3|]; run_monad.
  { left. unfold newCalls. cbn [fst snd]. rewrite Q3, Q2, Q1. cbn. apply skipn_length_self. }
  destruct (VP eq_refl) as (b & h & EC & Vb & Vh).
  rewrite applyPodSpecMerge_no_patch by congruence.
  run_monad. unfold Pods_Create.
  match goal with |- context [apiCall ?r ?z ?f ?st] =>
    destruct (apiCall_served r z f st) as (a & e & c & E & Served);
    rewrite E; clear E; cbn [fst snd] in * end.
  assert (VC : Forall (verified (Config s)) (api.Containers (api.Spec podConfig))).
  { rewrite EC. rewrite C2, C1 in Vb, Vh. repeat constructor; assumption. }
  right. destruct e as [e|]; run_monad.
  { exists {| api.PodMeta := api.PodMeta podConfig; api.Spec := api.Spec podConfig;
              api.Phase := api.Phase podConfig |}, (Some e), [].
    unfold newCalls. cbn [fst snd answered requests logged buildLog].
    rewrite Q3, Q2, Q1. cbn [requests]. rewrite skipn_length_app, C1.
    split; [reflexivity|exact VC]. }
  match goal with |- context [setOwnerReferencesForResources ?refs ?x] =>
    destruct (setOwnerReferencesForResources_spec refs x)
      as (updates & RU & _);
    destruct (setOwnerReferencesForResources refs x) as [e5 [s5 w5]] end.
  cbn [fst snd answered requests logged buildLog pod setPod Build Config] in *.
  destruct e5 as [e5|]; run_monad.
  { exists {| api.PodMeta := api.PodMeta podConfig; api.Spec := api.Spec podConfig;
              api.Phase := api.Phase podConfig |}, None, updates.
    unfold newCalls. cbn [fst snd]. rewrite RU, Q3, Q2, Q1. cbn [requests].
    rewrite <- app_assoc, skipn_length_app, C1. cbn [app].
    split; [reflexivity|exact VC]. }
  match goal with |- context [makePodProxyServices ?q ?refs ?x] =>
    destruct (makePodProxyServices_spec q refs x) as (creates & RC & _);
    destruct (makePodProxyServices q refs x) as [[svcs e6] [s6 w6]] end.
  cbn [fst snd] in *.
  exists {| api.PodMeta := api.PodMeta podConfig; api.Spec := api.Spec podConfig;
            api.Phase := api.Phase podConfig |}, None, (updates ++ creates)%list.
  split; [|exact VC].
  destruct e6 as [e6|]; run_monad; cbn [fst snd];
    unfold newCalls; cbn [fst snd]; rewrite RC, RU, Q3, Q2, Q1; cbn [requests];
    rewrite <- !app_assoc, skipn_length_app, C1; reflexivity.
Qed.

(** X14. Without a pod_spec patch, every pod that [setupBuildPod] asks the
    API server to create holds, as its main containers, only containers
    whose image passed [VerifyAllowedImage] with the options of their name:
    the allowed services for a "svc-" container, the allowed images for the
    build container, no list for the helper. *)
Theorem created_pods_hold_verified_images init st :
  PodSpec (Config (fst st)) = [] ->
  Forall (fun p => Forall (verified (Config (fst st))) (api.Containers (api.Spec p)))
         (createdPods (newCalls st (snd (setupBuildPod init st)))).
Proof.
  intros NP.
  destruct (setupBuildPod_spec init st) as [[E _]|(cfg & answer & post & E & CP & _)].
  { rewrite E. constructor. }
  destruct (setupBuildPod_first_call init st NP) as [E'|(cfg' & answer' & post' & E' & V)].
  { rewrite E' in E. discriminate E. }
  rewrite E' in E. injection E as Ec Ea Ep. subst cfg answer post.
  rewrite E'. unfold createdPods in *. cbn [flat_map fst app]. rewrite CP.
  repeat constructor. assumption.
Qed.

End StageProperties.

(* ------------------------------------------------------------------ *)
(** ** The further properties, at work *)
(* ------------------------------------------------------------------ *)


(** X7, at work. *)
Lemma cancelled_attach_stage_is_aborted_witness :
  fst (runWithAttach sample.step_script scenario.cancelled sample.configured)
  = Returned (Some errBuildAborted).
Proof.
  apply (@cancelled_attach_stage_is_aborted _ _ _
           sample.step_script scenario.cancelled sample.configured sample.thePod
           [Tick; Cancel] []).
  - vm_compute. reflexivity.
  - vm_compute. constructor; [discriminate|constructor].
  - vm_compute. reflexivity.
  - vm_compute. reflexivity.
  - right. left. reflexivity.
Defined.

(** X8, at work: the exec returns nil. *)
Lemma legacy_stage_result_witness :
  fst (runWithExecLegacy sample.step_script sample.execs scenario.legacyConfigured)
  = Returned None.
Proof.
  refine (proj1 (proj1 (proj1
            (@legacy_stage_result _ _ _
               sample.step_script sample.execs scenario.legacyConfigured
               scenario.legacyPod [] [] _ _) _) _) _);
    vm_compute; reflexivity.
Defined.

(** X9, at work: the request of the watcher times out. *)
Lemma watcher_tolerates_request_failures_witness :
  checkPodStatus sample.thePod sample.unreachable
  = (None,
     (fst sample.unreachable,
      logged LWarning "Getting job pod status i/o timeout"
             (answered (statusRequest sample.thePod) (Some (errorString "i/o timeout"))
                       (cluster (snd sample.unreachable)) (snd sample.unreachable)))).
Proof.
  refine (proj1 (@watcher_tolerates_request_failures _
                   sample.thePod "build" [] false [] sample.unreachable
                   (errorString "i/o timeout") [] _ _));
    vm_compute; reflexivity.
Defined.

(** X12, at work. *)
Lemma stage_scripts_reach_the_container_witness :
  exists cm,
    configMap (fst (snd (setupScriptsConfigMap sample.fresh))) = Some cm
    /\ In "step_script" (map fst (api.Data cm))
    /\ In "/scripts-7-42/step_script"
          (snd (getContainerInfo (fst (snd (setupScriptsConfigMap sample.fresh)))
                                 sample.step_script)).
Proof.
  destruct (@stage_scripts_reach_the_container _
              sample.fresh sample.step_script scenario.volumes None)
    as (cm & C & _ & _ & S & _ & _ & I).
  - vm_compute. reflexivity.
  - exists cm. split; [exact C|]. split.
    + apply (S "step_script" "echo hi; exit 0"). left. reflexivity.
    + apply I. vm_compute. exact Logic.I.
Defined.

(** X13, at work: the image cannot be pulled. *)
Lemma ensurePodsConfigured_after_the_wait_witness :
  fst (ensurePodsConfigured (sample.pullFails "busybox") sample.fresh)
  = Some (wrapError "waiting for pod running" (ImagePullError "busybox" "ErrImagePull")).
Proof.
  destruct (@ensurePodsConfigured_after_the_wait _ _ _
              (sample.pullFails "busybox") sample.fresh) as (E & _).
  - vm_compute. reflexivity.
  - vm_compute. reflexivity.
  - rewrite E. vm_compute. reflexivity.
Defined.

(** X14, at work. *)
Lemma created_pods_hold_verified_images_witness :
  Forall (fun p => Forall (verified (Config (fst sample.fresh)))
                          (api.Containers (api.Spec p)))
         (createdPods (newCalls sample.fresh (snd (setupBuildPod [] sample.fresh)))).
Proof.
  apply (@created_pods_hold_verified_images _ _ _ [] sample.fresh).
  vm_compute. reflexivity.
Defined.
